(** * ppm: the installation engine of bin/ppm.js

    A shallow embedding of the package manager's command actions
    (install, update, upgrade, uninstall, list) and of [installPackage],
    the recursive dependency walker.  Strings are [string], JS objects used
    as maps are association lists in enumeration order, [undefined] is
    [None].  The registry, the tarball server, ppm.json and the string
    comparison of the engine are an immutable [World]; the lock object, the
    session set, prisma.lock, node_modules and the cache directory are
    threaded through as a [State].

    The file system is taken to do what it is asked: reads, writes and
    directory creations succeed wherever the entries they need exist.  *)

From Stdlib Require Import String Ascii List Bool Arith NArith ZArith Lia Permutation Sorted.
Import ListNotations.
Local Open Scope list_scope.
Local Open Scope string_scope.

(** ** JavaScript string primitives *)

Module Js.

(** [s.split(sep)] for a one-character separator: never empty. *)
Fixpoint split (sep : ascii) (s : string) : list string :=
  match s with
  | EmptyString => [EmptyString]
  | String c r =>
      if Ascii.eqb c sep then EmptyString :: split sep r
      else match split sep r with
           | [] => [String c EmptyString]
           | h :: t => String c h :: t
           end
  end.

(** [s.startsWith(p)]. *)
Definition startsWith (s p : string) : bool := String.prefix p s.

(** [s.slice(1)]. *)
Definition slice1 (s : string) : string :=
  match s with
  | EmptyString => EmptyString
  | String _ r => r
  end.

(** Truthiness of a string value. *)
Definition truthy (s : string) : bool := negb (String.eqb s "").

(** Truthiness of a possibly undefined string value. *)
Definition truthyOpt (o : option string) : bool :=
  match o with
  | Some s => truthy s
  | None => false
  end.

(** String coercion in a concatenation: [undefined] prints as "undefined". *)
Definition str (o : option string) : string :=
  match o with
  | Some s => s
  | None => "undefined"
  end.

(** [s.replace(/\//g, '__')]. *)
Fixpoint replaceSlashes (s : string) : string :=
  match s with
  | EmptyString => EmptyString
  | String c r =>
      if Ascii.eqb c "/" then String "_" (String "_" (replaceSlashes r))
      else String c (replaceSlashes r)
  end.

(** Does the string contain the character? *)
Fixpoint contains (c : ascii) (s : string) : bool :=
  match s with
  | EmptyString => false
  | String d r => Ascii.eqb d c || contains c r
  end.

(** *** Property lookup

    What every ordinary object inherits from [Object.prototype] in Node 18:
    [o[k]] finds these when [o] has no own property [k], and each of them is
    a function or an object, hence truthy. *)
Definition objectPrototype : list string :=
  ["constructor"; "__defineGetter__"; "__defineSetter__"; "hasOwnProperty";
   "__lookupGetter__"; "__lookupSetter__"; "isPrototypeOf"; "propertyIsEnumerable";
   "toString"; "valueOf"; "__proto__"; "toLocaleString"].

(** Is [k] the name of an inherited member? *)
Definition inherited (k : string) : bool := existsb (String.eqb k) objectPrototype.

(** *** Numerals *)

Definition isDigit (c : ascii) : bool :=
  let n := nat_of_ascii c in (48 <=? n)%nat && (n <=? 57)%nat.

Definition digitVal (c : ascii) : N := N.of_nat (nat_of_ascii c - 48).

Fixpoint allDigits (s : string) : bool :=
  match s with
  | EmptyString => true
  | String c r => isDigit c && allDigits r
  end.

(** The value of a run of decimal digits, read from the left. *)
Fixpoint toNumber (acc : N) (s : string) : N :=
  match s with
  | EmptyString => acc
  | String c r => toNumber (10 * acc + digitVal c)%N r
  end.

(** An array index: the canonical numeral of an integer below 2^32 - 1.
    Own properties with such keys are enumerated first, in ascending
    order. *)
Definition arrayIndex (k : string) : option N :=
  match k with
  | EmptyString => None
  | String c r =>
      if allDigits k && (negb (Ascii.eqb c "0") || String.eqb r "")
         && (toNumber 0 k <? 4294967295)%N
      then Some (toNumber 0 k)
      else None
  end.

(** *** [localeCompare] with [{ numeric: true }]

    The comparison is the host's: it depends on the ICU data and the default
    locale of the engine, and a [World] supplies it.  What no locale leaves
    open, on an engine built with ICU as the releases of Node are, is the
    order of dotted decimals, strings of the form [digits(.digits)*]: there
    every run of digits counts by its value, runs are compared from the left
    and a proper prefix sorts first.  ICU reads at most 254 digits as one
    number, which bounds the strings taken as dotted. *)

Fixpoint dottedFrom (afterDigit : bool) (s : string) : bool :=
  match s with
  | EmptyString => afterDigit
  | String c r =>
      if isDigit c then dottedFrom true r
      else if Ascii.eqb c "." then afterDigit && dottedFrom false r
      else false
  end.

Definition dotted (s : string) : bool :=
  dottedFrom false s && (String.length s <=? 254)%nat.

Definition numbers (s : string) : list N := map (toNumber 0) (split "." s).

Fixpoint compareNumbers (a b : list N) : comparison :=
  match a, b with
  | [], [] => Eq
  | [], _ :: _ => Lt
  | _ :: _, [] => Gt
  | x :: a', y :: b' =>
      match N.compare x y with
      | Eq => compareNumbers a' b'
      | c => c
      end
  end.

Definition compareDotted (a b : string) : comparison :=
  compareNumbers (numbers a) (numbers b).

(** [a.localeCompare(b, undefined, { numeric: true })] on a host whose
    comparison of other strings is [host]. *)
Definition localeCompareNumeric (host : string -> string -> comparison)
    (a b : string) : comparison :=
  if dotted a && dotted b then compareDotted a b else host a b.

(** *** [Array.prototype.sort(cmp)]: a stable sort

    For a comparison that is a total preorder, as a collation is, the result
    of a stable sort is determined; insertion from the right computes it. *)

Section Sort.
Variable cmp : string -> string -> comparison.

Fixpoint insert (x : string) (l : list string) : list string :=
  match l with
  | [] => [x]
  | y :: l' =>
      match cmp x y with
      | Gt => y :: insert x l'
      | _ => x :: l
      end
  end.

Definition sort (l : list string) : list string := fold_right insert [] l.
End Sort.

(** [arr.find(p)]. *)
Definition find (p : string -> bool) (l : list string) : option string :=
  List.find p l.

End Js.

(** ** Objects used as maps

    [Dict] lists the own properties of a JS object in enumeration order; the
    same lists serve for the entries of a directory. *)

Definition Dict (V : Type) : Type := list (string * V).

Section Dict.
Context {V : Type}.

(** [o[k]]. *)
Fixpoint get (k : string) (o : Dict V) : option V :=
  match o with
  | [] => None
  | (k', v) :: o' => if String.eqb k k' then Some v else get k o'
  end.

(** Insert or replace: an existing key keeps its place, a new one goes
    last. *)
Fixpoint set (k : string) (v : V) (o : Dict V) : Dict V :=
  match o with
  | [] => [(k, v)]
  | (k', v') :: o' =>
      if String.eqb k k' then (k, v) :: o' else (k', v') :: set k v o'
  end.

(** [delete o[k]]. *)
Definition del (k : string) (o : Dict V) : Dict V :=
  filter (fun kv => negb (String.eqb k (fst kv))) o.

(** [Object.keys(o)]. *)
Definition objectKeys (o : Dict V) : list string := map fst o.
End Dict.

(** Where a new array-index key goes: behind the smaller indices, before
    everything else. *)
Fixpoint insertIndex (n : N) (k v : string) (o : Dict string) : Dict string :=
  match o with
  | [] => [(k, v)]
  | (k', v') :: o' =>
      match Js.arrayIndex k' with
      | Some n' => if (n' <? n)%N then (k', v') :: insertIndex n k v o' else (k, v) :: o
      | None => (k, v) :: o
      end
  end.

(** [o[k] = v] for a string [v] on an object created by a literal or by
    [JSON.parse]: an own property is overwritten where it stands; without
    one, ["__proto__"] reaches the inherited setter, which ignores strings,
    an array index is filed among the indices, and any other key goes
    last. *)
Definition assign (k v : string) (o : Dict string) : Dict string :=
  match get k o with
  | Some _ => set k v o
  | None =>
      if String.eqb k "__proto__" then o
      else match Js.arrayIndex k with
           | Some n => insertIndex n k v o
           | None => set k v o
           end
  end.

(** ** Specifier parsing (installPackage, lines 140-145) *)

(** [let [pkg, range] = pkgSpec.split('@')] and the scoped-name fix-up. *)
Definition parseSpec (pkgSpec : string) : string * option string :=
  let parts := Js.split "@" pkgSpec in
  let pkg := hd EmptyString parts in
  let range := nth_error parts 1 in
  if String.eqb pkg "" && Js.truthyOpt range
  then ("@" ++ Js.str range, None)
  else (pkg, range).

(** Re-joining a parsed specifier with ['@']. *)
Definition joinSpec (p : string * option string) : string :=
  match snd p with
  | Some r => fst p ++ "@" ++ r
  | None => fst p
  end.

(** ** Version resolution *)

(** [semverSatisfies(version, range)], lines 124-136. *)
Definition semverSatisfies (version : string) (range : option string) : bool :=
  match range with
  | None => true
  | Some r =>
      if negb (Js.truthy r) || String.eqb r "latest" then true
      else if Js.startsWith r "^" then
        let major := hd EmptyString (Js.split "." (Js.slice1 r)) in
        Js.startsWith version (major ++ ".")
      else if Js.startsWith r "~" then
        let parts := Js.split "." (Js.slice1 r) in
        let major := hd EmptyString parts in
        let minor := nth_error parts 1 in
        Js.startsWith version (major ++ "." ++ Js.str minor ++ ".")
      else String.eqb version r
  end.

(** Registry metadata: [meta['dist-tags'].latest] and [meta.versions], the
    latter mapping a version to its [dist.tarball] URL.  The registry tags a
    latest version on every package it serves; documents without the tag
    are outside the model. *)
Record Meta : Type := mkMeta {
  latest : string;
  versions : Dict string
}.

Inductive Resolution : Type :=
| Picked (version : string)
| NoVersion (allVersions : list string).

(** [Object.keys(meta.versions).sort((a, b) => b.localeCompare(a, ...))]. *)
Definition allVersions (host : string -> string -> comparison) (meta : Meta)
    : list string :=
  Js.sort (fun a b => Js.localeCompareNumeric host b a) (objectKeys (versions meta)).

(** Lines 186-196 of installPackage; [NoVersion] carries the sorted keys, of
    which the message shows the first five. *)
Definition resolveVersion (host : string -> string -> comparison) (meta : Meta)
    (range : option string) : Resolution :=
  if Js.truthyOpt range && negb (String.eqb (Js.str range) "latest") then
    match Js.find (fun v => semverSatisfies v range) (allVersions host meta) with
    | Some found =>
        if Js.truthy found then Picked found
        else NoVersion (allVersions host meta)
    | None => NoVersion (allVersions host meta)
    end
  else Picked (latest meta).

(** ** The world outside the process *)

(** An HTTP exchange: the [fetch] promise rejects (transport failure, or a
    body that does not decode), resolves with [!res.ok], or resolves with a
    body. *)
Inductive Response (A : Type) : Type :=
| Unreachable
| NotOk
| Ok (body : A).
Arguments Unreachable {A}.
Arguments NotOk {A}.
Arguments Ok {A} body.

(** What extraction leaves in a package directory: its package.json, if any,
    reduced to the [dependencies] object ([{}] when the field is missing), and
    the names of its other files. *)
Record PkgDir : Type := mkDir {
  manifest : option (Dict string);
  files : list string
}.

Definition emptyDir : PkgDir := mkDir None [].

(** A tarball response body, which is also what ends up in a cache file. *)
Inductive Body : Type :=
| Archive (content : PkgDir)
| Corrupt
| Interrupted.

(** The registry, the tarball server, the [cacheDirectory] setting of
    ppm.json and the string comparison of the engine,
    [(a, b) => a.localeCompare(b, undefined, { numeric: true })]. *)
Record World : Type := mkWorld {
  registry : string -> Response Meta;
  tarballs : string -> Response Body;
  cacheDirectory : option string;
  collate : string -> string -> comparison
}.

Inductive Exn : Type :=
| NetworkError
| TypeError
| StreamError
| TarError
| ENOENT
| SyntaxError.

Inductive Message : Type :=
| AlreadyInstalled (pkg : string) (shown : option string)
| NotInRegistry (pkg : string)
| NoVersionFound (pkg range : string) (shown : list string)
| TarballFailed (pkg version : string)
| InstallFailed (pkg : string) (e : Exn)
| Installed (pkg version : string)
| Updated (pkg : string)
| UpdateFailed (e : Exn)
| NothingToUpgrade
| AllUpgraded
| UpgradeFailed (e : Exn)
| NothingToInstall
| AllInstalled
| Pruned (n : nat)
| Uninstalled (pkg : string)
| NotInstalled (pkg : string)
| UninstallFailed (e : Exn).

(** Observable actions, newest first in a trace.  The progress bar and the
    100 ms pauses are left out. *)
Inductive Event : Type :=
| FetchMeta (pkg : string)
| FetchTarball (url : string)
| Extract (pkg version : string)
| WriteLock (deps : Dict string)
| Log (m : Message)
| LogError (m : Message).

(** prisma.lock on disk: missing, not JSON, JSON without a [dependencies]
    member, or JSON whose [dependencies] is the given object.  Other shapes,
    a [dependencies] that is no object or holds values that are no strings,
    are outside the model. *)
Inductive LockFile : Type :=
| Absent
| Malformed
| NoDependencies
| Present (deps : Dict string).

(** node_modules: its directories by path relative to it, on a file system
    with case-sensitive names and ['/'] as the only separator.  A name is
    looked up as it is written: the model follows the code for names that
    [path.join] leaves as they are and that name a directory, see
    [Fs.plainPath]. *)
Definition Dir : Type := Dict PkgDir.

(** The lock object's [dependencies], the session set, and three places on
    disk.  The cache directory is kept apart from node_modules and
    prisma.lock: a [cacheDirectory] setting that points at or into either
    of them is outside the model, see [Fs.besideProjectFiles]. *)
Record State : Type := mkState {
  lock : Dict string;
  installedSet : list string;
  lockFile : LockFile;
  nodeModules : option Dir;
  cacheFiles : option (Dict Body);
  trace : list Event
}.

Definition setLock (l : Dict string) (st : State) : State :=
  mkState l (installedSet st) (lockFile st) (nodeModules st) (cacheFiles st) (trace st).
Definition setInstalledSet (s : list string) (st : State) : State :=
  mkState (lock st) s (lockFile st) (nodeModules st) (cacheFiles st) (trace st).
Definition setLockFile (f : LockFile) (st : State) : State :=
  mkState (lock st) (installedSet st) f (nodeModules st) (cacheFiles st) (trace st).
Definition setNodeModules (d : option Dir) (st : State) : State :=
  mkState (lock st) (installedSet st) (lockFile st) d (cacheFiles st) (trace st).
Definition setCacheFiles (c : option (Dict Body)) (st : State) : State :=
  mkState (lock st) (installedSet st) (lockFile st) (nodeModules st) c (trace st).
Definition emit (e : Event) (st : State) : State :=
  mkState (lock st) (installedSet st) (lockFile st) (nodeModules st) (cacheFiles st)
          (e :: trace st).

(** ** Sets

    A [Set] of strings in insertion order. *)

(** [s.has(x)]. *)
Definition setHas (x : string) (s : list string) : bool := existsb (String.eqb x) s.

(** [s.add(x)]. *)
Definition setAdd (x : string) (s : list string) : list string :=
  if setHas x s then s else (s ++ [x])%list.

(** ** File system *)

Module Fs.

(** A path segment that [path.join] keeps: not empty, not [.] or [..], and
    free of the backslash (code 92), the separator of the other platform. *)
Definition plainSegment (s : string) : bool :=
  negb (String.eqb s "") && negb (String.eqb s ".") && negb (String.eqb s "..")
  && negb (Js.contains (ascii_of_nat 92) s).

(** A relative path that [path.join(nodeModules, p)] only appends. *)
Definition plainPath (p : string) : bool := forallb plainSegment (Js.split "/" p).

(** A plain path of one segment: a top-level name. *)
Definition plainName (p : string) : bool :=
  plainSegment p && negb (Js.contains "/" p).

(** ASCII lower case, for names on a file system that folds case. *)
Definition lower (c : ascii) : ascii :=
  let n := nat_of_ascii c in
  if (65 <=? n)%nat && (n <=? 90)%nat then ascii_of_nat (n + 32) else c.

Fixpoint lowercase (s : string) : string :=
  match s with
  | EmptyString => EmptyString
  | String c r => String (lower c) (lowercase r)
  end.

(** A [cacheDirectory] setting that resolves to a directory of its own
    inside the project: a plain relative path that does not start at
    node_modules, prisma.lock or ppm.json, under any spelling of their
    letters. *)
Definition besideProjectFiles (setting : string) : bool :=
  plainPath setting
  && negb (setHas (lowercase (hd EmptyString (Js.split "/" setting)))
             ["node_modules"; "prisma.lock"; "ppm.json"]).

Fixpoint join (parts : list string) : string :=
  match parts with
  | [] => ""
  | [p] => p
  | p :: rest => p ++ "/" ++ join rest
  end.

(** The parent of a relative path, [None] for a top-level entry. *)
Definition dirname (p : string) : option string :=
  match Js.split "/" p with
  | [] | [_] => None
  | parts => Some (join (removelast parts))
  end.

(** [fs.existsSync(path.join(nodeModules, p))] for a directory [p]. *)
Definition existsSync (p : string) (nm : option Dir) : bool :=
  match nm with
  | Some d => match get p d with Some _ => true | None => false end
  | None => false
  end.

(** [fs.mkdirSync(path.join(nodeModules, p))], not recursive: the parent has
    to be there. *)
Definition mkdirSync (p : string) (d : Dir) : Exn + Dir :=
  match dirname p with
  | None => inr (set p emptyDir d)
  | Some parent =>
      match get parent d with
      | Some _ => inr (set p emptyDir d)
      | None => inl ENOENT
      end
  end.

(** [fs.rmSync(path.join(nodeModules, p), { recursive: true, force: true })]
    for a directory [p]: it goes with everything below it. *)
Definition rmSync (p : string) (d : Dir) : Dir :=
  filter (fun kv => negb (String.eqb (fst kv) p || String.prefix (p ++ "/") (fst kv))) d.

(** [fs.readdirSync(nodeModules)]. *)
Definition readdirSync (d : Dir) : list string :=
  filter (fun k => negb (Js.contains "/" k)) (objectKeys d).

(** The first component of a relative path. *)
Definition topLevel (p : string) : string := hd EmptyString (Js.split "/" p).

(** As on a disk, every entry lies under a top-level entry that is listed. *)
Definition closed (d : Dir) : Prop :=
  forall k, In k (objectKeys d) -> In (topLevel k) (readdirSync d).

(** Extraction over an existing directory merges into it. *)
Definition merge (old new : PkgDir) : PkgDir :=
  mkDir (match manifest new with Some m => Some m | None => manifest old end)
        (files new ++ filter (fun f => negb (setHas f (files new))) (files old))%list.

Definition extractInto (p : string) (content : PkgDir) (d : Dir) : Dir :=
  match get p d with
  | Some old => set p (merge old content) d
  | None => set p content d
  end.

End Fs.

(** ** installPackage *)

(** How the body of the [try] block ends. *)
Inductive Completion : Type :=
| Returned (st : State)
| Thrown (e : Exn) (st : State).

Definition stateOf (c : Completion) : State :=
  match c with
  | Returned st => st
  | Thrown _ st => st
  end.

(** Lines 160-161: the cache directory named by ppm.json, if any. *)
Definition cacheDir (w : World) : option string :=
  if Js.truthyOpt (cacheDirectory w) then cacheDirectory w else None.

(** Lines 162-166: create the cache directory when it is configured and
    missing.  The creation stands outside the [try]; it is taken to
    succeed. *)
Definition ensureCacheDir (w : World) (st : State) : State :=
  match cacheDir w, cacheFiles st with
  | Some _, None => setCacheFiles (Some []) st
  | _, _ => st
  end.

(** Line 203: the cache file of a package version. *)
Definition tarballName (pkg version : string) : string :=
  Js.replaceSlashes pkg ++ "-" ++ version ++ ".tgz".

(** Lines 200-207: the cache file of a package version, when caching is on
    and the file is there. *)
Definition cachedFile (w : World) (st : State) (pkg version : string) : option Body :=
  match cacheDir w, cacheFiles st with
  | Some _, Some files => get (tarballName pkg version) files
  | _, _ => None
  end.

(** Lines 229-232 and 265-268: make node_modules and the package directory. *)
Definition makeDirs (pkg : string) (st : State) : Completion :=
  let d := match nodeModules st with Some d => d | None => [] end in
  match get pkg d with
  | Some _ => Returned (setNodeModules (Some d) st)
  | None =>
      match Fs.mkdirSync pkg d with
      | inr d' => Returned (setNodeModules (Some d') st)
      | inl e => Thrown e (setNodeModules (Some d) st)
      end
  end.

(** The [for (const dep in deps)] loop of lines 251-255 and 281-285. *)
Fixpoint forDeps (call : string -> State -> option State) (deps : Dict string)
    (st : State) : option State :=
  match deps with
  | [] => Some st
  | (dep, r) :: rest =>
      if setHas dep (installedSet st) then forDeps call rest st
      else match call (dep ++ "@" ++ r) st with
           | Some st' => forDeps call rest st'
           | None => None
           end
  end.

(** Lines 243-245, repeated as 273-275: record the version, persist the
    lock, mark the session. *)
Definition recordInstall (pkg version : string) (st : State) : State :=
  let st := setLock (assign pkg version (lock st)) st in
  let st := emit (WriteLock (lock st)) (setLockFile (Present (lock st)) st) in
  setInstalledSet (setAdd pkg (installedSet st)) st.

(** Lines 247-250, repeated as 277-280: the dependencies the extracted
    package.json declares. *)
Definition declaredDeps (pkg : string) (st : State) : Dict string :=
  match nodeModules st with
  | Some d =>
      match get pkg d with
      | Some dir => match manifest dir with Some ds => ds | None => [] end
      | None => []
      end
  | None => []
  end.

(** Lines 242-259, repeated as lines 272-289: record, walk the declared
    dependencies, report at depth 0. *)
Definition finishInstall (call : string -> State -> option State)
    (pkg version : string) (depth : nat) (st : State) : option Completion :=
  let st := recordInstall pkg version st in
  match forDeps call (declaredDeps pkg st) st with
  | Some st' =>
      Some (Returned (if Nat.eqb depth 0 then emit (Log (Installed pkg version)) st'
                      else st'))
  | None => None
  end.

(** A cache file read back by [tar.x({ file })]: a partial file is a bad
    archive. *)
Definition fromFile (file : Body) : Body :=
  match file with
  | Interrupted => Corrupt
  | b => b
  end.

(** Lines 228-260 and 264-289: extract a body into node_modules/pkg, then
    finish. *)
Definition extractAndFinish (call : string -> State -> option State)
    (pkg version : string) (body : Body) (depth : nat) (st : State)
    : option Completion :=
  match makeDirs pkg st with
  | Thrown e st' => Some (Thrown e st')
  | Returned st1 =>
      let st2 := emit (Extract pkg version) st1 in
      match body with
      | Archive content =>
          let d := match nodeModules st2 with Some d => d | None => [] end in
          finishInstall call pkg version depth
            (setNodeModules (Some (Fs.extractInto pkg content d)) st2)
      | Corrupt => Some (Thrown TarError st2)
      | Interrupted => Some (Thrown StreamError st2)
      end
  end.

(** Lines 176-289: the body of the [try] block. *)
Definition tryBody (call : string -> State -> option State) (w : World)
    (pkg : string) (range : option string) (depth : nat) (st : State)
    : option Completion :=
  let st := emit (FetchMeta pkg) st in
  match registry w pkg with
  | Unreachable => Some (Thrown NetworkError st)
  | NotOk => Some (Returned (emit (LogError (NotInRegistry pkg)) st))
  | Ok meta =>
      match resolveVersion (collate w) meta range with
      | NoVersion all =>
          Some (Returned (emit (LogError (NoVersionFound pkg (Js.str range) (firstn 5 all))) st))
      | Picked version =>
          match get version (versions meta) with
          | None => Some (Thrown TypeError st)
          | Some tarballUrl =>
              match cachedFile w st pkg version with
              | Some file => extractAndFinish call pkg version (fromFile file) depth st
              | None =>
                  let st := emit (FetchTarball tarballUrl) st in
                  match tarballs w tarballUrl with
                  | Unreachable => Some (Thrown NetworkError st)
                  | NotOk => Some (Returned (emit (LogError (TarballFailed pkg version)) st))
                  | Ok body =>
                      match cacheDir w, cacheFiles st with
                      | Some _, Some files =>
                          let st :=
                            setCacheFiles (Some (set (tarballName pkg version) body files)) st in
                          match body with
                          | Interrupted => Some (Thrown StreamError st)
                          | _ => extractAndFinish call pkg version body depth st
                          end
                      | Some _, None => Some (Thrown ENOENT st)
                      | None, _ => extractAndFinish call pkg version body depth st
                      end
                  end
              end
          end
      end
  end.

(** Lines 290-293: the [catch] clause. *)
Definition catchAll (pkg : string) (c : option Completion) : option State :=
  match c with
  | Some (Returned st) => Some st
  | Some (Thrown e st) => Some (emit (LogError (InstallFailed pkg e)) st)
  | None => None
  end.

(** Line 168: [lock.dependencies[pkg]] as a condition.  The lookup goes
    through the prototype chain: without an own entry it finds the members
    of [Object.prototype]. *)
Definition locked (pkg : string) (l : Dict string) : bool :=
  match get pkg l with
  | Some version => Js.truthy version
  | None => Js.inherited pkg
  end.

(** Lines 138-294 with the recursive call abstracted.  The message of line
    171 shows the own entry, or the text of the inherited member when there
    is none. *)
Definition installPackageBody (call : string -> nat -> State -> option State)
    (w : World) (pkgSpec : string) (depth : nat) (st : State) : option State :=
  let (pkg, range) := parseSpec pkgSpec in
  let st := ensureCacheDir w st in
  if locked pkg (lock st) then
    Some (if setHas pkg (installedSet st) then st
          else emit (Log (AlreadyInstalled pkg (get pkg (lock st))))
                    (setInstalledSet (setAdd pkg (installedSet st)) st))
  else catchAll pkg (tryBody (fun s => call s (S depth)) w pkg range depth st).

(** [installPackage(pkgSpec, lock, installedSet, depth)]; the fuel bounds the
    depth of the recursion and [None] means it ran out. *)
Fixpoint installPackage (fuel : nat) (w : World) (pkgSpec : string) (depth : nat)
    (st : State) {struct fuel} : option State :=
  match fuel with
  | O => None
  | S fuel' => installPackageBody (installPackage fuel' w) w pkgSpec depth st
  end.

(** ** Command actions *)

(** How an action leaves the process: it returns and the process ends with
    status 0 once idle, it calls [process.exit(code)], or its promise rejects
    with nobody listening, which ends a Node 18 process with status 1. *)
Inductive Outcome : Type :=
| Completed
| Exited (code : Z)
| Rejected (e : Exn).


(** [let lock = { dependencies: {} }; if (fs.existsSync(lockFile)) lock =
    JSON.parse(fs.readFileSync(lockFile))], up to the first use of
    [lock.dependencies]: a file that is not JSON throws at once, one without
    the member throws where the member is first read, written or
    enumerated. *)
Definition loadLock (st : State) : Exn + Dict string :=
  match lockFile st with
  | Absent => inr []
  | Malformed => inl SyntaxError
  | NoDependencies => inl TypeError
  | Present deps => inr deps
  end.

(** [fs.writeFileSync(lockFile, JSON.stringify(lock, null, 2))]. *)
Definition writeLock (st : State) : State :=
  emit (WriteLock (lock st)) (setLockFile (Present (lock st)) st).

(** Lines 58-64 and 90-94: drop the old directory and lock entry. *)
Definition removeOld (pkg : string) (st : State) : State :=
  let st := match nodeModules st with
            | Some d => setNodeModules (Some (Fs.rmSync pkg d)) st
            | None => st
            end in
  writeLock (setLock (del pkg (lock st)) st).

(** Lines 51-72: [ppm update <package>]. *)
Definition update_action (fuel : nat) (w : World) (pkg : string) (st : State)
    : option (Outcome * State) :=
  match loadLock st with
  | inl e => Some (Exited 1, emit (LogError (UpdateFailed e)) st)
  | inr deps =>
      let st := setInstalledSet [] (setLock deps st) in
      let st := if locked pkg (lock st) then removeOld pkg st else st in
      match installPackage fuel w pkg 0 st with
      | Some st' => Some (Exited 0, emit (Log (Updated pkg)) st')
      | None => None
      end
  end.

(** Lines 87-96: the loop of [ppm upgrade]. *)
Fixpoint upgradeLoop (fuel : nat) (w : World) (pkgs : list string) (st : State)
    : option State :=
  match pkgs with
  | [] => Some st
  | pkg :: rest =>
      match installPackage fuel w pkg 0 (removeOld pkg (setInstalledSet [] st)) with
      | Some st' => upgradeLoop fuel w rest st'
      | None => None
      end
  end.

(** Lines 77-103: [ppm upgrade]. *)
Definition upgrade_action (fuel : nat) (w : World) (st : State)
    : option (Outcome * State) :=
  match loadLock st with
  | inl e => Some (Exited 1, emit (LogError (UpgradeFailed e)) st)
  | inr deps =>
      let st := setLock deps st in
      match objectKeys deps with
      | [] => Some (Exited 0, emit (Log NothingToUpgrade) st)
      | pkgs =>
          match upgradeLoop fuel w pkgs st with
          | Some st' => Some (Exited 0, emit (Log AllUpgraded) st')
          | None => None
          end
      end
  end.

(** Lines 313-315: the loop of [ppm install] without an argument. *)
Fixpoint installLoop (fuel : nat) (w : World) (pkgs : Dict string) (st : State)
    : option State :=
  match pkgs with
  | [] => Some st
  | (dep, version) :: rest =>
      match installPackage fuel w (dep ++ "@" ++ version) 0 st with
      | Some st' => installLoop fuel w rest st'
      | None => None
      end
  end.

(** Lines 300-318: [ppm install [package]].  With a package named and a
    lock file without [dependencies], the member is first read at line 168,
    after the cache directory has been seen to. *)
Definition install_action (fuel : nat) (w : World) (pkg : option string) (st : State)
    : option (Outcome * State) :=
  match loadLock st with
  | inl e =>
      match lockFile st with
      | NoDependencies =>
          let st := setInstalledSet [] (setLock [] st) in
          Some (Rejected e, if Js.truthyOpt pkg then ensureCacheDir w st else st)
      | _ => Some (Rejected e, st)
      end
  | inr deps =>
      let st := setInstalledSet [] (setLock deps st) in
      if Js.truthyOpt pkg then
        match installPackage fuel w (Js.str pkg) 0 st with
        | Some st' => Some (Completed, st')
        | None => None
        end
      else
        match deps with
        | [] => Some (Completed, emit (Log NothingToInstall) st)
        | _ =>
            match installLoop fuel w deps st with
            | Some st' => Some (Completed, emit (Log AllInstalled) st')
            | None => None
            end
        end
  end.

(** Lines 347-353: the prune loop; returns the directory and the count. *)
Fixpoint pruneLoop (keep : list string) (installed : list string) (d : Dir)
    (pruned : nat) : Dir * nat :=
  match installed with
  | [] => (d, pruned)
  | dep :: rest =>
      if setHas dep keep then pruneLoop keep rest d pruned
      else pruneLoop keep rest (Fs.rmSync dep d) (S pruned)
  end.

(** Lines 325-366: [ppm uninstall <package>]. *)
Definition uninstall_action (pkg : string) (st : State) : Outcome * State :=
  let removed := Fs.existsSync pkg (nodeModules st) in
  let st := match nodeModules st with
            | Some d => if removed then setNodeModules (Some (Fs.rmSync pkg d)) st else st
            | None => st
            end in
  match loadLock st with
  | inl e => (Completed, emit (LogError (UninstallFailed e)) st)
  | inr deps =>
      let st := setLock deps st in
      let st := match lockFile st with
                | Absent => st
                | _ => writeLock (setLock (del pkg (lock st)) st)
                end in
      let st := match nodeModules st with
                | Some d =>
                    let (d', pruned) :=
                      pruneLoop (objectKeys (lock st)) (Fs.readdirSync d) d 0 in
                    let st := setNodeModules (Some d') st in
                    if (0 <? pruned)%nat then emit (Log (Pruned pruned)) st else st
                | None => st
                end in
      (Completed, emit (Log (if removed then Uninstalled pkg else NotInstalled pkg)) st)
  end.

(** ** Well-formed names and locks *)

(** A package name: not empty, and no ['@'] except as the first character of
    a scoped name. *)
Definition validName (n : string) : bool :=
  match n with
  | EmptyString => false
  | String c rest =>
      if Ascii.eqb c "@" then Js.truthy rest && negb (Js.contains "@" rest)
      else negb (Js.contains "@" n)
  end.

(** A lock as the tool writes it: names are package names, versions are not
    empty. *)
Definition validLock (l : Dict string) : Prop :=
  Forall (fun kv => validName (fst kv) = true /\ snd kv <> "") l.


(** ** What the claims count *)

(** [has(name, version)] of the content cache: the existence test of line
    204. *)
Definition has (w : World) (st : State) (pkg version : string) : bool :=
  match cachedFile w st pkg version with
  | Some _ => true
  | None => false
  end.

Definition isFetchOf (pkg : string) (e : Event) : bool :=
  match e with
  | FetchMeta p => String.eqb p pkg
  | _ => false
  end.

Definition isExtractOf (pkg : string) (e : Event) : bool :=
  match e with
  | Extract p _ => String.eqb p pkg
  | _ => false
  end.

Definition isLockWriteOf (pkg : string) (e : Event) : bool :=
  match e with
  | WriteLock deps => match get pkg deps with Some _ => true | None => false end
  | _ => false
  end.

(** Registry fetches and extractions of a package in a trace. *)
Definition fetches (pkg : string) (t : list Event) : nat :=
  length (filter (isFetchOf pkg) t).
Definition extracts (pkg : string) (t : list Event) : nat :=
  length (filter (isExtractOf pkg) t).

(** Console output only: no fetch, download, extraction or lock write. *)
Definition isLog (e : Event) : bool :=
  match e with
  | Log _ | LogError _ => true
  | _ => false
  end.



(** What a call may never undo, relative to a package [p] that the lock
    already holds: the session only grows, the cache directory stays, and
    [p] keeps its entry with no further fetch or extraction of [p]. *)
Definition Stable (p : string) (st st' : State) : Prop :=
  (forall x, setHas x (installedSet st) = true -> setHas x (installedSet st') = true) /\
  (cacheFiles st <> None -> cacheFiles st' <> None) /\
  (locked p (lock st) = true ->
   get p (lock st') = get p (lock st) /\
   fetches p (trace st') = fetches p (trace st) /\
   extracts p (trace st') = extracts p (trace st)).

(** How far a branch for [pkg] moved the counters: [nf] registry fetches and
    [ne] extractions of [pkg], none of any other package. *)
Definition Effects (pkg : string) (nf ne : nat) (st st' : State) : Prop :=
  (cacheFiles st <> None -> cacheFiles st' <> None) /\
  fetches pkg (trace st') = nf + fetches pkg (trace st) /\
  extracts pkg (trace st') = ne + extracts pkg (trace st) /\
  (forall p, p <> pkg ->
     fetches p (trace st') = fetches p (trace st) /\
     extracts p (trace st') = extracts p (trace st)).

(** A branch that gave up: lock, lock file and session are as before. *)
Definition GaveUp (pkg : string) (st st' : State) : Prop :=
  lock st' = lock st /\ installedSet st' = installedSet st /\
  lockFile st' = lockFile st /\
  exists ne, (ne <= 1)%nat /\ Effects pkg 1 ne st st'.

(** A branch that went through: [pkg] was fetched and extracted once and
    recorded at [version], then the declared dependencies were walked from
    there. *)
Definition WentThrough (call : string -> State -> option State) (pkg version : string)
    (depth : nat) (st st' : State) : Prop :=
  exists stB stC,
    lock stB = assign pkg version (lock st) /\
    installedSet stB = setAdd pkg (installedSet st) /\
    Effects pkg 1 1 st stB /\
    forDeps call (declaredDeps pkg stB) stB = Some stC /\
    st' = (if Nat.eqb depth 0 then emit (Log (Installed pkg version)) stC else stC).

(** The state after a download that went well, lines 209-225: both requests
    made, the body stored when caching is on. *)
Definition downloaded (w : World) (pkg version url : string) (body : Body)
    (st : State) : State :=
  let st := emit (FetchTarball url) (emit (FetchMeta pkg) st) in
  match cacheDir w, cacheFiles st with
  | Some _, Some files =>
      setCacheFiles (Some (set (tarballName pkg version) body files)) st
  | _, _ => st
  end.

(** The state after an archive was extracted into a top-level package
    directory, just before the version is recorded. *)
Definition extracted (pkg version : string) (content : PkgDir) (st : State) : State :=
  let d := match nodeModules st with Some d => d | None => [] end in
  let d := match get pkg d with Some _ => d | None => set pkg emptyDir d end in
  setNodeModules (Some (Fs.extractInto pkg content d))
    (emit (Extract pkg version) (setNodeModules (Some d) st)).

(** ** Sample data *)

(** Three versions, listed out of order, with the latest tag on the oldest. *)
Definition metaLatestOld : Meta :=
  mkMeta "1.0.0" [("2.0.0", "u2"); ("1.0.0", "u0"); ("1.2.0", "u1")].

(** A registry with the cycle a -> b -> a, a package whose download breaks
    off, and an application that depends on an unknown package, on the
    broken one and on b; [cache] is the cacheDirectory setting of ppm.json. *)
Definition sampleRegistry (pkg : string) : Response Meta :=
  if String.eqb pkg "a" then Ok (mkMeta "1.0.0" [("1.0.0", "https://r/a-1.0.0.tgz")])
  else if String.eqb pkg "b" then Ok (mkMeta "2.1.0" [("2.1.0", "https://r/b-2.1.0.tgz")])
  else if String.eqb pkg "flaky" then Ok (mkMeta "0.3.0" [("0.3.0", "https://r/flaky-0.3.0.tgz")])
  else if String.eqb pkg "app" then Ok (mkMeta "1.0.0" [("1.0.0", "https://r/app-1.0.0.tgz")])
  else NotOk.

Definition sampleTarballs (url : string) : Response Body :=
  if String.eqb url "https://r/a-1.0.0.tgz"
  then Ok (Archive (mkDir (Some [("b", "^2")]) ["index.js"]))
  else if String.eqb url "https://r/b-2.1.0.tgz"
  then Ok (Archive (mkDir (Some [("a", "^1")]) ["index.js"]))
  else if String.eqb url "https://r/flaky-0.3.0.tgz" then Ok Interrupted
  else if String.eqb url "https://r/app-1.0.0.tgz"
  then Ok (Archive (mkDir (Some [("ghost", "^1"); ("flaky", "0.3.0"); ("b", "^2")]) []))
  else NotOk.

Definition sampleWorld (cache : option string) : World :=
  mkWorld sampleRegistry sampleTarballs cache String.compare.

(** A fresh project: no lock file, no node_modules, no cache directory. *)
Definition freshState : State := mkState [] [] Absent None None [].

(** A fresh project whose cache directory is in place, and empty. *)
Definition freshWithCache : State := mkState [] [] Absent None (Some []) [].

(** The same project after [installPackage("a")] without a cache, as
    computed by the model. *)
Definition afterA : State :=
  match installPackage 2 (sampleWorld None) "a" 0 freshState with
  | Some st => st
  | None => freshState
  end.

(** A project whose lock file names a package the registry does not have. *)
Definition ghostLocked : State :=
  mkState [] [] (Present [("ghost", "1.0.0")]) (Some [("ghost", emptyDir)]) None [].

(** A project whose lock names a package without a version. *)
Definition emptyVersionLocked : State :=
  mkState [("a", "")] [] (Present [("a", "")]) (Some [("a", emptyDir)]) None [].


(** A project with two locked packages, a scoped one among them. *)
Definition lockedProject : State :=
  mkState [] [] (Present [("a", "1.0.0"); ("@s/p", "2.0.0")])
          (Some [("a", emptyDir); ("@s", emptyDir); ("@s/p", emptyDir)]) None [].

(** ** The project configuration and the list command *)

(** [customSettings] of ppm.json. *)
Record Settings : Type := mkSettings {
  cacheDirectorySetting : option string
}.

(** ppm.json on disk: missing, not JSON, or an object with or without
    [customSettings]. *)
Inductive PpmJson : Type :=
| NoConfig
| BadConfig
| GoodConfig (customSettings : option Settings).

(** [getPPMConfig()], lines 2-12: the [customSettings] of the object it
    returns, and whether it reported a parse failure on the way. *)
Definition getPPMConfig (f : PpmJson) : option Settings * bool :=
  match f with
  | NoConfig => (None, false)
  | BadConfig => (None, true)
  | GoodConfig cs => (cs, false)
  end.

(** The world a project with this ppm.json lives in: line 161 reads
    [ppmConfig.customSettings && ppmConfig.customSettings.cacheDirectory]. *)
Definition worldOf (f : PpmJson) (reg : string -> Response Meta)
    (tar : string -> Response Body) (host : string -> string -> comparison) : World :=
  mkWorld reg tar
    (match fst (getPPMConfig f) with
     | Some cs => cacheDirectorySetting cs
     | None => None
     end)
    host.

(** What [ppm list] prints. *)
Inductive ListLine : Type :=
| NoPackagesInstalled
| InstalledPackages
| ListEntry (pkg version : string).

(** Lines 372-388: [ppm list].  The action has no [try]: a lock file that
    does not parse throws out of it. *)
Definition list_action (st : State) : Exn + list ListLine :=
  match lockFile st with
  | Absent => inr [NoPackagesInstalled]
  | Malformed => inl SyntaxError
  | NoDependencies => inr [NoPackagesInstalled]
  | Present deps =>
      match objectKeys deps with
      | [] => inr [NoPackagesInstalled]
      | _ => inr (InstalledPackages :: map (fun kv => ListEntry (fst kv) (snd kv)) deps)
      end
  end.

(** ** Invariants and measures *)

(** prisma.lock mirrors the lock object, or neither holds anything yet. *)
Definition Synced (st : State) : Prop :=
  lockFile st = Present (lock st) \/ (lockFile st = Absent /\ lock st = []).

(** Every name in the lock has its directory under node_modules. *)
Definition LockBacked (st : State) : Prop :=
  forall k v, get k (lock st) = Some v -> Fs.existsSync k (nodeModules st) = true.





(** Completion summaries in a trace. *)
Definition isSummary (e : Event) : bool :=
  match e with
  | Log (Installed _ _) => true
  | _ => false
  end.
Definition summaries (t : list Event) : nat := length (filter isSummary t).

(** Tarball downloads in a trace. *)
Definition isDownload (e : Event) : bool :=
  match e with
  | FetchTarball _ => true
  | _ => false
  end.

(** The names of a list that the lock does not hold yet. *)
Definition unlocked (names : list string) (st : State) : list string :=
  filter (fun p => negb (locked p (lock st))) names.

(** Whether the prune loop over [listed] with the keep set [keep] leaves the
    entry [k] alone. *)
Definition survives (keep listed : list string) (k : string) : bool :=
  forallb (fun t => setHas t keep || negb (String.eqb k t || String.prefix (t ++ "/") k))
          listed.

(** [a] ranks no higher than [b] among dotted decimals: component by
    component as numbers, a proper prefix first. *)
Definition versionLe (a b : string) : Prop := Js.compareDotted a b <> Gt.

(** The sample project after [installPackage("a")] with the cache on. *)
Definition afterACached : State :=
  match installPackage 2 (sampleWorld (Some ".ppm-cache")) "a" 0 freshState with
  | Some st => st
  | None => freshState
  end.

(** And after a further, failing [installPackage("flaky")]. *)
Definition afterFlaky : State :=
  match installPackage 1 (sampleWorld (Some ".ppm-cache")) "flaky" 0 afterACached with
  | Some st => st
  | None => afterACached
  end.

(** The fresh project after [installPackage("a")] called as a dependency,
    at depth 1. *)
Definition afterANested : State :=
  match installPackage 2 (sampleWorld None) "a" 1 freshState with
  | Some st => st
  | None => freshState
  end.

(** A registry with one package that declares no dependencies. *)
Definition leafWorld (cache : option string) : World :=
  mkWorld
    (fun pkg => if String.eqb pkg "leaf"
                then Ok (mkMeta "1.4.0" [("1.4.0", "https://r/leaf-1.4.0.tgz")])
                else NotOk)
    (fun url => if String.eqb url "https://r/leaf-1.4.0.tgz"
                then Ok (Archive (mkDir (Some []) ["index.js"]))
                else NotOk)
    cache String.compare.

(** The fresh project after [ppm install leaf] with the cache on. *)
Definition afterLeaf : State :=
  match install_action 1 (leafWorld (Some ".ppm-cache")) (Some "leaf") freshState with
  | Some (_, st) => st
  | None => freshState
  end.

(** And after [ppm uninstall leaf] on top of that: the archive is still in
    the cache. *)
Definition afterLeafRemoved : State := snd (uninstall_action "leaf" afterLeaf).

(** * Specifier parsing *)

Lemma split_no_sep (c : ascii) (s : string) :
  Js.contains c s = false -> Js.split c s = [s].
Proof.
  induction s as [|d s IH]; simpl; [reflexivity|].
  intros H. apply orb_false_iff in H as [Hd Hs].
  rewrite Hd, (IH Hs). reflexivity.
Qed.

Lemma split_app_sep (c : ascii) (name r : string) :
  Js.contains c name = false ->
  Js.split c (name ++ String c r) = name :: Js.split c r.
Proof.
  induction name as [|d n IH]; simpl.
  - intros _. rewrite Ascii.eqb_refl. reflexivity.
  - intros H. apply orb_false_iff in H as [Hd Hn].
    rewrite Hd, (IH Hn). reflexivity.
Qed.

Lemma split_hd (c : ascii) (s : string) :
  exists h t, Js.split c s = h :: t.
Proof.
  destruct s as [|d s]; simpl; [eauto|].
  destruct (Ascii.eqb d c); [eauto|].
  destruct (Js.split c s); eauto.
Qed.

(** An unscoped [name@range] parses into its two halves. *)
Lemma parseSpec_plain (name range : string) :
  name <> "" -> Js.contains "@" name = false -> Js.contains "@" range = false ->
  parseSpec (name ++ "@" ++ range) = (name, Some range).
Proof.
  intros Hne Hn Hr. unfold parseSpec.
  change ("@" ++ range) with (String "@" range).
  rewrite (split_app_sep _ _ _ Hn), (split_no_sep _ _ Hr). simpl.
  destruct (String.eqb_spec name ""); [contradiction|reflexivity].
Qed.

(** So for unscoped names parsing and re-joining give the specifier back. *)
Lemma joinSpec_parseSpec_plain (name range : string) :
  name <> "" -> Js.contains "@" name = false -> Js.contains "@" range = false ->
  joinSpec (parseSpec (name ++ "@" ++ range)) = name ++ "@" ++ range.
Proof. intros H1 H2 H3. rewrite parseSpec_plain by assumption. reflexivity. Qed.

(** A scoped [@scope/pkg@range] keeps the name and forgets the range. *)
Lemma parseSpec_scoped (rest range : string) :
  rest <> "" -> Js.contains "@" rest = false ->
  parseSpec ("@" ++ rest ++ "@" ++ range) = ("@" ++ rest, None).
Proof.
  intros Hne Hn. unfold parseSpec.
  change ("@" ++ rest ++ "@" ++ range) with (String "@" (rest ++ String "@" range)).
  cbn [Js.split]. rewrite Ascii.eqb_refl, (split_app_sep _ _ _ Hn).
  cbn. unfold Js.truthy.
  destruct (String.eqb_spec rest ""); [contradiction|reflexivity].
Qed.

(** Whatever follows the separator, a valid name is what the parser names. *)
Lemma parseSpec_name (n v : string) :
  validName n = true -> fst (parseSpec (n ++ "@" ++ v)) = n.
Proof.
  destruct n as [|c rest]; [discriminate|]. cbn [validName].
  destruct (Ascii.eqb_spec c "@") as [->|Hc].
  - intros H. apply andb_true_iff in H as [Ht Hn].
    apply negb_true_iff in Hn.
    assert (rest <> "") by (intros ->; discriminate).
    change (String "@" rest ++ "@" ++ v) with ("@" ++ rest ++ "@" ++ v).
    rewrite parseSpec_scoped by assumption. reflexivity.
  - intros H. apply negb_true_iff in H. unfold parseSpec.
    change ("@" ++ v) with (String "@" v).
    rewrite (split_app_sep _ _ _ H). simpl. reflexivity.
Qed.

(** C1: on the scoped specifier of the claim the parser returns the name
    [@scope/pkg] but no range at all, so the version 1.0.0 is lost and the
    re-joined specifier differs from the input. *)
Theorem parseSpec_scoped_loses_range :
  parseSpec "@scope/pkg@1.0.0" = ("@scope/pkg", None) /\
  joinSpec (parseSpec "@scope/pkg@1.0.0") <> "@scope/pkg@1.0.0".
Proof. split; [reflexivity | discriminate]. Qed.

(** * Version resolution *)

Lemma perm3 (A : Type) (a b c : A) (l : list A) :
  Permutation l [a; b; c] ->
  l = [a; b; c] \/ l = [a; c; b] \/ l = [b; a; c] \/
  l = [b; c; a] \/ l = [c; a; b] \/ l = [c; b; a].
Proof.
  intros H. apply Permutation_sym in H.
  destruct l as [|x l]; [apply Permutation_length in H; discriminate|].
  assert (Hx : In x [a; b; c]) by (eapply Permutation_in; [apply Permutation_sym, H | left; reflexivity]).
  simpl in Hx. destruct Hx as [<-|[<-|[<-|[]]]].
  - apply Permutation_cons_inv in H.
    apply Permutation_length_2_inv in H as [->| ->]; auto.
  - assert (H' : Permutation (b :: [a; c]) (b :: l))
      by (etransitivity; [apply perm_swap | exact H]).
    apply Permutation_cons_inv in H'.
    apply Permutation_length_2_inv in H' as [->| ->]; auto 6.
  - assert (H' : Permutation (c :: [a; b]) (c :: l)).
    { etransitivity; [|exact H].
      etransitivity; [apply perm_swap|]. apply perm_skip, perm_swap. }
    apply Permutation_cons_inv in H'.
    apply Permutation_length_2_inv in H' as [->| ->]; auto 7.
Qed.

(** With no range, an empty one or "latest", the registry's tag decides. *)
Lemma resolveVersion_latest (host : string -> string -> comparison) (m : Meta)
    (range : option string) :
  range = None \/ range = Some "" \/ range = Some "latest" ->
  resolveVersion host m range = Picked (latest m).
Proof. intros [->|[->| ->]]; reflexivity. Qed.

(** The sort is numeric-aware: 1.10.0 ranks above 1.9.0, and [^1] gets it. *)
Example resolveVersion_numeric (host : string -> string -> comparison) :
  resolveVersion host (mkMeta "1.2.0" [("1.9.0", "u"); ("1.10.0", "v"); ("1.2.0", "w")])
                 (Some "^1") = Picked "1.10.0".
Proof. reflexivity. Qed.

(** A tilde range without a minor part matches no version at all: the
    prefix it asks for is [1.undefined.]. *)
Example resolveVersion_tilde_major_only (host : string -> string -> comparison) :
  resolveVersion host metaLatestOld (Some "~1") = NoVersion ["2.0.0"; "1.2.0"; "1.0.0"].
Proof. reflexivity. Qed.

(** C2: over the version keys 1.0.0, 1.2.0 and 2.0.0, in whatever order the
    registry lists them and on every host, [^1] resolves to 1.2.0 and [~1.0]
    to 1.0.0, while "latest" and an absent range resolve to the dist-tags
    entry, whatever it is and whatever higher keys exist. *)
Theorem resolveVersion_selects (host : string -> string -> comparison) (m : Meta) :
  Permutation (objectKeys (versions m)) ["1.0.0"; "1.2.0"; "2.0.0"] ->
  resolveVersion host m (Some "^1") = Picked "1.2.0" /\
  resolveVersion host m (Some "~1.0") = Picked "1.0.0" /\
  resolveVersion host m (Some "latest") = Picked (latest m) /\
  resolveVersion host m None = Picked (latest m).
Proof.
  intros H. unfold resolveVersion, allVersions.
  apply perm3 in H.
  destruct H as [H|[H|[H|[H|[H|H]]]]]; rewrite H; repeat split; reflexivity.
Qed.

Lemma resolveVersion_selects_witness :
  resolveVersion String.compare metaLatestOld (Some "^1") = Picked "1.2.0" /\
  resolveVersion String.compare metaLatestOld (Some "~1.0") = Picked "1.0.0" /\
  resolveVersion String.compare metaLatestOld (Some "latest") = Picked "1.0.0" /\
  resolveVersion String.compare metaLatestOld None = Picked "1.0.0".
Proof.
  apply (resolveVersion_selects String.compare metaLatestOld).
  unfold metaLatestOld, objectKeys. simpl.
  apply Permutation_sym.
  eapply perm_trans; [apply perm_skip, perm_swap | apply perm_swap].
Defined.

(** * Maps and sets *)

Lemma get_set_same (V : Type) (k : string) (v : V) (o : Dict V) :
  get k (set k v o) = Some v.
Proof.
  induction o as [|[k' v'] o IH]; simpl.
  - rewrite String.eqb_refl. reflexivity.
  - destruct (String.eqb k k') eqn:E; simpl; rewrite ?String.eqb_refl, ?E; auto.
Qed.

Lemma get_set_other (V : Type) (k k' : string) (v : V) (o : Dict V) :
  k <> k' -> get k (set k' v o) = get k o.
Proof.
  intros Hne. induction o as [|[k2 v2] o IH]; simpl.
  - destruct (String.eqb_spec k k'); [contradiction|reflexivity].
  - destruct (String.eqb_spec k' k2) as [->|Hk]; simpl.
    + destruct (String.eqb_spec k k2); [contradiction|reflexivity].
    + destruct (String.eqb k k2); auto.
Qed.

Lemma get_insertIndex_other (n : N) (k k' v : string) (o : Dict string) :
  k <> k' -> get k (insertIndex n k' v o) = get k o.
Proof.
  intros Hne. induction o as [|[k2 v2] o IH]; cbn [insertIndex get].
  - destruct (String.eqb_spec k k'); [contradiction|reflexivity].
  - destruct (Js.arrayIndex k2) as [n2|]; [destruct (n2 <? n)%N|]; cbn [get];
      try (destruct (String.eqb_spec k k'); [contradiction|reflexivity]).
    rewrite IH. reflexivity.
Qed.

Lemma get_insertIndex_same (n : N) (k v : string) (o : Dict string) :
  get k o = None -> get k (insertIndex n k v o) = Some v.
Proof.
  induction o as [|[k2 v2] o IH]; cbn [insertIndex get].
  - rewrite String.eqb_refl. reflexivity.
  - destruct (String.eqb k k2) eqn:E; [discriminate|]. intros H.
    destruct (Js.arrayIndex k2) as [n2|]; [destruct (n2 <? n)%N|]; cbn [get];
      rewrite ?String.eqb_refl, ?E; auto.
Qed.

Lemma In_insertIndex (n : N) (k v : string) (o : Dict string) (kv : string * string) :
  In kv (insertIndex n k v o) -> kv = (k, v) \/ In kv o.
Proof.
  induction o as [|[k2 v2] o IH]; cbn [insertIndex].
  - intros [<-|[]]. auto.
  - destruct (Js.arrayIndex k2) as [n2|]; [destruct (n2 <? n)%N|];
      try (intros [<-|H]; [left; reflexivity|right; exact H]).
    intros [<-|H]; [right; left; reflexivity|].
    destruct (IH H) as [->|H']; [left; reflexivity|right; right; exact H'].
Qed.

Lemma In_set (V : Type) (k : string) (v : V) (o : Dict V) (kv : string * V) :
  In kv (set k v o) -> kv = (k, v) \/ In kv o.
Proof.
  induction o as [|[k2 v2] o IH]; cbn [set].
  - intros [<-|[]]. auto.
  - destruct (String.eqb k k2).
    + intros [<-|H]; [left; reflexivity|right; right; exact H].
    + intros [<-|H]; [right; left; reflexivity|].
      destruct (IH H) as [->|H']; [left; reflexivity|right; right; exact H'].
Qed.

(** Assignment leaves the other properties alone. *)
Lemma get_assign_other (k k' v : string) (o : Dict string) :
  k <> k' -> get k (assign k' v o) = get k o.
Proof.
  intros Hne. unfold assign.
  destruct (get k' o); [apply get_set_other; exact Hne|].
  destruct (String.eqb k' "__proto__"); [reflexivity|].
  destruct (Js.arrayIndex k'); [apply get_insertIndex_other|apply get_set_other]; exact Hne.
Qed.

(** What an assignment can add to the entries. *)
Lemma In_assign (k v : string) (o : Dict string) (kv : string * string) :
  In kv (assign k v o) -> kv = (k, v) \/ In kv o.
Proof.
  unfold assign. destruct (get k o); [apply In_set|].
  destruct (String.eqb k "__proto__"); [auto|].
  destruct (Js.arrayIndex k); [apply In_insertIndex|apply In_set].
Qed.

(** Where the lock check lets a package through, the assignment of line 243
    gives it an own entry. *)
Lemma get_assign_same (k v : string) (o : Dict string) :
  locked k o = false -> get k (assign k v o) = Some v.
Proof.
  unfold locked, assign. destruct (get k o) eqn:G; [intros _; apply get_set_same|].
  intros H. destruct (String.eqb_spec k "__proto__") as [->|_];
    [vm_compute in H; discriminate|].
  destruct (Js.arrayIndex k); [apply get_insertIndex_same; exact G|apply get_set_same].
Qed.

Lemma mem_app_r (x : string) (s t : list string) :
  setHas x s = true -> setHas x (s ++ t)%list = true.
Proof. unfold setHas. rewrite existsb_app. intros ->. reflexivity. Qed.

Lemma mem_setAdd_same (x : string) (s : list string) :
  setHas x (setAdd x s) = true.
Proof.
  unfold setAdd. destruct (setHas x s) eqn:E; [exact E|].
  unfold setHas. rewrite existsb_app. simpl.
  rewrite String.eqb_refl, orb_true_r. reflexivity.
Qed.

Lemma mem_setAdd_mono (x y : string) (s : list string) :
  setHas y s = true -> setHas y (setAdd x s) = true.
Proof.
  unfold setAdd. destruct (setHas x s); [auto|apply mem_app_r].
Qed.

(** * What installPackage preserves *)

Lemma Stable_refl (p : string) (st : State) : Stable p st st.
Proof. unfold Stable. auto. Qed.

Lemma Stable_trans (p : string) (s1 s2 s3 : State) :
  Stable p s1 s2 -> Stable p s2 s3 -> Stable p s1 s3.
Proof.
  intros (A1 & B1 & C1) (A2 & B2 & C2). split; [auto|split; [auto|]].
  intros L. destruct (C1 L) as (G & F & E).
  assert (L2 : locked p (lock s2) = true) by (unfold locked in *; rewrite G; exact L).
  destruct (C2 L2) as (G' & F' & E'). repeat split; congruence.
Qed.

(** A state that differs only in fields the invariant does not read, or
    reads monotonically, is stable. *)
Lemma Stable_fields (p : string) (st st' : State) :
  (forall x, setHas x (installedSet st) = true -> setHas x (installedSet st') = true) ->
  (cacheFiles st <> None -> cacheFiles st' <> None) ->
  (locked p (lock st) = true -> get p (lock st') = get p (lock st)) ->
  fetches p (trace st') = fetches p (trace st) ->
  extracts p (trace st') = extracts p (trace st) ->
  Stable p st st'.
Proof. unfold Stable. auto. Qed.

Lemma forDeps_Stable (p : string) (call : string -> State -> option State) :
  (forall s st st', call s st = Some st' -> Stable p st st') ->
  forall deps st st', forDeps call deps st = Some st' -> Stable p st st'.
Proof.
  intros Hcall. induction deps as [|[dep r] rest IH]; simpl; intros st st' H.
  - injection H as <-. apply Stable_refl.
  - destruct (setHas dep (installedSet st)); [auto|].
    destruct (call _ st) as [st1|] eqn:E; [|discriminate].
    eapply Stable_trans; eauto.
Qed.

Lemma locked_neq (p q : string) (l : Dict string) :
  locked q l = false -> locked p l = true -> p <> q.
Proof. intros Hq Hp ->. congruence. Qed.


Lemma Effects_emit_other (pkg : string) (nf ne : nat) (st st' : State) (e : Event) :
  (forall p, isFetchOf p e = false) -> (forall p, isExtractOf p e = false) ->
  Effects pkg nf ne st st' -> Effects pkg nf ne st (emit e st').
Proof.
  intros Hf He (C & F & E & O). unfold Effects, fetches, extracts in *. simpl.
  rewrite !Hf, !He. split; [exact C|split; [exact F|split; [exact E|]]].
  intros q Hq. rewrite Hf, He. apply (O q Hq).
Qed.

Lemma fetches_cons_same (pkg : string) (t : list Event) :
  fetches pkg (FetchMeta pkg :: t) = S (fetches pkg t).
Proof. unfold fetches. simpl. rewrite String.eqb_refl. reflexivity. Qed.

Lemma extracts_cons_same (pkg v : string) (t : list Event) :
  extracts pkg (Extract pkg v :: t) = S (extracts pkg t).
Proof. unfold extracts. simpl. rewrite String.eqb_refl. reflexivity. Qed.

Lemma fetches_cons_neq (p q : string) (t : list Event) :
  p <> q -> fetches p (FetchMeta q :: t) = fetches p t.
Proof. intros H. unfold fetches. simpl. destruct (String.eqb_spec q p); congruence. Qed.

Lemma extracts_cons_neq (p q v : string) (t : list Event) :
  p <> q -> extracts p (Extract q v :: t) = extracts p t.
Proof. intros H. unfold extracts. simpl. destruct (String.eqb_spec q p); congruence. Qed.

Lemma makeDirs_fields (pkg : string) (st : State) :
  let st' := stateOf (makeDirs pkg st) in
  lock st' = lock st /\ installedSet st' = installedSet st /\
  lockFile st' = lockFile st /\ cacheFiles st' = cacheFiles st /\
  trace st' = trace st.
Proof.
  unfold makeDirs.
  destruct (get pkg _); [simpl; auto|].
  destruct (Fs.mkdirSync pkg _); simpl; auto.
Qed.

(** The outcome of an extraction step, from the state just before it. *)
Lemma extractAndFinish_cases (call : string -> State -> option State)
    (pkg version : string) (body : Body) (depth : nat) (st : State) (c : Completion) :
  extractAndFinish call pkg version body depth st = Some c ->
  (lock (stateOf c) = lock st /\ installedSet (stateOf c) = installedSet st /\
   lockFile (stateOf c) = lockFile st /\
   exists ne, (ne <= 1)%nat /\ Effects pkg 0 ne st (stateOf c)) \/
  (exists stB stC,
     lock stB = assign pkg version (lock st) /\
     installedSet stB = setAdd pkg (installedSet st) /\
     Effects pkg 0 1 st stB /\
     forDeps call (declaredDeps pkg stB) stB = Some stC /\
     c = Returned (if Nat.eqb depth 0 then emit (Log (Installed pkg version)) stC else stC)).
Proof.
  unfold extractAndFinish.
  pose proof (makeDirs_fields pkg st) as M. cbv zeta in M.
  destruct (makeDirs pkg st) as [st1|e st1]; simpl in M;
    destruct M as (ML & MI & MF & MC & MT).
  2:{ intros H. injection H as <-. left. simpl.
      do 3 (split; [assumption|]). exists 0. split; [lia|]. unfold Effects. rewrite MC, MT. auto. }
  assert (Fail : forall e,
    lock (stateOf (Thrown e (emit (Extract pkg version) st1))) = lock st /\
    installedSet (stateOf (Thrown e (emit (Extract pkg version) st1))) = installedSet st /\
    lockFile (stateOf (Thrown e (emit (Extract pkg version) st1))) = lockFile st /\
    exists ne, (ne <= 1)%nat /\
      Effects pkg 0 ne st (stateOf (Thrown e (emit (Extract pkg version) st1)))).
  { intros e. simpl. do 3 (split; [assumption|]). exists 1. split; [lia|].
    unfold Effects. simpl. rewrite MC, MT, extracts_cons_same.
    do 3 (split; [auto|]).
    intros p Hp. rewrite extracts_cons_neq by assumption. auto. }
  destruct body as [content| |].
  - unfold finishInstall.
    match goal with |- context [forDeps call ?d ?s] => set (stB := s) end.
    destruct (forDeps call _ stB) as [stC|] eqn:E; [|discriminate].
    intros H. injection H as <-. right. exists stB, stC.
    subst stB. simpl. rewrite ML, MI. do 2 (split; [reflexivity|]).
    split; [|split; [exact E|reflexivity]].
    unfold Effects, recordInstall. simpl. rewrite MC, MT.
    split; [auto|]. split; [reflexivity|]. split; [apply extracts_cons_same|].
    intros p Hp. split; [reflexivity|]. apply extracts_cons_neq. exact Hp.
  - intros H. injection H as <-. left. apply Fail.
  - intros H. injection H as <-. left. apply Fail.
Qed.

Lemma Effects_trans (pkg : string) (a b c d : nat) (s1 s2 s3 : State) :
  Effects pkg a b s1 s2 -> Effects pkg c d s2 s3 -> Effects pkg (a + c) (b + d) s1 s3.
Proof.
  intros (C1 & F1 & E1 & O1) (C2 & F2 & E2 & O2).
  split; [auto|]. split; [lia|]. split; [lia|].
  intros p Hp. destruct (O1 p Hp), (O2 p Hp). split; congruence.
Qed.

Lemma Effects_fetch (pkg : string) (st : State) :
  Effects pkg 1 0 st (emit (FetchMeta pkg) st).
Proof.
  unfold Effects. simpl. split; [auto|]. split; [apply fetches_cons_same|].
  split; [reflexivity|]. intros p Hp. split; [|reflexivity].
  apply fetches_cons_neq. exact Hp.
Qed.

Lemma extraction_lifts (call : string -> State -> option State)
    (pkg version : string) (body : Body) (depth : nat) (st s : State) (c : Completion) :
  lock s = lock st -> installedSet s = installedSet st -> lockFile s = lockFile st ->
  Effects pkg 1 0 st s ->
  extractAndFinish call pkg version body depth s = Some c ->
  GaveUp pkg st (stateOf c) \/
  (WentThrough call pkg version depth st (stateOf c) /\ c = Returned (stateOf c)).
Proof.
  intros HL HI HF HE H.
  apply extractAndFinish_cases in H
    as [(L & I & F & ne & Hne & E)|(stB & stC & L & I & E & D & ->)].
  - left. unfold GaveUp. rewrite L, I, F. do 3 (split; [assumption|]).
    exists ne. split; [exact Hne|]. apply (Effects_trans pkg 1 0 0 ne st s _ HE E).
  - right. split; [|reflexivity]. exists stB, stC. rewrite L, I, HL, HI.
    do 2 (split; [reflexivity|]). split; [|split; [exact D|reflexivity]].
    apply (Effects_trans pkg 1 0 0 1 st s _ HE E).
Qed.

(** Every way out of the [try] block either gave up or went through. *)
Lemma tryBody_cases (call : string -> State -> option State) (w : World)
    (pkg : string) (range : option string) (depth : nat) (st : State) (c : Completion) :
  tryBody call w pkg range depth st = Some c ->
  GaveUp pkg st (stateOf c) \/
  (exists m version,
     registry w pkg = Ok m /\ resolveVersion (collate w) m range = Picked version /\
     WentThrough call pkg version depth st (stateOf c) /\ c = Returned (stateOf c)).
Proof.
  unfold tryBody.
  assert (Quit : forall s, lock s = lock st -> installedSet s = installedSet st ->
            lockFile s = lockFile st -> Effects pkg 1 0 st s -> GaveUp pkg st s).
  { intros s L I F E. unfold GaveUp. do 3 (split; [assumption|]).
    exists 0. split; [lia|exact E]. }
  pose proof (Effects_fetch pkg st) as E0.
  assert (E1 : forall e, isLog e = true ->
            Effects pkg 1 0 st (emit e (emit (FetchMeta pkg) st))).
  { intros e He. apply Effects_emit_other; [| |exact E0];
      intros p; destruct e; simpl in *; congruence. }
  assert (E2 : forall url, Effects pkg 1 0 st (emit (FetchTarball url) (emit (FetchMeta pkg) st))).
  { intros url. apply Effects_emit_other; [| |exact E0]; reflexivity. }
  assert (Lift : forall m version body s,
            registry w pkg = Ok m -> resolveVersion (collate w) m range = Picked version ->
            lock s = lock st -> installedSet s = installedSet st ->
            lockFile s = lockFile st -> Effects pkg 1 0 st s ->
            extractAndFinish call pkg version body depth s = Some c ->
            GaveUp pkg st (stateOf c) \/
            (exists m version,
               registry w pkg = Ok m /\ resolveVersion (collate w) m range = Picked version /\
               WentThrough call pkg version depth st (stateOf c) /\
               c = Returned (stateOf c))).
  { intros m version body s Hm Hv L I F E H.
    destruct (extraction_lifts call pkg version body depth st s c L I F E H) as [G|[W R]];
      [left; exact G|right; exists m, version; auto]. }
  destruct (registry w pkg) as [| |meta] eqn:Hreg.
  - intros H. injection H as <-. left. apply Quit; auto.
  - intros H. injection H as <-. left. apply Quit; auto.
  - destruct (resolveVersion (collate w) meta range) as [version|all] eqn:Hres.
    2:{ intros H. injection H as <-. left. apply Quit; auto. }
    destruct (get version (versions meta)) as [url|].
    2:{ intros H. injection H as <-. left. apply Quit; auto. }
    destruct (cachedFile w _ pkg version) as [file|].
    { apply (Lift meta version); auto. }
    destruct (tarballs w url) as [| |body].
    + intros H. injection H as <-. left. apply Quit; auto.
    + intros H. injection H as <-. left. apply Quit; auto.
    + destruct (cacheDir w) as [dir|].
      * simpl. destruct (cacheFiles st) as [files|].
        2:{ intros H. injection H as <-. left. apply Quit; auto. }
        assert (E3 : Effects pkg 1 0 st
                  (setCacheFiles (Some (set (tarballName pkg version) body files))
                     (emit (FetchTarball url) (emit (FetchMeta pkg) st)))).
        { destruct (E2 url) as (C & F & E & O). unfold Effects. simpl.
          split; [discriminate|]. auto. }
        destruct body; try (apply (Lift meta version); auto).
        intros H. injection H as <-. left. apply Quit; auto.
      * apply (Lift meta version); auto.
Qed.

Lemma GaveUp_logged (pkg : string) (st st' : State) (m : Message) :
  GaveUp pkg st st' -> GaveUp pkg st (emit (LogError m) st').
Proof.
  intros (L & I & F & ne & Hne & E). unfold GaveUp. simpl.
  do 3 (split; [assumption|]). exists ne. split; [exact Hne|].
  apply Effects_emit_other; auto.
Qed.

(** The [try] block with its [catch]: the call returns either way. *)
Lemma catchAll_cases (call : string -> State -> option State) (w : World)
    (pkg : string) (range : option string) (depth : nat) (st st' : State) :
  catchAll pkg (tryBody call w pkg range depth st) = Some st' ->
  GaveUp pkg st st' \/
  (exists m version,
     registry w pkg = Ok m /\ resolveVersion (collate w) m range = Picked version /\
     WentThrough call pkg version depth st st').
Proof.
  destruct (tryBody call w pkg range depth st) as [c|] eqn:T; [|discriminate].
  apply tryBody_cases in T as [G|(m & version & Hm & Hv & W & E)].
  - destruct c as [s|e s]; simpl in *; intros H; injection H as <-.
    + left. exact G.
    + left. apply GaveUp_logged. exact G.
  - rewrite E. simpl. intros H. injection H as <-. right. exists m, version. auto.
Qed.

Lemma Effects_Stable (p pkg : string) (nf ne : nat) (st st' : State) :
  (forall x, setHas x (installedSet st) = true -> setHas x (installedSet st') = true) ->
  (locked p (lock st) = true -> p <> pkg /\ get p (lock st') = get p (lock st)) ->
  Effects pkg nf ne st st' -> Stable p st st'.
Proof.
  intros HI HL (C & F & E & O). split; [exact HI|]. split; [exact C|].
  intros L. destruct (HL L) as [Hne G]. destruct (O p Hne). auto.
Qed.

Lemma GaveUp_Stable (p pkg : string) (st st' : State) :
  locked pkg (lock st) = false -> GaveUp pkg st st' -> Stable p st st'.
Proof.
  intros Hq (L & I & F & ne & Hne & E).
  apply (Effects_Stable p pkg 1 ne); [rewrite I; auto| |exact E].
  intros Hp. split; [eapply locked_neq; eauto|rewrite L; reflexivity].
Qed.

Lemma WentThrough_Stable (p pkg version : string)
    (call : string -> State -> option State) (depth : nat) (st st' : State) :
  (forall s st st', call s st = Some st' -> Stable p st st') ->
  locked pkg (lock st) = false -> WentThrough call pkg version depth st st' ->
  Stable p st st'.
Proof.
  intros Hcall Hq (stB & stC & L & I & E & D & ->).
  assert (S1 : Stable p st stB).
  { apply (Effects_Stable p pkg 1 1); [rewrite I; intros x; apply mem_setAdd_mono| |exact E].
    intros Hp. assert (Hne : p <> pkg) by (eapply locked_neq; eauto).
    split; [exact Hne|]. rewrite L. apply get_assign_other. exact Hne. }
  assert (S2 : Stable p stB stC) by (eapply forDeps_Stable; eauto).
  eapply Stable_trans; [exact S1|]. eapply Stable_trans; [exact S2|].
  destruct (Nat.eqb depth 0); [|apply Stable_refl].
  apply Stable_fields; simpl; auto.
Qed.

Lemma ensureCacheDir_Stable (p : string) (w : World) (st : State) :
  Stable p st (ensureCacheDir w st).
Proof.
  unfold ensureCacheDir. destruct (cacheDir w); [|apply Stable_refl].
  destruct (cacheFiles st) eqn:E; [apply Stable_refl|].
  apply Stable_fields; simpl; auto.
Qed.

Lemma ensureCacheDir_lock (w : World) (st : State) :
  lock (ensureCacheDir w st) = lock st /\
  installedSet (ensureCacheDir w st) = installedSet st /\
  lockFile (ensureCacheDir w st) = lockFile st /\
  nodeModules (ensureCacheDir w st) = nodeModules st /\
  trace (ensureCacheDir w st) = trace st.
Proof.
  unfold ensureCacheDir. destruct (cacheDir w); [|auto].
  destruct (cacheFiles st); simpl; auto.
Qed.

Lemma installPackageBody_Stable (p : string) (call : string -> nat -> State -> option State)
    (w : World) (spec : string) (depth : nat) (st st' : State) :
  (forall s d st st', call s d st = Some st' -> Stable p st st') ->
  installPackageBody call w spec depth st = Some st' -> Stable p st st'.
Proof.
  intros Hcall. unfold installPackageBody.
  destruct (parseSpec spec) as [pkg range].
  pose proof (ensureCacheDir_Stable p w st) as S0.
  destruct (locked pkg (lock (ensureCacheDir w st))) eqn:Lq.
  - intros H. injection H as <-. eapply Stable_trans; [exact S0|].
    destruct (setHas pkg _); [apply Stable_refl|].
    apply Stable_fields; simpl; auto. intros x. apply mem_setAdd_mono.
  - intros H. eapply Stable_trans; [exact S0|].
    apply catchAll_cases in H as [G|(m & version & _ & _ & W)].
    + eapply GaveUp_Stable; eauto.
    + eapply WentThrough_Stable; eauto. intros s a b. apply Hcall.
Qed.

(** Whatever a call does, it respects every package the lock already holds. *)
Lemma installPackage_Stable (p : string) (w : World) :
  forall fuel spec depth st st',
    installPackage fuel w spec depth st = Some st' -> Stable p st st'.
Proof.
  induction fuel as [|fuel IH]; simpl; [discriminate|].
  intros spec depth st st'. apply installPackageBody_Stable. exact IH.
Qed.

(** * The lock check *)

Lemma installPackage_S (fuel : nat) (w : World) (spec : string) (depth : nat) (st : State) :
  installPackage (S fuel) w spec depth st =
  installPackageBody (installPackage fuel w) w spec depth st.
Proof. reflexivity. Qed.

Lemma resolveVersion_truthy (host : string -> string -> comparison) (m : Meta)
    (range : option string) (v : string) :
  latest m <> "" -> resolveVersion host m range = Picked v -> v <> "".
Proof.
  intros Hl. unfold resolveVersion.
  destruct (_ && _); [|intros H; injection H as <-; exact Hl].
  destruct (Js.find _ _) as [found|]; [|discriminate].
  destruct (Js.truthy found) eqn:T; [|discriminate].
  intros H. injection H as <-. intros ->. discriminate.
Qed.

Lemma locked_get (pkg v : string) (l : Dict string) :
  get pkg l = Some v -> v <> "" -> locked pkg l = true.
Proof.
  intros G Hv. unfold locked. rewrite G. simpl. unfold Js.truthy.
  destruct (String.eqb_spec v ""); [contradiction|reflexivity].
Qed.

Lemma ensureCacheDir_idem (w : World) (st : State) :
  (cacheDir w <> None -> cacheFiles st <> None) -> ensureCacheDir w st = st.
Proof.
  unfold ensureCacheDir. destruct (cacheDir w); [|reflexivity].
  destruct (cacheFiles st); [reflexivity|]. intros H. exfalso. apply H; [discriminate|reflexivity].
Qed.

Lemma ensureCacheDir_some (w : World) (st : State) :
  cacheDir w <> None -> cacheFiles (ensureCacheDir w st) <> None.
Proof.
  unfold ensureCacheDir. destruct (cacheDir w); [|congruence].
  destruct (cacheFiles st) eqn:E; simpl; [rewrite E|]; discriminate.
Qed.

(** The call for a package the lock holds, lines 168-174. *)
Lemma installPackage_skip (fuel : nat) (w : World) (spec : string) (depth : nat)
    (st : State) (pkg : string) :
  fst (parseSpec spec) = pkg -> locked pkg (lock st) = true ->
  installPackage (S fuel) w spec depth st =
  Some (if setHas pkg (installedSet (ensureCacheDir w st)) then ensureCacheDir w st
        else emit (Log (AlreadyInstalled pkg (get pkg (lock (ensureCacheDir w st)))))
               (setInstalledSet (setAdd pkg (installedSet (ensureCacheDir w st)))
                  (ensureCacheDir w st))).
Proof.
  intros Hp Lk. rewrite installPackage_S. unfold installPackageBody.
  destruct (parseSpec spec) as [pkg' range]. simpl in Hp. subst pkg'.
  destruct (ensureCacheDir_lock w st) as (EL & _).
  rewrite EL, Lk. reflexivity.
Qed.

(** Skipping shows on the console at most. *)
Lemma installPackage_skip_quiet (fuel : nat) (w : World) (spec : string) (depth : nat)
    (st : State) (pkg : string) :
  fst (parseSpec spec) = pkg -> locked pkg (lock st) = true ->
  exists st' logs,
    installPackage (S fuel) w spec depth st = Some st' /\
    setHas pkg (installedSet st') = true /\
    lock st' = lock st /\ lockFile st' = lockFile st /\
    nodeModules st' = nodeModules st /\
    trace st' = (logs ++ trace st)%list /\ forallb isLog logs = true.
Proof.
  intros Hp Lk. rewrite (installPackage_skip fuel w spec depth st pkg Hp Lk).
  destruct (ensureCacheDir_lock w st) as (EL & EI & EF & EN & ET).
  destruct (setHas pkg (installedSet (ensureCacheDir w st))) eqn:M.
  - exists (ensureCacheDir w st), []. simpl. rewrite ET. auto 10.
  - eexists _, [_]. split; [reflexivity|]. simpl.
    rewrite mem_setAdd_same, ET. auto 10.
Qed.

(** C4, as the code has it: line 168 tests the entry for truth, so what is
    skipped is a package whose entry in the lock is a non-empty version.
    Then the call returns with the name in the session, the lock, the lock
    file and node_modules as they were, and nothing but console output in
    the trace, whatever range was asked for.  Hence when a first call in the
    session has installed the package, at a version the registry does not
    leave empty, a second call returns the very same state, and the two
    calls together fetched and extracted the package exactly once. *)
Theorem locked_package_is_skipped (fuel : nat) (w : World) (spec : string)
    (depth : nat) (st : State) (pkg v : string) :
  fst (parseSpec spec) = pkg ->
  get pkg (lock st) = Some v -> v <> "" ->
  (exists st' logs,
     installPackage (S fuel) w spec depth st = Some st' /\
     setHas pkg (installedSet st') = true /\
     lock st' = lock st /\ lockFile st' = lockFile st /\
     nodeModules st' = nodeModules st /\
     trace st' = (logs ++ trace st)%list /\ forallb isLog logs = true) /\
  (forall fuel0 spec0 depth0 st0,
     fst (parseSpec spec0) = pkg ->
     locked pkg (lock st0) = false ->
     (forall m, registry w pkg = Ok m -> latest m <> "") ->
     installPackage fuel0 w spec0 depth0 st0 = Some st ->
     installPackage (S fuel) w spec depth st = Some st /\
     fetches pkg (trace st) = 1 + fetches pkg (trace st0) /\
     extracts pkg (trace st) = 1 + extracts pkg (trace st0)).
Proof.
  intros Hp G Hv.
  pose proof (locked_get pkg v (lock st) G Hv) as Lk.
  destruct (ensureCacheDir_lock w st) as (EL & EI & EF & EN & ET).
  pose proof (installPackage_skip fuel w spec depth st pkg Hp Lk) as Run.
  split.
  - apply installPackage_skip_quiet; assumption.
  - intros fuel0 spec0 depth0 st0 Hp0 L0 Hreg First.
    destruct fuel0 as [|f0]; [discriminate|]. rewrite installPackage_S in First.
    unfold installPackageBody in First.
    destruct (parseSpec spec0) as [pkg0 range0]. simpl in Hp0. subst pkg0.
    destruct (ensureCacheDir_lock w st0) as (L1 & I1 & F1 & N1 & T1).
    rewrite L1, L0 in First.
    apply catchAll_cases in First as [(GL & _)|(m & version & Hm & Hres & W)].
    { exfalso. rewrite GL, L1 in Lk. congruence. }
    destruct W as (stB & stC & LB & IB & (CB & FB & XB & OB) & D & Est).
    assert (Hver : version <> "") by (eapply resolveVersion_truthy; eauto).
    assert (LkB : locked pkg (lock stB) = true).
    { apply (locked_get pkg version); [|exact Hver]. rewrite LB.
      apply get_assign_same. rewrite L1. exact L0. }
    assert (SB : Stable pkg stB stC).
    { eapply forDeps_Stable; [|exact D]. intros s a b. apply installPackage_Stable. }
    destruct SB as (SI & SC & SL). destruct (SL LkB) as (_ & SF & SX).
    assert (MB : setHas pkg (installedSet stC) = true).
    { apply SI. rewrite IB. apply mem_setAdd_same. }
    assert (CC : cacheDir w <> None -> cacheFiles stC <> None).
    { intros Hc. apply SC, CB, ensureCacheDir_some, Hc. }
    assert (Fields : installedSet st = installedSet stC /\ cacheFiles st = cacheFiles stC /\
                     fetches pkg (trace st) = fetches pkg (trace stC) /\
                     extracts pkg (trace st) = extracts pkg (trace stC)).
    { rewrite Est. destruct (Nat.eqb depth0 0); simpl; auto. }
    destruct Fields as (FI & FC & FF & FX).
    split.
    + rewrite Run, ensureCacheDir_idem by (rewrite FC; exact CC).
      rewrite FI, MB. reflexivity.
    + rewrite FF, FX, SF, SX, FB, XB, T1. auto.
Qed.

Lemma locked_package_is_skipped_witness :
  (exists st' logs,
     installPackage 1 (sampleWorld None) "a@^9" 3 afterA = Some st' /\
     setHas "a" (installedSet st') = true /\
     lock st' = lock afterA /\ lockFile st' = lockFile afterA /\
     nodeModules st' = nodeModules afterA /\
     trace st' = (logs ++ trace afterA)%list /\ forallb isLog logs = true) /\
  installPackage 1 (sampleWorld None) "a@^9" 3 afterA = Some afterA /\
  fetches "a" (trace afterA) = 1 /\ extracts "a" (trace afterA) = 1.
Proof.
  destruct (locked_package_is_skipped 0 (sampleWorld None) "a@^9" 3 afterA "a" "1.0.0")
    as [A B]; [vm_compute; reflexivity|vm_compute; reflexivity|discriminate|].
  split; [exact A|].
  apply (B 2 "a" 0 freshState);
    [vm_compute; reflexivity|vm_compute; reflexivity| |vm_compute; reflexivity].
  intros m H. vm_compute in H. injection H as <-. discriminate.
Defined.

(** C4 as the claim has it fails: the lock has an entry for a, with an
    empty version, and the call fetches, extracts and records a all the
    same. *)
Lemma empty_lock_entry_is_installed :
  get "a" (lock emptyVersionLocked) = Some "" /\
  exists st',
    installPackage 2 (sampleWorld None) "a" 0 emptyVersionLocked = Some st' /\
    fetches "a" (trace st') = 1 /\ extracts "a" (trace st') = 1 /\
    get "a" (lock st') = Some "1.0.0".
Proof.
  split; [reflexivity|]. eexists. split; [vm_compute; reflexivity|].
  split; [|split]; reflexivity.
Qed.

(** * What a failing branch leaves behind *)

Lemma cachedFile_ensure (w : World) (st : State) (pkg v : string) :
  cachedFile w (ensureCacheDir w st) pkg v = cachedFile w st pkg v.
Proof.
  unfold cachedFile, ensureCacheDir.
  destruct (cacheDir w); [|reflexivity].
  destruct (cacheFiles st) eqn:E; simpl; [rewrite E|]; reflexivity.
Qed.



(** A parent with an unknown and a broken dependency still gets the third
    one, and that one's own dependency. *)
Example partial_tree :
  option_map (fun st => (lock st, objectKeys (match nodeModules st with Some d => d | None => [] end)))
    (installPackage 3 (sampleWorld None) "app" 0 freshState)
  = Some ([("app", "1.0.0"); ("b", "2.1.0"); ("a", "1.0.0")], ["app"; "flaky"; "b"; "a"]).
Proof. vm_compute. reflexivity. Qed.

(** * A successful branch, step by step *)

Lemma recordInstall_fields (pkg version : string) (st : State) :
  lock (recordInstall pkg version st) = assign pkg version (lock st) /\
  installedSet (recordInstall pkg version st) = setAdd pkg (installedSet st) /\
  lockFile (recordInstall pkg version st) = Present (assign pkg version (lock st)) /\
  nodeModules (recordInstall pkg version st) = nodeModules st /\
  cacheFiles (recordInstall pkg version st) = cacheFiles st /\
  trace (recordInstall pkg version st) = WriteLock (assign pkg version (lock st)) :: trace st.
Proof. unfold recordInstall. simpl. auto 10. Qed.

Lemma downloaded_fields (w : World) (pkg version url : string) (body : Body) (st : State) :
  lock (downloaded w pkg version url body st) = lock st /\
  installedSet (downloaded w pkg version url body st) = installedSet st /\
  lockFile (downloaded w pkg version url body st) = lockFile st /\
  nodeModules (downloaded w pkg version url body st) = nodeModules st /\
  trace (downloaded w pkg version url body st) = FetchTarball url :: FetchMeta pkg :: trace st.
Proof.
  unfold downloaded. destruct (cacheDir w); simpl; [|auto].
  destruct (cacheFiles st); simpl; auto.
Qed.

Lemma extracted_fields (pkg version : string) (content : PkgDir) (st : State) :
  lock (extracted pkg version content st) = lock st /\
  installedSet (extracted pkg version content st) = installedSet st /\
  lockFile (extracted pkg version content st) = lockFile st /\
  cacheFiles (extracted pkg version content st) = cacheFiles st /\
  trace (extracted pkg version content st) = Extract pkg version :: trace st.
Proof. unfold extracted. simpl. auto 10. Qed.

Lemma extractInto_get (pkg : string) (content : PkgDir) (d : Dir) :
  exists dir, get pkg (Fs.extractInto pkg content d) = Some dir /\
    (forall ds, manifest content = Some ds -> manifest dir = Some ds).
Proof.
  unfold Fs.extractInto. destruct (get pkg d) as [old|];
    rewrite get_set_same; eexists; split; try reflexivity.
  - intros ds H. simpl. rewrite H. reflexivity.
  - auto.
Qed.

Lemma declaredDeps_extracted (pkg version : string) (content : PkgDir) (st : State)
    (ds : Dict string) :
  manifest content = Some ds ->
  declaredDeps pkg (recordInstall pkg version (extracted pkg version content st)) = ds.
Proof.
  intros H. unfold declaredDeps.
  destruct (recordInstall_fields pkg version (extracted pkg version content st))
    as (_ & _ & _ & -> & _).
  unfold extracted. cbn [nodeModules setNodeModules].
  match goal with
  | |- context [Fs.extractInto pkg content ?d] =>
      destruct (extractInto_get pkg content d) as (dir & -> & M)
  end.
  rewrite (M ds H). reflexivity.
Qed.

(** The extraction step on an archive, for a top-level name. *)
Lemma extractAndFinish_archive (call : string -> State -> option State)
    (pkg version : string) (content : PkgDir) (depth : nat) (st : State) :
  Fs.dirname pkg = None ->
  extractAndFinish call pkg version (Archive content) depth st =
  finishInstall call pkg version depth (extracted pkg version content st).
Proof.
  intros Hd. unfold extractAndFinish, makeDirs, Fs.mkdirSync, extracted. rewrite Hd.
  destruct (get pkg _); reflexivity.
Qed.

(** The [try] block when everything answers and the cache has no file yet. *)
Lemma tryBody_success (call : string -> State -> option State) (w : World)
    (pkg : string) (range : option string) (depth : nat) (st : State)
    (m : Meta) (v url : string) (content : PkgDir) :
  registry w pkg = Ok m -> resolveVersion (collate w) m range = Picked v ->
  get v (versions m) = Some url -> cachedFile w st pkg v = None ->
  tarballs w url = Ok (Archive content) -> Fs.dirname pkg = None ->
  (cacheDir w <> None -> cacheFiles st <> None) ->
  tryBody call w pkg range depth st =
  finishInstall call pkg v depth
    (extracted pkg v content (downloaded w pkg v url (Archive content) st)).
Proof.
  intros Hreg Hres Hurl Hc Ht Hd Hcache. unfold tryBody.
  rewrite Hreg, Hres, Hurl.
  change (cachedFile w (emit (FetchMeta pkg) st) pkg v) with (cachedFile w st pkg v).
  rewrite Hc, Ht. unfold downloaded.
  destruct (cacheDir w) as [dir|]; simpl.
  - destruct (cacheFiles st) as [files|]; [|exfalso; apply Hcache; [discriminate|reflexivity]].
    apply extractAndFinish_archive. exact Hd.
  - apply extractAndFinish_archive. exact Hd.
Qed.

Lemma downloaded_cache (w : World) (pkg version url : string) (body : Body) (st : State) :
  (cacheDir w <> None -> cacheFiles st <> None) ->
  cacheDir w <> None -> cacheFiles (downloaded w pkg version url body st) <> None.
Proof.
  intros H Hc. specialize (H Hc). unfold downloaded.
  destruct (cacheDir w); [|congruence]. simpl.
  destruct (cacheFiles st) eqn:E; simpl; congruence.
Qed.

Lemma cachedFile_downloaded (w : World) (p v u p' v' : string) (body : Body) (st : State) :
  tarballName p' v' <> tarballName p v ->
  cachedFile w (downloaded w p v u body st) p' v' = cachedFile w st p' v'.
Proof.
  intros Hne. unfold cachedFile, downloaded.
  destruct (cacheDir w); [|reflexivity]. simpl.
  destruct (cacheFiles st) eqn:E; simpl; [|rewrite E; reflexivity].
  apply get_set_other. exact Hne.
Qed.

Lemma cachedFile_cacheFiles (w : World) (s s' : State) (p v : string) :
  cacheFiles s = cacheFiles s' -> cachedFile w s p v = cachedFile w s' p v.
Proof. unfold cachedFile. intros ->. reflexivity. Qed.

(** * The cycle a -> b -> a *)

(** C5: with a depending on b and b on a, all requests answered and nothing
    in the lock, the session or the cache beforehand, [installPackage("a")]
    returns for every fuel of two or more, and the trace shows one registry
    fetch, one download, one extraction and one lock write for a, then the
    same for b, and nothing else. *)
Theorem circular_install_terminates (fuel : nat) (w : World) (st : State)
    (ma mb : Meta) (va vb ua ub ra rb : string) (ca cb : PkgDir) :
  lock st = [] -> installedSet st = [] ->
  registry w "a" = Ok ma -> resolveVersion (collate w) ma None = Picked va ->
  get va (versions ma) = Some ua -> tarballs w ua = Ok (Archive ca) ->
  manifest ca = Some [("b", rb)] ->
  registry w "b" = Ok mb ->
  resolveVersion (collate w) mb (snd (parseSpec ("b" ++ "@" ++ rb))) = Picked vb ->
  get vb (versions mb) = Some ub -> tarballs w ub = Ok (Archive cb) ->
  manifest cb = Some [("a", ra)] ->
  cachedFile w st "a" va = None -> cachedFile w st "b" vb = None ->
  exists st',
    installPackage (S (S fuel)) w "a" 0 st = Some st' /\
    lock st' = [("a", va); ("b", vb)] /\
    lockFile st' = Present [("a", va); ("b", vb)] /\
    installedSet st' = ["a"; "b"] /\
    Fs.existsSync "a" (nodeModules st') = true /\
    Fs.existsSync "b" (nodeModules st') = true /\
    trace st' =
      ([Log (Installed "a" va);
        WriteLock [("a", va); ("b", vb)]; Extract "b" vb; FetchTarball ub; FetchMeta "b";
        WriteLock [("a", va)]; Extract "a" va; FetchTarball ua; FetchMeta "a"]
       ++ trace st)%list.
Proof.
  intros HL HI Hra Hva Hua Hta Hca Hrb Hvb Hub Htb Hcb Hna Hnb.
  set (s0 := ensureCacheDir w st).
  destruct (ensureCacheDir_lock w st) as (L0 & I0 & F0 & N0 & T0). fold s0 in L0, I0, F0, N0, T0.
  assert (C0 : cacheDir w <> None -> cacheFiles s0 <> None) by apply ensureCacheDir_some.
  set (Da := downloaded w "a" va ua (Archive ca) s0).
  set (Pa := extracted "a" va ca Da).
  set (Ra := recordInstall "a" va Pa).
  set (Db := downloaded w "b" vb ub (Archive cb) Ra).
  set (Pb := extracted "b" vb cb Db).
  set (Rb := recordInstall "b" vb Pb).
  destruct (downloaded_fields w "a" va ua (Archive ca) s0) as (LDa & IDa & FDa & NDa & TDa).
  destruct (extracted_fields "a" va ca Da) as (LPa & IPa & FPa & CPa & TPa).
  destruct (recordInstall_fields "a" va Pa) as (LRa & IRa & FRa & NRa & CRa & TRa).
  destruct (downloaded_fields w "b" vb ub (Archive cb) Ra) as (LDb & IDb & FDb & NDb & TDb).
  destruct (extracted_fields "b" vb cb Db) as (LPb & IPb & FPb & CPb & TPb).
  destruct (recordInstall_fields "b" vb Pb) as (LRb & IRb & FRb & NRb & CRb & TRb).
  fold Da in LDa, IDa, FDa, NDa, TDa. fold Pa in LPa, IPa, FPa, CPa, TPa.
  fold Ra in LRa, IRa, FRa, NRa, CRa, TRa. fold Db in LDb, IDb, FDb, NDb, TDb.
  fold Pb in LPb, IPb, FPb, CPb, TPb. fold Rb in LRb, IRb, FRb, NRb, CRb, TRb.
  assert (LockRa : lock Ra = [("a", va)]) by (rewrite LRa, LPa, LDa, L0, HL; reflexivity).
  assert (SetRa : installedSet Ra = ["a"]) by (rewrite IRa, IPa, IDa, I0, HI; reflexivity).
  assert (LockRb : lock Rb = [("a", va); ("b", vb)])
    by (rewrite LRb, LPb, LDb, LockRa; reflexivity).
  assert (SetRb : installedSet Rb = ["a"; "b"])
    by (rewrite IRb, IPb, IDb, SetRa; reflexivity).
  assert (DepsRa : declaredDeps "a" Ra = [("b", rb)])
    by (apply declaredDeps_extracted; exact Hca).
  assert (DepsRb : declaredDeps "b" Rb = [("a", ra)])
    by (apply declaredDeps_extracted; exact Hcb).
  assert (CRa' : cacheDir w <> None -> cacheFiles Ra <> None).
  { rewrite CRa, CPa. apply downloaded_cache. exact C0. }
  assert (StepB : installPackage (S fuel) w ("b" ++ "@" ++ rb) 1 Ra = Some Rb).
  { rewrite installPackage_S. unfold installPackageBody.
    rewrite (surjective_pairing (parseSpec ("b" ++ "@" ++ rb))).
    rewrite (parseSpec_name "b" rb eq_refl).
    rewrite (ensureCacheDir_idem w Ra CRa'), LockRa.
    change (locked "b" [("a", va)]) with false. cbv iota.
    rewrite (tryBody_success _ w "b" _ 1 Ra mb vb ub cb); try assumption; try reflexivity.
    - unfold finishInstall. cbv zeta. fold Db Pb Rb.
      rewrite DepsRb. cbn [forDeps]. rewrite SetRb. reflexivity.
    - rewrite (cachedFile_cacheFiles w Ra Da) by (rewrite CRa, CPa; reflexivity).
      unfold Da. rewrite cachedFile_downloaded by discriminate.
      unfold s0. rewrite cachedFile_ensure. exact Hnb. }
  exists (emit (Log (Installed "a" va)) Rb).
  split.
  { rewrite installPackage_S. unfold installPackageBody.
    change (parseSpec "a") with ("a", @None string). cbv iota.
    fold s0. rewrite L0, HL. change (locked "a" []) with false. cbv iota.
    rewrite (tryBody_success _ w "a" None 0 s0 ma va ua ca); try assumption; try reflexivity.
    - unfold finishInstall. cbv zeta. fold Da Pa Ra.
      rewrite DepsRa. cbn [forDeps]. rewrite SetRa. change (setHas "b" ["a"]) with false. cbv iota.
      rewrite StepB. reflexivity.
    - unfold s0. rewrite cachedFile_ensure. exact Hna. }
  cbn [lock lockFile installedSet nodeModules trace emit].
  rewrite FRb, LPb, LDb, LockRa, LockRb, SetRb.
  do 3 (split; [reflexivity|]).
  assert (Ea : Fs.existsSync "a" (nodeModules Ra) = true).
  { rewrite NRa. unfold Pa, extracted. cbn [nodeModules setNodeModules].
    match goal with
    | |- context [Fs.extractInto "a" ca ?d] =>
        destruct (extractInto_get "a" ca d) as (dir & E & _)
    end.
    unfold Fs.existsSync. rewrite E. reflexivity. }
  split; [|split].
  - rewrite NRb. unfold Pb, extracted. cbn [nodeModules setNodeModules].
    rewrite NDb. unfold Fs.existsSync in *.
    destruct (nodeModules Ra) as [d|]; [|discriminate].
    unfold Fs.extractInto.
    destruct (get "b" d) eqn:Gb.
    + rewrite Gb, get_set_other by discriminate. exact Ea.
    + rewrite get_set_same, !get_set_other by discriminate. exact Ea.
  - rewrite NRb. unfold Pb, extracted. cbn [nodeModules setNodeModules].
    match goal with
    | |- context [Fs.extractInto "b" cb ?d] =>
        destruct (extractInto_get "b" cb d) as (dir & E & _)
    end.
    unfold Fs.existsSync. rewrite E. reflexivity.
  - rewrite TRb, TPb, TDb, TRa, TPa, TDa, T0, LPb, LDb, LockRa, LPa, LDa, L0, HL.
    reflexivity.
Qed.

Lemma circular_install_terminates_witness :
  exists st',
    installPackage 2 (sampleWorld (Some ".ppm-cache")) "a" 0 freshState = Some st' /\
    lock st' = [("a", "1.0.0"); ("b", "2.1.0")] /\
    lockFile st' = Present [("a", "1.0.0"); ("b", "2.1.0")] /\
    installedSet st' = ["a"; "b"] /\
    Fs.existsSync "a" (nodeModules st') = true /\
    Fs.existsSync "b" (nodeModules st') = true /\
    trace st' =
      ([Log (Installed "a" "1.0.0");
        WriteLock [("a", "1.0.0"); ("b", "2.1.0")]; Extract "b" "2.1.0";
        FetchTarball "https://r/b-2.1.0.tgz"; FetchMeta "b";
        WriteLock [("a", "1.0.0")]; Extract "a" "1.0.0";
        FetchTarball "https://r/a-1.0.0.tgz"; FetchMeta "a"]
       ++ trace freshState)%list.
Proof.
  apply (circular_install_terminates 0 (sampleWorld (Some ".ppm-cache")) freshState
           (mkMeta "1.0.0" [("1.0.0", "https://r/a-1.0.0.tgz")])
           (mkMeta "2.1.0" [("2.1.0", "https://r/b-2.1.0.tgz")])
           "1.0.0" "2.1.0" "https://r/a-1.0.0.tgz" "https://r/b-2.1.0.tgz" "^1" "^2"
           (mkDir (Some [("b", "^2")]) ["index.js"])
           (mkDir (Some [("a", "^1")]) ["index.js"]));
    vm_compute; reflexivity.
Defined.

(** * The content cache *)

(** C6, as the code has it: with the cache on, a download whose stream
    breaks off leaves the partial file in the cache directory, where the
    existence test takes it for an entry; the error is caught and logged and
    neither the lock nor node_modules changes. *)
Theorem interrupted_download_leaves_cache_file (fuel : nat) (w : World)
    (spec : string) (depth : nat) (st : State) (pkg : string) (range : option string)
    (m : Meta) (v url : string) :
  parseSpec spec = (pkg, range) -> locked pkg (lock st) = false ->
  cacheDir w <> None ->
  registry w pkg = Ok m -> resolveVersion (collate w) m range = Picked v ->
  get v (versions m) = Some url ->
  has w st pkg v = false -> tarballs w url = Ok Interrupted ->
  exists st',
    installPackage (S fuel) w spec depth st = Some st' /\
    cachedFile w st' pkg v = Some Interrupted /\ has w st' pkg v = true /\
    lock st' = lock st /\ lockFile st' = lockFile st /\
    nodeModules st' = nodeModules st /\
    trace st' = LogError (InstallFailed pkg StreamError) :: FetchTarball url ::
                FetchMeta pkg :: trace st.
Proof.
  intros Hp Hl Hc Hreg Hres Hurl Hhas Ht.
  destruct (ensureCacheDir_lock w st) as (EL & EI & EF & EN & ET).
  pose proof (ensureCacheDir_some w st Hc) as ES.
  assert (Hn : cachedFile w (ensureCacheDir w st) pkg v = None).
  { rewrite cachedFile_ensure. unfold has in Hhas.
    destruct (cachedFile w st pkg v); [discriminate|reflexivity]. }
  rewrite installPackage_S. unfold installPackageBody. rewrite Hp, EL, Hl.
  unfold tryBody. rewrite Hreg, Hres, Hurl.
  change (cachedFile w (emit (FetchMeta pkg) (ensureCacheDir w st)) pkg v)
    with (cachedFile w (ensureCacheDir w st) pkg v).
  rewrite Hn, Ht. unfold has, cachedFile.
  destruct (cacheDir w) as [dir|]; [|congruence]. simpl.
  destruct (cacheFiles (ensureCacheDir w st)) as [files|]; [|congruence].
  simpl. eexists. split; [reflexivity|]. simpl.
  rewrite get_set_same, EL, EF, EN, ET. auto 10.
Qed.

Lemma interrupted_download_leaves_cache_file_witness :
  exists st',
    installPackage 1 (sampleWorld (Some ".ppm-cache")) "flaky@0.3.0" 0 freshState = Some st' /\
    cachedFile (sampleWorld (Some ".ppm-cache")) st' "flaky" "0.3.0" = Some Interrupted /\
    has (sampleWorld (Some ".ppm-cache")) st' "flaky" "0.3.0" = true /\
    lock st' = lock freshState /\ lockFile st' = lockFile freshState /\
    nodeModules st' = nodeModules freshState /\
    trace st' = LogError (InstallFailed "flaky" StreamError) ::
                FetchTarball "https://r/flaky-0.3.0.tgz" ::
                FetchMeta "flaky" :: trace freshState.
Proof.
  apply (interrupted_download_leaves_cache_file 0 (sampleWorld (Some ".ppm-cache"))
           "flaky@0.3.0" 0 freshState "flaky" (Some "0.3.0")
           (mkMeta "0.3.0" [("0.3.0", "https://r/flaky-0.3.0.tgz")]) "0.3.0"
           "https://r/flaky-0.3.0.tgz");
    try (vm_compute; reflexivity).
  vm_compute. discriminate.
Defined.

(** C6 as the claim has it fails: after the broken download of the sample
    package the cache answers that it has the file. *)
Lemma partial_cache_file_is_a_hit :
  tarballs (sampleWorld (Some ".ppm-cache")) "https://r/flaky-0.3.0.tgz" = Ok Interrupted /\
  exists st',
    installPackage 1 (sampleWorld (Some ".ppm-cache")) "flaky" 0 freshState = Some st' /\
    has (sampleWorld (Some ".ppm-cache")) freshState "flaky" "0.3.0" = false /\
    has (sampleWorld (Some ".ppm-cache")) st' "flaky" "0.3.0" = true.
Proof.
  split; [reflexivity|]. eexists. split; [vm_compute; reflexivity|].
  split; reflexivity.
Qed.

(** * Uninstall *)

(** C7: with a and b in the lock file and directories for a, b and an
    orphan c, uninstalling a removes a's directory and lock entry and prunes
    c; b keeps its directory, contents included, and its lock entry. *)
Theorem uninstall_removes_and_prunes (st : State) (da db dc : PkgDir) :
  lockFile st = Present [("a", "1.0.0"); ("b", "1.0.0")] ->
  nodeModules st = Some [("a", da); ("b", db); ("c", dc)] ->
  exists st',
    uninstall_action "a" st = (Completed, st') /\
    nodeModules st' = Some [("b", db)] /\
    lockFile st' = Present [("b", "1.0.0")] /\
    trace st' = Log (Uninstalled "a") :: Log (Pruned 1) ::
                WriteLock [("b", "1.0.0")] :: trace st.
Proof.
  intros HF HN. unfold uninstall_action, loadLock. rewrite HN. simpl.
  rewrite HF. simpl. eexists. split; [reflexivity|]. simpl. auto.
Qed.

Lemma uninstall_removes_and_prunes_witness :
  exists st',
    uninstall_action "a"
      (mkState [] [] (Present [("a", "1.0.0"); ("b", "1.0.0")])
         (Some [("a", emptyDir); ("b", mkDir (Some []) ["index.js"]); ("c", emptyDir)])
         None []) = (Completed, st') /\
    nodeModules st' = Some [("b", mkDir (Some []) ["index.js"])] /\
    lockFile st' = Present [("b", "1.0.0")] /\
    trace st' = Log (Uninstalled "a") :: Log (Pruned 1) ::
                WriteLock [("b", "1.0.0")] :: [].
Proof.
  apply (uninstall_removes_and_prunes
           (mkState [] [] (Present [("a", "1.0.0"); ("b", "1.0.0")])
              (Some [("a", emptyDir); ("b", mkDir (Some []) ["index.js"]); ("c", emptyDir)])
              None [])
           emptyDir (mkDir (Some []) ["index.js"]) emptyDir); reflexivity.
Defined.

(** * Exit codes *)





(** A call for a package the registry does not answer for changes neither
    the lock, nor prisma.lock, nor node_modules. *)
Lemma installPackage_absent_frame (fuel : nat) (w : World) (spec : string) (d : nat)
    (st : State) :
  (forall m, registry w (fst (parseSpec spec)) <> Ok m) ->
  exists st',
    installPackage (S fuel) w spec d st = Some st' /\
    lock st' = lock st /\ lockFile st' = lockFile st /\ nodeModules st' = nodeModules st.
Proof.
  intros Hreg.
  destruct (locked (fst (parseSpec spec)) (lock st)) eqn:L.
  - destruct (installPackage_skip_quiet fuel w spec d st _ eq_refl L)
      as (st' & logs & Run & _ & A & B & C & _). eauto.
  - rewrite installPackage_S. unfold installPackageBody.
    destruct (parseSpec spec) as [pkg range]. cbn [fst] in *.
    destruct (ensureCacheDir_lock w st) as (EL & _ & EF & EN & _).
    rewrite EL, L. unfold tryBody.
    destruct (registry w pkg) as [| |m] eqn:E; [| |destruct (Hreg m eq_refl)];
      (eexists; split; [reflexivity|]; cbn [lock lockFile nodeModules emit]; auto).
Qed.




(** * Installing from the lock file *)

Lemma parseSpec_bare (n : string) : validName n = true -> fst (parseSpec n) = n.
Proof.
  destruct n as [|c rest]; [discriminate|]. cbn [validName].
  destruct (Ascii.eqb_spec c "@") as [->|Hc].
  - intros H. apply andb_true_iff in H as [Ht Hn]. apply negb_true_iff in Hn.
    unfold parseSpec. cbn [Js.split]. rewrite Ascii.eqb_refl, (split_no_sep _ _ Hn).
    cbn. rewrite Ht. reflexivity.
  - intros H. apply negb_true_iff in H. unfold parseSpec.
    rewrite (split_no_sep _ _ H). reflexivity.
Qed.






(** * Pruning *)

Lemma readdir_rmSync (p k : string) (d : Dir) :
  In k (Fs.readdirSync (Fs.rmSync p d)) -> In k (Fs.readdirSync d) /\ k <> p.
Proof.
  unfold Fs.readdirSync, Fs.rmSync, objectKeys.
  rewrite !filter_In, !in_map_iff.
  intros [([k' x] & Hk & Hin) Hs]. simpl in Hk. subst k'.
  apply filter_In in Hin as [Hin Hg]. simpl in Hg.
  apply negb_true_iff, orb_false_iff in Hg as [Hg _].
  split.
  - split; [exists (k, x); auto|exact Hs].
  - intros ->. rewrite String.eqb_refl in Hg. discriminate.
Qed.

Lemma pruneLoop_keep_nothing (installed : list string) :
  forall d n k,
    In k (Fs.readdirSync (fst (pruneLoop [] installed d n))) ->
    In k (Fs.readdirSync d) /\ ~ In k installed.
Proof.
  induction installed as [|dep rest IH]; intros d n k H; simpl in *; [auto|].
  apply IH in H as [H Hrest]. apply readdir_rmSync in H as [H Hne].
  split; [exact H|]. intros [E|E]; [congruence|contradiction].
Qed.

Lemma topLevel_covers (k : string) :
  k = Fs.topLevel k \/ String.prefix (Fs.topLevel k ++ "/") k = true.
Proof.
  unfold Fs.topLevel. induction k as [|c r IH]; [left; reflexivity|].
  cbn [Js.split]. destruct (Ascii.eqb_spec c "/") as [->|Hc].
  - right. simpl. destruct r; reflexivity.
  - destruct (split_hd "/" r) as (h & t & E). rewrite E in *. cbn [hd] in *.
    destruct IH as [IH|IH].
    + left. congruence.
    + right. simpl. destruct (ascii_dec c c); [exact IH|congruence].
Qed.

Lemma topLevel_flat (k : string) : Js.contains "/" (Fs.topLevel k) = false.
Proof.
  unfold Fs.topLevel. induction k as [|c r IH]; [reflexivity|].
  cbn [Js.split]. destruct (Ascii.eqb c "/") eqn:Hc; [reflexivity|].
  destruct (split_hd "/" r) as (h & t & E). rewrite E in *. cbn [hd] in *.
  simpl. rewrite Hc, IH. reflexivity.
Qed.

Lemma prefix_slash_contains (p t : string) :
  String.prefix (p ++ "/") t = true -> Js.contains "/" t = true.
Proof.
  revert t. induction p as [|c p IH]; intros [|d t];
    cbn [String.prefix String.append Js.contains]; try discriminate.
  - destruct (ascii_dec "/" d) as [<-|]; [reflexivity|discriminate].
  - destruct (ascii_dec c d); [|discriminate].
    intros H. rewrite (IH t H). apply orb_true_r.
Qed.

Lemma rmSync_In (p : string) (d : Dir) (kv : string * PkgDir) :
  In kv (Fs.rmSync p d) <->
  In kv d /\ fst kv <> p /\ String.prefix (p ++ "/") (fst kv) = false.
Proof.
  unfold Fs.rmSync. rewrite filter_In, negb_true_iff, orb_false_iff.
  destruct (String.eqb_spec (fst kv) p); intuition congruence.
Qed.

Lemma readdir_In (k : string) (d : Dir) :
  In k (Fs.readdirSync d) <-> In k (objectKeys d) /\ Js.contains "/" k = false.
Proof.
  unfold Fs.readdirSync. rewrite filter_In, negb_true_iff. reflexivity.
Qed.

Lemma closed_rmSync (p : string) (d : Dir) : Fs.closed d -> Fs.closed (Fs.rmSync p d).
Proof.
  unfold Fs.closed, objectKeys. intros H k Hk.
  apply in_map_iff in Hk as ([k' x] & E & Hin). simpl in E. subst k'.
  apply rmSync_In in Hin as (Hin & Hne & Hpre). simpl in Hne, Hpre.
  assert (Hk : In k (map fst d)) by (apply in_map_iff; exists (k, x); auto).
  specialize (H k Hk). apply readdir_In in H as [Ht Hflat].
  apply readdir_In. split; [|exact Hflat].
  unfold objectKeys in Ht. apply in_map_iff in Ht as ([t y] & E & Hty).
  simpl in E. apply in_map_iff. exists (t, y). split; [exact E|].
  apply rmSync_In. simpl. subst t. split; [exact Hty|]. split.
  - intros E. destruct (topLevel_covers k) as [C|C]; rewrite E in C; congruence.
  - destruct (String.prefix (p ++ "/") (Fs.topLevel k)) eqn:P; [|reflexivity].
    apply prefix_slash_contains in P. congruence.
Qed.

Lemma pruneLoop_entries (installed : list string) :
  forall d n kv,
    In kv (fst (pruneLoop [] installed d n)) ->
    In kv d /\
    forall p, In p installed ->
              fst kv <> p /\ String.prefix (p ++ "/") (fst kv) = false.
Proof.
  induction installed as [|dep rest IH]; intros d n kv H; simpl in *.
  - split; [exact H|intros p []].
  - apply IH in H as [H Hrest]. apply rmSync_In in H as (H & Hne & Hpre).
    split; [exact H|]. intros p [<-|Hp]; auto.
Qed.

Lemma pruneLoop_closed (d : Dir) (n : nat) :
  Fs.closed d -> fst (pruneLoop [] (Fs.readdirSync d) d n) = [].
Proof.
  intros Hc. destruct (fst _) as [|[k x] rest] eqn:E; [reflexivity|]. exfalso.
  destruct (pruneLoop_entries (Fs.readdirSync d) d n (k, x)) as [Hin Hall];
    [rewrite E; left; reflexivity|].
  assert (Hk : In k (objectKeys d)) by (apply in_map_iff; exists (k, x); auto).
  destruct (Hall _ (Hc k Hk)) as [Hne Hpre]. simpl in Hne, Hpre.
  destruct (topLevel_covers k); congruence.
Qed.

(** C10: when there is no lock file, or the lock has no entry left once the
    target is deleted, uninstall leaves node_modules without a single
    listed entry, whatever packages the entries belonged to; on a directory
    tree as a disk has it, nothing at all is left below node_modules. *)
Theorem uninstall_without_lock_prunes_all (pkg : string) (st : State) (d : Dir) :
  lockFile st = Absent \/
    (exists deps, lockFile st = Present deps /\ del pkg deps = []) ->
  nodeModules st = Some d ->
  exists st' d',
    uninstall_action pkg st = (Completed, st') /\
    nodeModules st' = Some d' /\ Fs.readdirSync d' = [] /\
    (Fs.closed d -> d' = []).
Proof.
  intros HF HN. unfold uninstall_action. rewrite HN.
  set (st1 := if Fs.existsSync pkg (Some d) then setNodeModules (Some (Fs.rmSync pkg d)) st
              else st).
  assert (F1 : lockFile st1 = lockFile st) by (unfold st1; destruct (Fs.existsSync _ _); reflexivity).
  assert (N1 : exists d1, nodeModules st1 = Some d1 /\ (Fs.closed d -> Fs.closed d1)).
  { unfold st1. destruct (Fs.existsSync _ _); simpl; eauto using closed_rmSync. }
  destruct N1 as (d1 & N1 & C1).
  assert (Done : forall d2 n, d2 = fst (pruneLoop [] (Fs.readdirSync d1) d1 n) ->
                 Fs.readdirSync d2 = [] /\ (Fs.closed d -> d2 = [])).
  { intros d2 n ->. split.
    - destruct (Fs.readdirSync (fst _)) as [|k ks] eqn:E; [reflexivity|].
      destruct (pruneLoop_keep_nothing (Fs.readdirSync d1) d1 n k) as [A B];
        [rewrite E; left; reflexivity|contradiction].
    - intros Hc. apply pruneLoop_closed, C1, Hc. }
  clearbody st1. destruct st1 as [l1 s1 f1 nm1 c1 t1].
  cbn [lockFile nodeModules] in F1, N1. subst f1 nm1. unfold loadLock.
  cbn [lockFile].
  destruct HF as [HF|(deps & HF & Hdel)]; rewrite HF;
    cbn [lockFile setLock lock nodeModules writeLock emit setLockFile installedSet
         cacheFiles trace];
    rewrite ?Hdel; cbn [objectKeys map];
    destruct (pruneLoop [] (Fs.readdirSync d1) d1 0) as [d2 n] eqn:P;
    (eexists _, d2; split; [reflexivity|];
     split; [destruct (0 <? n)%nat; reflexivity|];
     apply (Done d2 0); rewrite P; reflexivity).
Qed.

Lemma uninstall_without_lock_prunes_all_witness :
  exists st' d',
    uninstall_action "a"
      (mkState [] [] Absent
         (Some [("a", emptyDir); ("lodash", emptyDir); ("@s", emptyDir); ("@s/p", emptyDir)])
         None []) = (Completed, st') /\
    nodeModules st' = Some d' /\ Fs.readdirSync d' = [] /\
    (Fs.closed [("a", emptyDir); ("lodash", emptyDir); ("@s", emptyDir); ("@s/p", emptyDir)] ->
     d' = []).
Proof.
  apply (uninstall_without_lock_prunes_all "a"
           (mkState [] [] Absent
              (Some [("a", emptyDir); ("lodash", emptyDir); ("@s", emptyDir); ("@s/p", emptyDir)])
              None [])
           [("a", emptyDir); ("lodash", emptyDir); ("@s", emptyDir); ("@s/p", emptyDir)]).
  - left. reflexivity.
  - reflexivity.
Defined.

(** * Ranges, as [semverSatisfies] reads them *)

Lemma startsWith_empty_version (x : string) : Js.startsWith "" (x ++ ".") = false.
Proof. unfold Js.startsWith. destruct x; reflexivity. Qed.

Lemma caret_reads_major (v body : string) :
  semverSatisfies v (Some (String "^" body)) =
  Js.startsWith v (hd EmptyString (Js.split "." body) ++ ".").
Proof. destruct body; reflexivity. Qed.

Lemma tilde_reads_major_minor (v body : string) :
  semverSatisfies v (Some (String "~" body)) =
  Js.startsWith v (hd EmptyString (Js.split "." body) ++ "." ++
                   Js.str (nth_error (Js.split "." body) 1) ++ ".").
Proof. destruct body; reflexivity. Qed.

(** X1: a caret range looks at the major component only, whatever follows
    the first dot: [^M.x.y] accepts exactly the versions that start with
    [M.], the same ones as [^M]. *)
Theorem caret_ignores_minor_and_patch (v major rest : string) :
  Js.contains "." major = false ->
  semverSatisfies v (Some ("^" ++ major ++ "." ++ rest)) = Js.startsWith v (major ++ ".") /\
  semverSatisfies v (Some ("^" ++ major ++ "." ++ rest)) = semverSatisfies v (Some ("^" ++ major)).
Proof.
  intros H.
  change ("^" ++ major ++ "." ++ rest) with (String "^" (major ++ String "." rest)).
  change ("^" ++ major) with (String "^" major).
  rewrite !caret_reads_major, (split_app_sep _ _ _ H), (split_no_sep _ _ H). auto.
Qed.

Lemma caret_ignores_minor_and_patch_witness :
  semverSatisfies "1.0.0" (Some ("^" ++ "1" ++ "." ++ "5.3")) = Js.startsWith "1.0.0" ("1" ++ ".") /\
  semverSatisfies "1.0.0" (Some ("^" ++ "1" ++ "." ++ "5.3")) = semverSatisfies "1.0.0" (Some ("^" ++ "1")).
Proof. apply (caret_ignores_minor_and_patch "1.0.0" "1" "5.3"). reflexivity. Defined.

(** X2: a tilde range looks at major and minor only: [~M.m.p] accepts
    exactly the versions that start with [M.m.], the same ones as [~M.m]. *)
Theorem tilde_ignores_patch (v major minor rest : string) :
  Js.contains "." major = false -> Js.contains "." minor = false ->
  semverSatisfies v (Some ("~" ++ major ++ "." ++ minor ++ "." ++ rest))
    = Js.startsWith v (major ++ "." ++ minor ++ ".") /\
  semverSatisfies v (Some ("~" ++ major ++ "." ++ minor ++ "." ++ rest))
    = semverSatisfies v (Some ("~" ++ major ++ "." ++ minor)).
Proof.
  intros H1 H2.
  change ("~" ++ major ++ "." ++ minor ++ "." ++ rest)
    with (String "~" (major ++ String "." (minor ++ String "." rest))).
  change ("~" ++ major ++ "." ++ minor) with (String "~" (major ++ String "." minor)).
  rewrite !tilde_reads_major_minor, !(split_app_sep _ _ _ H1),
    (split_app_sep _ _ _ H2), (split_no_sep _ _ H2). auto.
Qed.

Lemma tilde_ignores_patch_witness :
  semverSatisfies "1.2.0" (Some ("~" ++ "1" ++ "." ++ "2" ++ "." ++ "9"))
    = Js.startsWith "1.2.0" ("1" ++ "." ++ "2" ++ ".") /\
  semverSatisfies "1.2.0" (Some ("~" ++ "1" ++ "." ++ "2" ++ "." ++ "9"))
    = semverSatisfies "1.2.0" (Some ("~" ++ "1" ++ "." ++ "2")).
Proof. apply (tilde_ignores_patch "1.2.0" "1" "2" "9"); reflexivity. Defined.

(** X3: a tilde range without a minor component asks for the prefix
    [M.undefined.], the missing minor being printed as it is. *)
Theorem tilde_without_minor (v major : string) :
  Js.contains "." major = false ->
  semverSatisfies v (Some ("~" ++ major)) = Js.startsWith v (major ++ ".undefined.").
Proof.
  intros H. change ("~" ++ major) with (String "~" major).
  rewrite tilde_reads_major_minor, (split_no_sep _ _ H). reflexivity.
Qed.

Lemma tilde_without_minor_witness :
  semverSatisfies "1.0.0" (Some ("~" ++ "1")) = Js.startsWith "1.0.0" ("1" ++ ".undefined.").
Proof. apply (tilde_without_minor "1.0.0" "1"). reflexivity. Defined.

(** * Names, as [installPackage] parses them *)

Lemma split_pieces_no_sep (c : ascii) (s p : string) :
  In p (Js.split c s) -> Js.contains c p = false.
Proof.
  revert p. induction s as [|d s IH]; simpl; intros p H.
  - destruct H as [<-|[]]. reflexivity.
  - destruct (Ascii.eqb d c) eqn:E.
    + destruct H as [<-|H]; [reflexivity|auto].
    + destruct (Js.split c s) as [|h t]; simpl in H.
      * destruct H as [<-|[]]. simpl. rewrite E. reflexivity.
      * destruct H as [<-|H].
        -- simpl. rewrite E. apply IH. left. reflexivity.
        -- apply IH. right. exact H.
Qed.

Lemma parseSpec_shape (spec : string) :
  (fst (parseSpec spec) = "" \/ validName (fst (parseSpec spec)) = true) /\
  (forall r, snd (parseSpec spec) = Some r -> Js.contains "@" r = false).
Proof.
  unfold parseSpec.
  destruct (split_hd "@" spec) as (h & t & E).
  assert (Hh : Js.contains "@" h = false)
    by (apply (split_pieces_no_sep "@" spec); rewrite E; left; reflexivity).
  assert (Ht : forall r, nth_error (h :: t) 1 = Some r -> Js.contains "@" r = false).
  { intros r Hr. apply (split_pieces_no_sep "@" spec). rewrite E.
    eapply nth_error_In. exact Hr. }
  rewrite E. cbn [hd].
  destruct (String.eqb_spec h "") as [->|Hne].
  - destruct (nth_error ("" :: t) 1) as [r|] eqn:Er; cbn [andb Js.truthyOpt].
    + destruct (Js.truthy r) eqn:Tr; cbn [fst snd].
      * split; [|discriminate]. right. cbn [Js.str append validName].
        rewrite Ascii.eqb_refl, Tr, (Ht r eq_refl). reflexivity.
      * split; [left; reflexivity|]. intros r' Hr'. apply Ht. exact Hr'.
    + split; [left; reflexivity|discriminate].
  - cbn [andb fst snd]. split; [|exact Ht]. right.
    destruct h as [|c h']; [contradiction|]. cbn [validName].
    cbn [Js.contains] in Hh. apply orb_false_iff in Hh as [Hc Hh'].
    rewrite Hc. cbn [Js.contains]. rewrite Hc, Hh'. reflexivity.
Qed.

(** X4: whatever the specifier, the name that installPackage works with is
    empty or a package name: no ['@'] in it except a leading one followed by
    something; and a range, when one is kept, has no ['@'] either. *)
Theorem parseSpec_yields_names (spec : string) :
  (fst (parseSpec spec) = "" \/ validName (fst (parseSpec spec)) = true) /\
  (forall r, snd (parseSpec spec) = Some r -> Js.contains "@" r = false).
Proof. exact (parseSpec_shape spec). Qed.

(** * The resolver *)

Lemma insert_perm (cmp : string -> string -> comparison) (x : string) (l : list string) :
  Permutation (Js.insert cmp x l) (x :: l).
Proof.
  induction l as [|y l IH]; simpl; [reflexivity|].
  destruct (cmp x y); try reflexivity.
  etransitivity; [apply perm_skip, IH|apply perm_swap].
Qed.

Lemma sort_perm (cmp : string -> string -> comparison) (l : list string) :
  Permutation (Js.sort cmp l) l.
Proof.
  unfold Js.sort. induction l as [|x l IH]; simpl; [reflexivity|].
  etransitivity; [apply insert_perm|apply perm_skip, IH].
Qed.

Lemma allVersions_perm (host : string -> string -> comparison) (m : Meta) :
  Permutation (allVersions host m) (objectKeys (versions m)).
Proof. apply sort_perm. Qed.

(** With a real range in hand the resolver is a search through the sorted
    keys. *)
Lemma resolveVersion_ranged (host : string -> string -> comparison) (m : Meta)
    (r : string) :
  Js.truthy r = true -> r <> "latest" ->
  resolveVersion host m (Some r) =
  match Js.find (fun v => semverSatisfies v (Some r)) (allVersions host m) with
  | Some found => if Js.truthy found then Picked found else NoVersion (allVersions host m)
  | None => NoVersion (allVersions host m)
  end.
Proof.
  intros T L. unfold resolveVersion. cbn [Js.truthyOpt Js.str]. rewrite T.
  destruct (String.eqb_spec r "latest"); [contradiction|reflexivity].
Qed.

Lemma startsWith_empty_app (x y : string) (c : ascii) :
  Js.startsWith "" (x ++ String c y) = false.
Proof. unfold Js.startsWith. destruct x; reflexivity. Qed.

(** No real range is satisfied by the empty version. *)
Lemma semverSatisfies_empty_version (r : string) :
  Js.truthy r = true -> r <> "latest" -> semverSatisfies "" (Some r) = false.
Proof.
  intros T L. unfold semverSatisfies. rewrite T. cbn [negb orb].
  destruct (String.eqb_spec r "latest"); [contradiction|].
  destruct (Js.startsWith r "^"); [apply startsWith_empty_app|].
  destruct (Js.startsWith r "~"); [apply startsWith_empty_app|].
  unfold Js.truthy in T. apply negb_true_iff in T.
  rewrite String.eqb_sym. exact T.
Qed.

(** X5: under a real range the resolver returns a version that is a key of
    [meta.versions] and satisfies the range, however the host orders the
    keys. *)
Theorem resolveVersion_picks_satisfying_key (host : string -> string -> comparison)
    (m : Meta) (r v : string) :
  Js.truthy r = true -> r <> "latest" ->
  resolveVersion host m (Some r) = Picked v ->
  In v (objectKeys (versions m)) /\ semverSatisfies v (Some r) = true.
Proof.
  intros T L. rewrite (resolveVersion_ranged host m r T L). unfold Js.find.
  destruct (find _ (allVersions host m)) as [found|] eqn:F; [|discriminate].
  destruct (Js.truthy found); [|discriminate].
  intros H. injection H as <-. apply find_some in F as [Hin Hs].
  split; [|exact Hs].
  eapply Permutation_in; [apply allVersions_perm|exact Hin].
Qed.

Lemma resolveVersion_picks_satisfying_key_witness :
  In "1.2.0" (objectKeys (versions metaLatestOld)) /\
  semverSatisfies "1.2.0" (Some "^1") = true.
Proof.
  apply (resolveVersion_picks_satisfying_key String.compare metaLatestOld "^1" "1.2.0");
    [reflexivity|discriminate|reflexivity].
Defined.

(** X6: under a real range the resolver finds no version exactly when no
    key of [meta.versions] satisfies the range.  The list it has sorted by
    then is a reordering of all the keys, and the error message of line 193
    shows the first five of that list. *)
Theorem resolveVersion_none_iff_no_key (host : string -> string -> comparison)
    (m : Meta) (r : string) :
  Js.truthy r = true -> r <> "latest" ->
  ((exists all, resolveVersion host m (Some r) = NoVersion all) <->
   (forall v, In v (objectKeys (versions m)) -> semverSatisfies v (Some r) = false)) /\
  (forall all, resolveVersion host m (Some r) = NoVersion all ->
     Permutation all (objectKeys (versions m)) /\
     forall (call : string -> State -> option State) (w : World) (pkg : string)
            (d : nat) (st : State),
       collate w = host -> registry w pkg = Ok m ->
       tryBody call w pkg (Some r) d st =
       Some (Returned (emit (LogError (NoVersionFound pkg r (firstn 5 all)))
                         (emit (FetchMeta pkg) st)))).
Proof.
  intros T L.
  assert (Shown : forall all, resolveVersion host m (Some r) = NoVersion all ->
            forall (call : string -> State -> option State) (w : World) (pkg : string)
                   (d : nat) (st : State),
              collate w = host -> registry w pkg = Ok m ->
              tryBody call w pkg (Some r) d st =
              Some (Returned (emit (LogError (NoVersionFound pkg r (firstn 5 all)))
                                (emit (FetchMeta pkg) st)))).
  { intros all H call w pkg d st Hw Hreg. unfold tryBody. rewrite Hreg, Hw, H. reflexivity. }
  revert Shown. rewrite (resolveVersion_ranged host m r T L). unfold Js.find.
  destruct (find _ (allVersions host m)) as [found|] eqn:F; intros Shown.
  - apply find_some in F as [Hin Hs].
    assert (Tf : Js.truthy found = true).
    { unfold Js.truthy. destruct (String.eqb_spec found "") as [->|]; [|reflexivity].
      rewrite (semverSatisfies_empty_version r T L) in Hs. discriminate. }
    rewrite Tf in *. split; [split|].
    + intros [all H]. discriminate.
    + intros H. rewrite (H found) in Hs; [discriminate|].
      eapply Permutation_in; [apply allVersions_perm|exact Hin].
    + intros all H. discriminate.
  - split; [split|].
    + intros _ v Hin. apply (find_none _ _ F).
      eapply Permutation_in; [apply Permutation_sym, allVersions_perm|exact Hin].
    + intros _. eauto.
    + intros all H. split; [|apply Shown; exact H].
      injection H as <-. apply allVersions_perm.
Qed.

Lemma resolveVersion_none_iff_no_key_witness :
  ((exists all, resolveVersion String.compare metaLatestOld (Some "^3") = NoVersion all) <->
   (forall v, In v (objectKeys (versions metaLatestOld)) ->
              semverSatisfies v (Some "^3") = false)) /\
  (forall all, resolveVersion String.compare metaLatestOld (Some "^3") = NoVersion all ->
     Permutation all (objectKeys (versions metaLatestOld)) /\
     forall (call : string -> State -> option State) (w : World) (pkg : string)
            (d : nat) (st : State),
       collate w = String.compare -> registry w pkg = Ok metaLatestOld ->
       tryBody call w pkg (Some "^3") d st =
       Some (Returned (emit (LogError (NoVersionFound pkg "^3" (firstn 5 all)))
                         (emit (FetchMeta pkg) st)))).
Proof.
  apply (resolveVersion_none_iff_no_key String.compare metaLatestOld "^3");
    [reflexivity|discriminate].
Defined.

(** ** The order of dotted decimals *)

Lemma compareNumbers_antisym (a : list N) :
  forall b, Js.compareNumbers b a = CompOpp (Js.compareNumbers a b).
Proof.
  induction a as [|x a IH]; intros [|y b]; simpl; try reflexivity.
  rewrite (N.compare_antisym x y). destruct (N.compare x y); simpl; auto.
Qed.

Lemma compareNumbers_trans (a : list N) :
  forall b c, Js.compareNumbers a b <> Gt -> Js.compareNumbers b c <> Gt ->
              Js.compareNumbers a c <> Gt.
Proof.
  induction a as [|x a IH]; intros b c Hab Hbc.
  - destruct c; simpl; discriminate.
  - destruct b as [|y b]; [simpl in Hab; congruence|].
    destruct c as [|z c]; [simpl in Hbc; congruence|].
    simpl in *.
    destruct (N.compare_spec x y), (N.compare_spec y z), (N.compare_spec x z);
      subst; try congruence; try lia; try discriminate.
    apply (IH b c); assumption.
Qed.

Lemma versionLe_trans (a b c : string) : versionLe a b -> versionLe b c -> versionLe a c.
Proof. unfold versionLe, Js.compareDotted. apply compareNumbers_trans. Qed.

Lemma versionLe_total (a b : string) : versionLe a b \/ versionLe b a.
Proof.
  unfold versionLe, Js.compareDotted.
  rewrite (compareNumbers_antisym (Js.numbers a) (Js.numbers b)).
  destruct (Js.compareNumbers (Js.numbers a) (Js.numbers b)); simpl;
    [left|left|right]; discriminate.
Qed.

Lemma versionLe_refl (a : string) : versionLe a a.
Proof. destruct (versionLe_total a a); assumption. Qed.

Lemma insert_sorted (x : string) (l : list string) :
  StronglySorted (fun a b => versionLe b a) l ->
  StronglySorted (fun a b => versionLe b a)
    (Js.insert (fun a b => Js.compareDotted b a) x l).
Proof.
  induction 1 as [|y l Hl IH Hy]; simpl; [repeat constructor|].
  destruct (Js.compareDotted y x) eqn:C.
  - constructor; [constructor; assumption|].
    constructor; [unfold versionLe; congruence|].
    eapply Forall_impl; [|exact Hy]. intros z Hz. simpl in Hz.
    eapply versionLe_trans; [exact Hz|unfold versionLe; congruence].
  - constructor; [constructor; assumption|].
    constructor; [unfold versionLe; congruence|].
    eapply Forall_impl; [|exact Hy]. intros z Hz. simpl in Hz.
    eapply versionLe_trans; [exact Hz|unfold versionLe; congruence].
  - constructor; [exact IH|].
    eapply Permutation_Forall; [apply Permutation_sym, insert_perm|].
    constructor; [|exact Hy].
    destruct (versionLe_total x y) as [H|H]; [exact H|].
    unfold versionLe in H. congruence.
Qed.

(** Among dotted decimals the host has no say. *)
Lemma insert_dotted (host : string -> string -> comparison) (x : string)
    (l : list string) :
  Js.dotted x = true -> Forall (fun k => Js.dotted k = true) l ->
  Js.insert (fun a b => Js.localeCompareNumeric host b a) x l =
  Js.insert (fun a b => Js.compareDotted b a) x l.
Proof.
  intros Hx. induction 1 as [|y l Hy Hl IH]; simpl; [reflexivity|].
  unfold Js.localeCompareNumeric at 1. rewrite Hx, Hy. cbn [andb].
  destruct (Js.compareDotted y x); try reflexivity. rewrite IH. reflexivity.
Qed.

Lemma sort_dotted (host : string -> string -> comparison) (l : list string) :
  Forall (fun k => Js.dotted k = true) l ->
  Js.sort (fun a b => Js.localeCompareNumeric host b a) l =
  Js.sort (fun a b => Js.compareDotted b a) l.
Proof.
  unfold Js.sort. induction 1 as [|x l Hx Hl IH]; simpl; [reflexivity|].
  rewrite IH. apply insert_dotted; [exact Hx|].
  eapply Permutation_Forall; [apply Permutation_sym, sort_perm|exact Hl].
Qed.

Lemma allVersions_sorted (host : string -> string -> comparison) (m : Meta) :
  Forall (fun k => Js.dotted k = true) (objectKeys (versions m)) ->
  StronglySorted (fun a b => versionLe b a) (allVersions host m).
Proof.
  intros Hd. unfold allVersions. rewrite (sort_dotted host _ Hd). clear Hd.
  unfold Js.sort. induction (objectKeys (versions m)) as [|x l IH]; simpl.
  - constructor.
  - apply insert_sorted. exact IH.
Qed.

Lemma find_first_is_top (p : string -> bool) (l : list string) (v : string) :
  StronglySorted (fun a b => versionLe b a) l -> find p l = Some v ->
  forall u, In u l -> p u = true -> versionLe u v.
Proof.
  induction 1 as [|y l Hl IH Hy]; simpl; [discriminate|].
  destruct (p y) eqn:Py.
  - intros H u [<-|Hu] _; injection H as <-; [apply versionLe_refl|].
    rewrite Forall_forall in Hy. apply Hy. exact Hu.
  - intros H u [<-|Hu] Pu; [congruence|]. apply IH; assumption.
Qed.

(** X7: when the keys of [meta.versions] are dotted decimals, the version
    picked under a real range is the highest satisfying one, whatever the
    locale of the engine: each key that satisfies the range ranks no higher,
    component by component as numbers. *)
Theorem resolveVersion_picks_highest (host : string -> string -> comparison)
    (m : Meta) (r v : string) :
  Js.truthy r = true -> r <> "latest" ->
  Forall (fun k => Js.dotted k = true) (objectKeys (versions m)) ->
  resolveVersion host m (Some r) = Picked v ->
  forall u, In u (objectKeys (versions m)) -> semverSatisfies u (Some r) = true ->
            versionLe u v.
Proof.
  intros T L Hd. rewrite (resolveVersion_ranged host m r T L). unfold Js.find.
  destruct (find _ (allVersions host m)) as [found|] eqn:F; [|discriminate].
  destruct (Js.truthy found); [|discriminate].
  intros H u Hu Su. injection H as <-.
  apply (find_first_is_top _ _ _ (allVersions_sorted host m Hd) F); [|exact Su].
  eapply Permutation_in; [apply Permutation_sym, allVersions_perm|exact Hu].
Qed.

Lemma resolveVersion_picks_highest_witness :
  resolveVersion String.compare
    (mkMeta "1.2.0" [("1.9.0", "u"); ("1.10.0", "v"); ("2.0.0", "w")]) (Some "^1")
    = Picked "1.10.0" /\
  semverSatisfies "1.9.0" (Some "^1") = true /\
  versionLe "1.9.0" "1.10.0".
Proof.
  split; [reflexivity|]. split; [reflexivity|].
  apply (resolveVersion_picks_highest String.compare
           (mkMeta "1.2.0" [("1.9.0", "u"); ("1.10.0", "v"); ("2.0.0", "w")])
           "^1" "1.10.0" ltac:(reflexivity) ltac:(discriminate));
    [repeat constructor|reflexivity|vm_compute; tauto|reflexivity].
Defined.

(** * A proof principle for the walk

    A relation between the state before and after a call of installPackage
    at a given depth holds for every call as soon as it is reflexive and
    transitive, passes from depth [d+1] to depth [d], and holds for each
    single effect the function has. *)

Lemma setNodeModules_same (st : State) : setNodeModules (nodeModules st) st = st.
Proof. destruct st. reflexivity. Qed.

Section Walk.
Variable w : World.
Variable R : nat -> State -> State -> Prop.
Hypothesis R_refl : forall d st, R d st st.
Hypothesis R_trans : forall d a b c, R d a b -> R d b c -> R d a c.
Hypothesis R_sub : forall d a b, R (S d) a b -> R d a b.
Hypothesis R_emit : forall d e st, isSummary e = false -> R d st (emit e st).
Hypothesis R_summary : forall p v st, R 0 st (emit (Log (Installed p v)) st).
Hypothesis R_session :
  forall d p st, R d st (setInstalledSet (setAdd p (installedSet st)) st).
Hypothesis R_mkcache :
  forall d st, cacheDir w <> None -> cacheFiles st = None ->
               R d st (setCacheFiles (Some []) st).
Hypothesis R_store :
  forall d st files name body,
    cacheDir w <> None -> cacheFiles st = Some files -> get name files = None ->
    R d st (setCacheFiles (Some (set name body files)) st).
Hypothesis R_mkroot :
  forall d st, nodeModules st = None -> R d st (setNodeModules (Some []) st).
Hypothesis R_mkdir :
  forall d st dir p,
    locked p (lock st) = false -> nodeModules st = Some dir -> get p dir = None ->
    R d st (setNodeModules (Some (set p emptyDir dir)) st).
Hypothesis R_extract :
  forall d st dir p content,
    locked p (lock st) = false -> nodeModules st = Some dir -> get p dir <> None ->
    R d st (setNodeModules (Some (Fs.extractInto p content dir)) st).
Hypothesis R_record :
  forall d st p v m range spec,
    p = fst (parseSpec spec) -> registry w p = Ok m ->
    resolveVersion (collate w) m range = Picked v ->
    locked p (lock st) = false -> Fs.existsSync p (nodeModules st) = true ->
    R d st (recordInstall p v st).

Lemma walk_forDeps (d : nat) (call : string -> State -> option State) :
  (forall s a b, call s a = Some b -> R d a b) ->
  forall deps st st', forDeps call deps st = Some st' -> R d st st'.
Proof.
  intros Hcall. induction deps as [|[dep r] rest IH]; simpl; intros st st' H.
  - injection H as <-. apply R_refl.
  - destruct (setHas dep (installedSet st)); [auto|].
    destruct (call _ st) as [st1|] eqn:E; [|discriminate].
    eapply R_trans; eauto.
Qed.

Lemma walk_makeDirs (d : nat) (pkg : string) (st : State) :
  locked pkg (lock st) = false ->
  R d st (stateOf (makeDirs pkg st)) /\
  forall s1, makeDirs pkg st = Returned s1 ->
             exists dir, nodeModules s1 = Some dir /\ get pkg dir <> None.
Proof.
  intros Hl. unfold makeDirs, Fs.mkdirSync. destruct (nodeModules st) as [dir|] eqn:N.
  - destruct (get pkg dir) eqn:G.
    + rewrite <- N, setNodeModules_same. split; [apply R_refl|].
      intros s1 H. injection H as <-. exists dir. rewrite N, G. split; congruence.
    + assert (Made : R d st (setNodeModules (Some (set pkg emptyDir dir)) st))
        by (apply R_mkdir; assumption).
      assert (Same : setNodeModules (Some dir) st = st)
        by (rewrite <- N; apply setNodeModules_same).
      destruct (Fs.dirname pkg) as [parent|]; [destruct (get parent dir)|]; simpl.
      * split; [exact Made|]. intros s1 H. injection H as <-. eexists. split; [reflexivity|].
        rewrite get_set_same. discriminate.
      * rewrite Same. split; [apply R_refl|discriminate].
      * split; [exact Made|]. intros s1 H. injection H as <-. eexists. split; [reflexivity|].
        rewrite get_set_same. discriminate.
  - cbn [get].
    assert (Root : R d st (setNodeModules (Some []) st)) by (apply R_mkroot; exact N).
    assert (Made : R d st (setNodeModules (Some (set pkg emptyDir [])) st)).
    { eapply R_trans; [exact Root|].
      apply (R_mkdir d (setNodeModules (Some []) st) [] pkg); [exact Hl|reflexivity..]. }
    destruct (Fs.dirname pkg) as [parent|]; simpl.
    + split; [exact Root|discriminate].
    + split; [exact Made|]. intros s1 H. injection H as <-. eexists. split; [reflexivity|].
      change [(pkg, emptyDir)] with (set pkg emptyDir []).
      rewrite get_set_same. discriminate.
Qed.

Lemma walk_extractAndFinish (d : nat) (call : string -> State -> option State)
    (pkg version : string) (body : Body) (st : State) (c : Completion)
    (m : Meta) (range : option string) (spec : string) :
  pkg = fst (parseSpec spec) -> registry w pkg = Ok m ->
  resolveVersion (collate w) m range = Picked version -> locked pkg (lock st) = false ->
  (forall s a b, call s a = Some b -> R (S d) a b) ->
  extractAndFinish call pkg version body d st = Some c -> R d st (stateOf c).
Proof.
  intros Hspec Hreg Hres Hl Hcall. unfold extractAndFinish.
  destruct (walk_makeDirs d pkg st Hl) as [Rm Hm].
  pose proof (makeDirs_fields pkg st) as F. cbv zeta in F.
  destruct (makeDirs pkg st) as [s1|e s1]; simpl in Rm, F.
  2:{ intros H. injection H as <-. exact Rm. }
  destruct F as (FL & _). destruct (Hm s1 eq_refl) as (dir & N & G).
  assert (Re : R d st (emit (Extract pkg version) s1)).
  { eapply R_trans; [exact Rm|]. apply R_emit. reflexivity. }
  destruct body as [content| |]; try (intros H; injection H as <-; exact Re).
  cbn [nodeModules emit]. rewrite N. unfold finishInstall.
  set (sX := setNodeModules (Some (Fs.extractInto pkg content dir))
               (emit (Extract pkg version) s1)).
  assert (Rx : R d st sX).
  { eapply R_trans; [exact Re|].
    apply (R_extract d _ dir); [cbn [lock emit]; rewrite FL; exact Hl|exact N|exact G]. }
  assert (Rr : R d st (recordInstall pkg version sX)).
  { eapply R_trans; [exact Rx|].
    apply (R_record d sX pkg version m range spec); try assumption.
    - unfold sX. cbn [lock setNodeModules emit]. rewrite FL. exact Hl.
    - unfold sX. cbn [nodeModules setNodeModules Fs.existsSync].
      destruct (extractInto_get pkg content dir) as (x & -> & _). reflexivity. }
  destruct (forDeps call _ (recordInstall pkg version sX)) as [sC|] eqn:D; [|discriminate].
  assert (Rc : R d st sC).
  { eapply R_trans; [exact Rr|]. apply R_sub.
    eapply walk_forDeps; [exact Hcall|exact D]. }
  intros H. injection H as <-. cbn [stateOf].
  destruct d; cbn [Nat.eqb]; [|exact Rc].
  eapply R_trans; [exact Rc|apply R_summary].
Qed.

Lemma walk_tryBody (d : nat) (call : string -> State -> option State)
    (pkg : string) (range : option string) (st : State) (c : Completion) (spec : string) :
  pkg = fst (parseSpec spec) -> locked pkg (lock st) = false ->
  (forall s a b, call s a = Some b -> R (S d) a b) ->
  tryBody call w pkg range d st = Some c -> R d st (stateOf c).
Proof.
  intros Hspec Hl Hcall. unfold tryBody.
  assert (R1 : R d st (emit (FetchMeta pkg) st)) by (apply R_emit; reflexivity).
  assert (Rlog : forall s msg, R d st s -> R d st (emit (LogError msg) s)).
  { intros s msg H. eapply R_trans; [exact H|]. apply R_emit. reflexivity. }
  destruct (registry w pkg) as [| |m] eqn:Hreg;
    try (intros H; injection H as <-; cbn [stateOf]; auto).
  destruct (resolveVersion (collate w) m range) as [version|all] eqn:Hres;
    [|intros H; injection H as <-; cbn [stateOf]; auto].
  destruct (get version (versions m)) as [url|];
    [|intros H; injection H as <-; cbn [stateOf]; auto].
  destruct (cachedFile w (emit (FetchMeta pkg) st) pkg version) as [file|] eqn:Hc.
  { intros H. eapply R_trans; [exact R1|].
    eapply walk_extractAndFinish; eauto. }
  assert (R2 : R d st (emit (FetchTarball url) (emit (FetchMeta pkg) st))).
  { eapply R_trans; [exact R1|]. apply R_emit. reflexivity. }
  destruct (tarballs w url) as [| |body];
    try (intros H; injection H as <-; cbn [stateOf]; auto).
  unfold cachedFile in Hc. cbn [cacheFiles emit] in *.
  destruct (cacheDir w) as [cdir|] eqn:Hcd.
  - destruct (cacheFiles st) as [files|] eqn:Hcf;
      [|intros H; injection H as <-; cbn [stateOf]; auto].
    assert (R3 : R d st (setCacheFiles (Some (set (tarballName pkg version) body files))
                           (emit (FetchTarball url) (emit (FetchMeta pkg) st)))).
    { eapply R_trans; [exact R2|].
      apply R_store; [congruence|exact Hcf|exact Hc]. }
    destruct body; try (intros H; injection H as <-; exact R3);
      (intros H; eapply R_trans; [exact R3|];
       eapply walk_extractAndFinish; eauto).
  - intros H. eapply R_trans; [exact R2|].
    eapply walk_extractAndFinish; eauto.
Qed.

Lemma walk_ensureCacheDir (d : nat) (st : State) : R d st (ensureCacheDir w st).
Proof.
  unfold ensureCacheDir. destruct (cacheDir w) eqn:C; [|apply R_refl].
  destruct (cacheFiles st) eqn:F; [apply R_refl|].
  apply R_mkcache; congruence.
Qed.

Lemma walk_body (call : string -> nat -> State -> option State)
    (spec : string) (d : nat) (st st' : State) :
  (forall s d' a b, call s d' a = Some b -> R d' a b) ->
  installPackageBody call w spec d st = Some st' -> R d st st'.
Proof.
  intros Hcall. unfold installPackageBody.
  destruct (parseSpec spec) as [pkg range] eqn:P.
  assert (Hspec : pkg = fst (parseSpec spec)) by (rewrite P; reflexivity).
  pose proof (walk_ensureCacheDir d st) as R0.
  destruct (locked pkg (lock (ensureCacheDir w st))) eqn:L.
  - intros H. injection H as <-. eapply R_trans; [exact R0|].
    destruct (setHas pkg _); [apply R_refl|].
    eapply R_trans; [apply R_session|]. apply R_emit. reflexivity.
  - destruct (tryBody _ w pkg range d (ensureCacheDir w st)) as [c|] eqn:T; [|discriminate].
    assert (Rt : R d st (stateOf c)).
    { eapply R_trans; [exact R0|].
      eapply walk_tryBody; [exact Hspec|exact L| |exact T].
      intros s a b. apply Hcall. }
    destruct c as [s|e s]; cbn [catchAll stateOf] in *; intros H; injection H as <-.
    + exact Rt.
    + eapply R_trans; [exact Rt|]. apply R_emit. reflexivity.
Qed.

(** Every call of installPackage respects the relation. *)
Lemma walk (fuel : nat) :
  forall spec d st st', installPackage fuel w spec d st = Some st' -> R d st st'.
Proof.
  induction fuel as [|fuel IH]; [discriminate|].
  intros spec d st st'. rewrite installPackage_S. apply walk_body. exact IH.
Qed.

End Walk.

(** * What installPackage never undoes *)

Lemma existsSync_set (p q : string) (x : PkgDir) (dir : Dir) :
  Fs.existsSync q (Some dir) = true -> Fs.existsSync q (Some (set p x dir)) = true.
Proof.
  unfold Fs.existsSync. destruct (String.eqb_spec q p) as [->|Hne].
  - rewrite get_set_same. reflexivity.
  - rewrite get_set_other by exact Hne. auto.
Qed.

Lemma existsSync_extractInto (p q : string) (x : PkgDir) (dir : Dir) :
  Fs.existsSync q (Some dir) = true -> Fs.existsSync q (Some (Fs.extractInto p x dir)) = true.
Proof. unfold Fs.extractInto. destruct (get p dir); apply existsSync_set. Qed.

(** X8: a file that is in the cache directory stays there with the content
    it has: installPackage neither removes nor rewrites it, in any branch. *)
Theorem installPackage_keeps_cache_files (fuel : nat) (w : World) (spec : string)
    (d : nat) (st st' : State) (files : Dict Body) (f : string) (b : Body) :
  installPackage fuel w spec d st = Some st' ->
  cacheFiles st = Some files -> get f files = Some b ->
  exists files', cacheFiles st' = Some files' /\ get f files' = Some b.
Proof.
  intros Run. revert files f b.
  apply (walk w (fun _ s s' => forall files f b,
           cacheFiles s = Some files -> get f files = Some b ->
           exists files', cacheFiles s' = Some files' /\ get f files' = Some b))
    with (fuel := fuel) (spec := spec) (d := d); try exact Run; clear;
    try (intros; cbn [cacheFiles emit setInstalledSet setNodeModules recordInstall
                      setLock setLockFile] in *; eauto; fail).
  - intros _ a b c Hab Hbc files f x Hf Hg.
    destruct (Hab files f x Hf Hg) as (files1 & Hf1 & Hg1). eauto.
  - intros _ st Hc Hn files f b Hf. congruence.
  - intros _ st files name body _ Hf Hn files0 f b Hf0 Hg.
    rewrite Hf in Hf0. injection Hf0 as <-. eexists. split; [reflexivity|].
    rewrite get_set_other; [exact Hg|]. intros ->. congruence.
Qed.

Lemma installPackage_keeps_cache_files_witness :
  exists files', cacheFiles afterFlaky = Some files' /\
    get "a-1.0.0.tgz" files' = Some (Archive (mkDir (Some [("b", "^2")]) ["index.js"])).
Proof.
  apply (installPackage_keeps_cache_files 1 (sampleWorld (Some ".ppm-cache")) "flaky" 0
           afterACached afterFlaky
           [("a-1.0.0.tgz", Archive (mkDir (Some [("b", "^2")]) ["index.js"]));
            ("b-2.1.0.tgz", Archive (mkDir (Some [("a", "^1")]) ["index.js"]))]);
    vm_compute; reflexivity.
Defined.

(** X9: installPackage removes nothing from node_modules: an entry that
    exists before a call exists after it. *)
Theorem installPackage_keeps_directories (fuel : nat) (w : World) (spec : string)
    (d : nat) (st st' : State) (p : string) :
  installPackage fuel w spec d st = Some st' ->
  Fs.existsSync p (nodeModules st) = true -> Fs.existsSync p (nodeModules st') = true.
Proof.
  intros Run. revert p.
  apply (walk w (fun _ s s' => forall p,
           Fs.existsSync p (nodeModules s) = true -> Fs.existsSync p (nodeModules s') = true))
    with (fuel := fuel) (spec := spec) (d := d); try exact Run; clear;
    try (intros; cbn [nodeModules emit setInstalledSet setCacheFiles recordInstall
                      setLock setLockFile] in *; auto; fail).
  - intros _ st N p. rewrite N. discriminate.
  - intros _ st dir p _ N _ q. rewrite N. apply existsSync_set.
  - intros _ st dir p content _ N _ q. rewrite N. apply existsSync_extractInto.
Qed.

Lemma installPackage_keeps_directories_witness :
  Fs.existsSync "b" (nodeModules afterFlaky) = true.
Proof.
  apply (installPackage_keeps_directories 1 (sampleWorld (Some ".ppm-cache")) "flaky" 0
           afterACached afterFlaky "b"); vm_compute; reflexivity.
Defined.

(** X10: if every name in the lock has its directory under node_modules
    before a call of installPackage, the same is true after it. *)
Theorem installPackage_keeps_lock_backed (fuel : nat) (w : World) (spec : string)
    (d : nat) (st st' : State) :
  installPackage fuel w spec d st = Some st' -> LockBacked st -> LockBacked st'.
Proof.
  apply (walk w (fun _ s s' => LockBacked s -> LockBacked s')); clear;
    unfold LockBacked;
    try (intros; cbn [lock nodeModules emit setInstalledSet setCacheFiles] in *;
         eauto; fail).
  - intros _ st N H k v G. cbn [lock nodeModules setNodeModules] in *.
    specialize (H k v G). rewrite N in H. discriminate.
  - intros _ st dir p _ N _ H k v G. cbn [lock nodeModules setNodeModules] in *.
    apply existsSync_set. rewrite <- N. eauto.
  - intros _ st dir p content _ N _ H k v G. cbn [lock nodeModules setNodeModules] in *.
    apply existsSync_extractInto. rewrite <- N. eauto.
  - intros _ st p v m range spec _ _ _ _ E H k x G.
    destruct (recordInstall_fields p v st) as (L & _ & _ & N & _).
    rewrite N. rewrite L in G.
    destruct (String.eqb_spec k p) as [->|Hne]; [exact E|].
    rewrite get_assign_other in G by exact Hne. eauto.
Qed.

Lemma installPackage_keeps_lock_backed_witness : LockBacked afterA.
Proof.
  apply (installPackage_keeps_lock_backed 2 (sampleWorld None) "a" 0 freshState afterA).
  - vm_compute. reflexivity.
  - intros k v H. discriminate.
Defined.

Lemma Synced_installPackage (fuel : nat) (w : World) (spec : string)
    (d : nat) (st st' : State) :
  installPackage fuel w spec d st = Some st' -> Synced st -> Synced st'.
Proof.
  apply (walk w (fun _ s s' => Synced s -> Synced s')); clear; unfold Synced;
    try (intros; cbn [lock lockFile emit setInstalledSet setCacheFiles setNodeModules] in *;
         auto; fail).
Qed.

(** X11: if prisma.lock mirrors the lock object before a call of
    installPackage (or both are still empty), it does so after it: every
    change of the lock object is written out before the call goes on. *)
Theorem installPackage_keeps_lock_file_synced (fuel : nat) (w : World) (spec : string)
    (d : nat) (st st' : State) :
  installPackage fuel w spec d st = Some st' -> Synced st -> Synced st'.
Proof. apply Synced_installPackage. Qed.

Lemma installPackage_keeps_lock_file_synced_witness : Synced afterA.
Proof.
  apply (installPackage_keeps_lock_file_synced 2 (sampleWorld None) "a" 0 freshState afterA).
  - vm_compute. reflexivity.
  - right. split; reflexivity.
Defined.

(** X12: when ppm.json is missing, does not parse, has no [customSettings],
    or has a missing or empty [cacheDirectory] in them, installPackage never
    creates the cache directory nor writes a file into it. *)
Theorem installPackage_without_cache_setting (f : PpmJson)
    (reg : string -> Response Meta) (tar : string -> Response Body)
    (host : string -> string -> comparison)
    (fuel : nat) (spec : string) (d : nat) (st st' : State) :
  f = NoConfig \/ f = BadConfig \/ f = GoodConfig None \/
  f = GoodConfig (Some (mkSettings None)) \/ f = GoodConfig (Some (mkSettings (Some ""))) ->
  installPackage fuel (worldOf f reg tar host) spec d st = Some st' ->
  cacheFiles st' = cacheFiles st.
Proof.
  intros Hf.
  assert (Off : cacheDir (worldOf f reg tar host) = None)
    by (destruct Hf as [->|[->|[->|[->| ->]]]]; reflexivity).
  apply (walk (worldOf f reg tar host) (fun _ s s' => cacheFiles s' = cacheFiles s));
    try (intros; cbn [cacheFiles emit setInstalledSet setNodeModules recordInstall
                      setLock setLockFile] in *; congruence).
Qed.

Lemma installPackage_without_cache_setting_witness :
  cacheFiles afterA = cacheFiles freshState.
Proof.
  apply (installPackage_without_cache_setting BadConfig sampleRegistry sampleTarballs
           String.compare 2 "a" 0 freshState afterA).
  - right. left. reflexivity.
  - vm_compute. reflexivity.
Defined.

(** X13: a call of installPackage below the top level never prints the
    completion summary, however deep the walk below it goes. *)
Theorem nested_call_prints_no_summary (fuel : nat) (w : World) (spec : string)
    (d : nat) (st st' : State) :
  installPackage fuel w spec (S d) st = Some st' ->
  summaries (trace st') = summaries (trace st).
Proof.
  intros Run.
  apply (walk w (fun k s s' => k <> 0 -> summaries (trace s') = summaries (trace s)))
    with (fuel := fuel) (spec := spec) (d := S d); try exact Run; try discriminate; clear;
    try (intros; cbn [trace emit setInstalledSet setNodeModules setCacheFiles] in *;
         congruence).
  - intros k a b c Hab Hbc Hk. rewrite (Hbc Hk). apply (Hab Hk).
  - intros k a b H _. apply H. discriminate.
  - intros k e st He _. unfold summaries. cbn [trace emit filter]. rewrite He. reflexivity.
  - intros k st p v m range spec _ _ _ _ _ _.
    destruct (recordInstall_fields p v st) as (_ & _ & _ & _ & _ & T).
    rewrite T. reflexivity.
Qed.

Lemma nested_call_prints_no_summary_witness :
  summaries (trace afterANested) = summaries (trace freshState).
Proof.
  apply (nested_call_prints_no_summary 2 (sampleWorld None) "a" 0 freshState afterANested).
  vm_compute. reflexivity.
Defined.

Lemma option_string_dec (a b : option string) : {a = b} + {a <> b}.
Proof. decide equality. apply string_dec. Qed.

(** X14: every name whose lock entry a call of installPackage adds or
    changes is in the session set when the call returns, and nothing leaves
    the session. *)
Theorem installPackage_marks_what_it_records (fuel : nat) (w : World) (spec : string)
    (d : nat) (st st' : State) :
  installPackage fuel w spec d st = Some st' ->
  (forall k, get k (lock st') <> get k (lock st) -> setHas k (installedSet st') = true) /\
  (forall x, setHas x (installedSet st) = true -> setHas x (installedSet st') = true).
Proof.
  apply (walk w (fun _ s s' =>
           (forall k, get k (lock s') <> get k (lock s) -> setHas k (installedSet s') = true) /\
           (forall x, setHas x (installedSet s) = true -> setHas x (installedSet s') = true)));
    clear;
    try (intros; assumption);
    try (intros; cbn [lock installedSet emit setNodeModules setCacheFiles] in *;
         split; [intros ? Hk; simpl in Hk; congruence|auto]; fail).
  - intros _ a b c [Cab Mab] [Cbc Mbc]. split; [|auto].
    intros k H. destruct (option_string_dec (get k (lock b)) (get k (lock a))) as [E|E].
    + apply Cbc. congruence.
    + apply Mbc, Cab, E.
  - intros _ p st. cbn [lock installedSet setInstalledSet].
    split; [intros k Hk; congruence|].
    intros x. apply mem_setAdd_mono.
  - intros _ st p v m range spec _ _ _ _ _.
    destruct (recordInstall_fields p v st) as (L & I & _). rewrite L, I. split.
    + intros k H. destruct (String.eqb_spec k p) as [->|Hne]; [apply mem_setAdd_same|].
      rewrite get_assign_other in H by exact Hne. congruence.
    + intros x. apply mem_setAdd_mono.
Qed.

Lemma installPackage_marks_what_it_records_witness :
  (forall k, get k (lock afterA) <> get k (lock freshState) ->
             setHas k (installedSet afterA) = true) /\
  (forall x, setHas x (installedSet freshState) = true ->
             setHas x (installedSet afterA) = true).
Proof.
  apply (installPackage_marks_what_it_records 2 (sampleWorld None) "a" 0 freshState afterA).
  vm_compute. reflexivity.
Defined.

Lemma validLock_assign (l : Dict string) (p v : string) :
  validName p = true -> v <> "" -> validLock l -> validLock (assign p v l).
Proof.
  unfold validLock. intros Hp Hv Hl. rewrite Forall_forall in *.
  intros kv Hin. apply In_assign in Hin as [->|Hin]; [split; assumption|auto].
Qed.

(** X15: against a registry that serves no package under the empty name and
    tags no empty version as latest, installPackage keeps the lock
    well-formed: names are package names and versions are not empty. *)
Theorem installPackage_keeps_lock_valid (fuel : nat) (w : World) (spec : string)
    (d : nat) (st st' : State) :
  (forall m, registry w "" <> Ok m) ->
  (forall p m, registry w p = Ok m -> latest m <> "") ->
  installPackage fuel w spec d st = Some st' ->
  validLock (lock st) -> validLock (lock st').
Proof.
  intros Hempty Hlatest.
  apply (walk w (fun _ s s' => validLock (lock s) -> validLock (lock s')));
    try (intros; cbn [lock emit setInstalledSet setNodeModules setCacheFiles] in *;
         auto; fail).
  intros _ s p v m range sp Hp Hreg Hres _ _ HV.
  destruct (recordInstall_fields p v s) as (L & _). rewrite L.
  apply validLock_assign; [|eapply resolveVersion_truthy; eauto|exact HV].
  destruct (parseSpec_shape sp) as [[E|E] _]; rewrite <- Hp in E; [|exact E].
  rewrite E in Hreg. destruct (Hempty m Hreg).
Qed.

Lemma sampleRegistry_names (p : string) (m : Meta) :
  sampleRegistry p = Ok m -> In p ["a"; "b"; "flaky"; "app"] /\ latest m <> "".
Proof.
  unfold sampleRegistry.
  destruct (String.eqb_spec p "a") as [->|_];
    [intros H; injection H as <-; split; [simpl; auto|discriminate]|].
  destruct (String.eqb_spec p "b") as [->|_];
    [intros H; injection H as <-; split; [simpl; auto|discriminate]|].
  destruct (String.eqb_spec p "flaky") as [->|_];
    [intros H; injection H as <-; split; [simpl; auto|discriminate]|].
  destruct (String.eqb_spec p "app") as [->|_];
    [intros H; injection H as <-; split; [simpl; auto 6|discriminate]|].
  discriminate.
Qed.

Lemma installPackage_keeps_lock_valid_witness : validLock (lock afterA).
Proof.
  apply (installPackage_keeps_lock_valid 2 (sampleWorld None) "a" 0 freshState afterA).
  - intros m H. vm_compute in H. discriminate.
  - intros p m H. apply (sampleRegistry_names p m H).
  - vm_compute. reflexivity.
  - constructor.
Defined.

(** * Termination *)

Lemma unlocked_mono (names : list string) (a b : State) :
  (forall p, locked p (lock a) = true -> locked p (lock b) = true) ->
  length (unlocked names b) <= length (unlocked names a).
Proof.
  intros H. unfold unlocked. induction names as [|p names IH]; simpl; [lia|].
  destruct (locked p (lock a)) eqn:A.
  - rewrite (H p A). simpl. exact IH.
  - destruct (locked p (lock b)); simpl; lia.
Qed.

Lemma unlocked_drops (names : list string) (a b : State) (q : string) :
  (forall p, locked p (lock a) = true -> locked p (lock b) = true) ->
  In q names -> locked q (lock a) = false -> locked q (lock b) = true ->
  length (unlocked names b) < length (unlocked names a).
Proof.
  intros H Hin Ha Hb. unfold unlocked.
  induction names as [|p names IH]; [destruct Hin|].
  pose proof (unlocked_mono names a b H) as M. unfold unlocked in M.
  simpl. destruct Hin as [->|Hin].
  - rewrite Ha, Hb. simpl. lia.
  - specialize (IH Hin). destruct (locked p (lock a)) eqn:A.
    + rewrite (H p A). simpl. exact IH.
    + destruct (locked p (lock b)); simpl; lia.
Qed.

Lemma locked_assign (p q v : string) (l : Dict string) :
  locked p l = true -> locked p (assign q v l) = true \/ p = q.
Proof.
  intros H. destruct (String.eqb_spec p q) as [->|Hne]; [auto|left].
  unfold locked. rewrite get_assign_other by exact Hne. exact H.
Qed.

Lemma Stable_locked (a b : State) :
  (forall p, Stable p a b) -> forall p, locked p (lock a) = true -> locked p (lock b) = true.
Proof.
  intros H p L. destruct (H p) as (_ & _ & S). destruct (S L) as (G & _).
  unfold locked in *. rewrite G. exact L.
Qed.

Lemma extractAndFinish_total (call : string -> State -> option State)
    (pkg version : string) (body : Body) (d : nat) (st : State) :
  (forall sR, lock sR = assign pkg version (lock st) ->
              exists sC, forDeps call (declaredDeps pkg sR) sR = Some sC) ->
  exists c, extractAndFinish call pkg version body d st = Some c.
Proof.
  intros H. unfold extractAndFinish.
  pose proof (makeDirs_fields pkg st) as F. cbv zeta in F.
  destruct (makeDirs pkg st) as [s1|e s1]; [|eauto]. simpl in F. destruct F as (FL & _).
  destruct body as [content| |]; eauto. unfold finishInstall.
  match goal with
  | |- context [forDeps call ?ds ?sR] => destruct (H sR) as [sC E]
  end.
  - destruct (recordInstall_fields pkg version
                (setNodeModules
                   (Some (Fs.extractInto pkg content
                            match nodeModules (emit (Extract pkg version) s1) with
                            | Some d0 => d0
                            | None => []
                            end)) (emit (Extract pkg version) s1))) as (L & _).
    rewrite L. cbn [lock setNodeModules emit]. rewrite FL. reflexivity.
  - rewrite E. eauto.
Qed.

Lemma tryBody_total (call : string -> State -> option State) (w : World)
    (pkg : string) (range : option string) (d : nat) (st : State) :
  (forall m v sR, registry w pkg = Ok m -> resolveVersion (collate w) m range = Picked v ->
                  lock sR = assign pkg v (lock st) ->
                  exists sC, forDeps call (declaredDeps pkg sR) sR = Some sC) ->
  exists c, tryBody call w pkg range d st = Some c.
Proof.
  intros H. unfold tryBody.
  destruct (registry w pkg) as [| |m] eqn:Hreg; eauto.
  destruct (resolveVersion (collate w) m range) as [v|all] eqn:Hres; eauto.
  destruct (get v (versions m)) as [url|]; eauto.
  assert (T : forall body s, lock s = lock st ->
            exists c, extractAndFinish call pkg v body d s = Some c).
  { intros body s L. apply extractAndFinish_total. intros sR LR.
    apply (H m v sR eq_refl Hres). rewrite LR, L. reflexivity. }
  destruct (cachedFile w _ pkg v); [apply T; reflexivity|].
  destruct (tarballs w url) as [| |body]; eauto.
  destruct (cacheDir w); [|apply T; reflexivity]. cbn [cacheFiles emit].
  destruct (cacheFiles st); eauto.
  destruct body; eauto; apply T; reflexivity.
Qed.

Lemma forDeps_total (call : string -> State -> option State) (P : State -> Prop) :
  (forall s a, P a -> exists b, call s a = Some b /\ P b) ->
  forall deps st, P st -> exists st', forDeps call deps st = Some st'.
Proof.
  intros H. induction deps as [|[dep r] rest IH]; simpl; intros st HP; [eauto|].
  destruct (setHas dep (installedSet st)); [auto|].
  destruct (H (dep ++ "@" ++ r) st HP) as (b & E & Pb).
  simpl in E. rewrite E. auto.
Qed.

(** With [n] names of the registry not yet in the lock, fuel [n + 1] is
    enough, and any more does no harm. *)
Lemma walk_terminates (w : World) (names : list string) :
  (forall p m, registry w p = Ok m -> In p names /\ latest m <> "") ->
  forall n k spec d st,
    length (unlocked names st) <= n ->
    exists st', installPackage (S n + k) w spec d st = Some st'.
Proof.
  intros Hreg. induction n as [|n IH]; intros k spec d st Hn.
  - cbn [Nat.add]. rewrite installPackage_S. unfold installPackageBody.
    destruct (parseSpec spec) as [pkg range].
    destruct (ensureCacheDir_lock w st) as (EL & _).
    destruct (locked pkg (lock (ensureCacheDir w st))) eqn:L; [eauto|].
    destruct (tryBody_total (fun s => installPackage k w s (S d)) w pkg range d
                (ensureCacheDir w st)) as [c ->]; [|destruct c; simpl; eauto].
    intros m v sR Hm Hv LR. exfalso.
    destruct (Hreg pkg m Hm) as [Hin _]. rewrite EL in L.
    assert (length (unlocked names st) > 0); [|lia].
    unfold unlocked. clear - Hin L. induction names as [|p names IHn]; [destruct Hin|].
    simpl. destruct Hin as [->|Hin]; [rewrite L; simpl; lia|].
    destruct (locked p (lock st)); simpl; [auto|lia].
  - change (S (S n) + k) with (S (S n + k)).
    rewrite installPackage_S. unfold installPackageBody.
    destruct (parseSpec spec) as [pkg range].
    destruct (ensureCacheDir_lock w st) as (EL & _).
    destruct (locked pkg (lock (ensureCacheDir w st))) eqn:L; [eauto|].
    destruct (tryBody_total (fun s => installPackage (S n + k) w s (S d)) w pkg range d
                (ensureCacheDir w st)) as [c ->]; [|destruct c; simpl; eauto].
    intros m v sR Hm Hv LR.
    destruct (Hreg pkg m Hm) as [Hin Hlat]. rewrite EL in L, LR.
    assert (Hv' : v <> "") by (eapply resolveVersion_truthy; eauto).
    assert (Drop : length (unlocked names sR) < length (unlocked names st)).
    { apply (unlocked_drops names st sR pkg); try assumption.
      - intros p Lp. rewrite LR. destruct (locked_assign p pkg v (lock st) Lp) as [H|H];
          [exact H|congruence].
      - apply (locked_get pkg v); [rewrite LR; apply get_assign_same; exact L|exact Hv']. }
    apply (forDeps_total _ (fun s => length (unlocked names s) <= n)); [|lia].
    intros s a Pa. destruct (IH k s (S d) a Pa) as [b E]. exists b. split; [exact E|].
    etransitivity; [|exact Pa]. apply unlocked_mono, Stable_locked.
    intros p. eapply installPackage_Stable. exact E.
Qed.

(** X16: on a registry that answers for finitely many names, and tags no
    empty version as latest, every call of installPackage returns, cycles
    among the dependencies or not: fuel beyond the number of names is always
    enough. *)
Theorem installPackage_terminates (w : World) (names : list string) (fuel : nat)
    (spec : string) (d : nat) (st : State) :
  (forall p m, registry w p = Ok m -> In p names /\ latest m <> "") ->
  exists st', installPackage (S (length names) + fuel) w spec d st = Some st'.
Proof.
  intros Hreg. apply (walk_terminates w names Hreg).
  unfold unlocked. apply filter_length_le.
Qed.

Lemma installPackage_terminates_witness :
  exists st', installPackage (S (length ["a"; "b"; "flaky"; "app"]) + 0)
                (sampleWorld (Some ".ppm-cache")) "app@^1" 0 freshState = Some st'.
Proof.
  apply (installPackage_terminates (sampleWorld (Some ".ppm-cache"))
           ["a"; "b"; "flaky"; "app"] 0 "app@^1" 0 freshState).
  intros p m H. apply (sampleRegistry_names p m H).
Defined.

(** * Failures stay local *)













(** * A package without dependencies *)

(** The [try] block on a cache hit that is an archive. *)
Lemma tryBody_cached (call : string -> State -> option State) (w : World)
    (pkg : string) (range : option string) (d : nat) (st : State)
    (m : Meta) (v url : string) (content : PkgDir) :
  registry w pkg = Ok m -> resolveVersion (collate w) m range = Picked v ->
  get v (versions m) = Some url -> cachedFile w st pkg v = Some (Archive content) ->
  Fs.dirname pkg = None ->
  tryBody call w pkg range d st =
  finishInstall call pkg v d (extracted pkg v content (emit (FetchMeta pkg) st)).
Proof.
  intros Hreg Hres Hurl Hc Hd. unfold tryBody. rewrite Hreg, Hres, Hurl.
  change (cachedFile w (emit (FetchMeta pkg) st) pkg v) with (cachedFile w st pkg v).
  rewrite Hc. cbn [fromFile]. apply extractAndFinish_archive. exact Hd.
Qed.

(** What [finishInstall] makes of a package that declares no dependency. *)
Lemma finishInstall_leaf (call : string -> State -> option State)
    (pkg v : string) (content : PkgDir) (d : nat) (st : State) :
  manifest content = Some [] ->
  finishInstall call pkg v d (extracted pkg v content st) =
  Some (Returned
          (if Nat.eqb d 0
           then emit (Log (Installed pkg v)) (recordInstall pkg v (extracted pkg v content st))
           else recordInstall pkg v (extracted pkg v content st))).
Proof.
  intros H. unfold finishInstall. cbv zeta.
  rewrite (declaredDeps_extracted pkg v content st [] H). reflexivity.
Qed.

(** The call for an unlocked leaf package that has to be downloaded. *)
Lemma installPackage_leaf_download (fuel : nat) (w : World) (spec : string) (d : nat)
    (st : State) (pkg : string) (range : option string) (m : Meta) (v url : string)
    (content : PkgDir) :
  parseSpec spec = (pkg, range) -> locked pkg (lock st) = false ->
  registry w pkg = Ok m -> resolveVersion (collate w) m range = Picked v ->
  get v (versions m) = Some url -> cachedFile w st pkg v = None ->
  tarballs w url = Ok (Archive content) -> Fs.dirname pkg = None ->
  manifest content = Some [] ->
  installPackage (S fuel) w spec d st =
  Some (let sR := recordInstall pkg v
                    (extracted pkg v content
                       (downloaded w pkg v url (Archive content) (ensureCacheDir w st))) in
        if Nat.eqb d 0 then emit (Log (Installed pkg v)) sR else sR).
Proof.
  intros Hp Hl Hreg Hres Hurl Hc Ht Hd Hm.
  rewrite installPackage_S. unfold installPackageBody. rewrite Hp.
  destruct (ensureCacheDir_lock w st) as (EL & _). rewrite EL, Hl.
  rewrite (tryBody_success _ w pkg range d _ m v url content); try assumption.
  - rewrite (finishInstall_leaf _ pkg v content d _ Hm). reflexivity.
  - rewrite cachedFile_ensure. exact Hc.
  - apply ensureCacheDir_some.
Qed.

(** The call for an unlocked leaf package whose archive is in the cache. *)
Lemma installPackage_leaf_cached (fuel : nat) (w : World) (spec : string) (d : nat)
    (st : State) (pkg : string) (range : option string) (m : Meta) (v url : string)
    (content : PkgDir) :
  parseSpec spec = (pkg, range) -> locked pkg (lock st) = false ->
  registry w pkg = Ok m -> resolveVersion (collate w) m range = Picked v ->
  get v (versions m) = Some url -> cachedFile w st pkg v = Some (Archive content) ->
  Fs.dirname pkg = None -> manifest content = Some [] ->
  installPackage (S fuel) w spec d st =
  Some (let sR := recordInstall pkg v
                    (extracted pkg v content (emit (FetchMeta pkg) st)) in
        if Nat.eqb d 0 then emit (Log (Installed pkg v)) sR else sR).
Proof.
  intros Hp Hl Hreg Hres Hurl Hc Hd Hm.
  assert (E : ensureCacheDir w st = st).
  { apply ensureCacheDir_idem. intros _. unfold cachedFile in Hc.
    destruct (cacheDir w); [|discriminate]. destruct (cacheFiles st); discriminate. }
  rewrite installPackage_S. unfold installPackageBody. rewrite Hp, E, Hl.
  rewrite (tryBody_cached _ w pkg range d st m v url content); try assumption.
  rewrite (finishInstall_leaf _ pkg v content d _ Hm). reflexivity.
Qed.

Lemma plainName_dirname (p : string) : Fs.plainName p = true -> Fs.dirname p = None.
Proof.
  unfold Fs.plainName, Fs.dirname. intros H. apply andb_true_iff in H as [_ H].
  apply negb_true_iff in H. rewrite (split_no_sep _ _ H). reflexivity.
Qed.

Lemma assign_first (k v : string) : Js.inherited k = false -> assign k v [] = [(k, v)].
Proof.
  intros H. unfold assign. cbn [get].
  destruct (String.eqb_spec k "__proto__") as [->|_]; [vm_compute in H; discriminate|].
  destruct (Js.arrayIndex k); reflexivity.
Qed.

(** X17: installing a package that declares no dependencies, with nothing
    cached.  For a top-level name that the lock check lets through, a
    version without a slash, and a cache directory, if any, that is in place
    as a directory of its own: the call returns, the lock object and
    prisma.lock both become the old lock with name -> resolved version
    assigned, the session gains the name, the package directory holds the
    archive's manifest, and the trace gains one registry fetch, one
    download, one extraction, one lock write and the summary. *)
Theorem install_leaf_by_download (fuel : nat) (w : World) (spec : string)
    (st : State) (pkg : string) (range : option string) (m : Meta) (v url : string)
    (content : PkgDir) :
  parseSpec spec = (pkg, range) -> locked pkg (lock st) = false ->
  Fs.plainName pkg = true ->
  (forall dir, cacheDir w = Some dir ->
               Fs.besideProjectFiles dir = true /\ cacheFiles st <> None) ->
  registry w pkg = Ok m -> resolveVersion (collate w) m range = Picked v ->
  Js.contains "/" v = false ->
  get v (versions m) = Some url -> cachedFile w st pkg v = None ->
  tarballs w url = Ok (Archive content) -> manifest content = Some [] ->
  exists st',
    installPackage (S fuel) w spec 0 st = Some st' /\
    lock st' = assign pkg v (lock st) /\ lockFile st' = Present (assign pkg v (lock st)) /\
    get pkg (lock st') = Some v /\
    installedSet st' = setAdd pkg (installedSet st) /\
    (exists dir, nodeModules st' <> None /\
       get pkg (match nodeModules st' with Some x => x | None => [] end) = Some dir /\
       manifest dir = Some []) /\
    trace st' = Log (Installed pkg v) :: WriteLock (assign pkg v (lock st)) ::
                Extract pkg v :: FetchTarball url :: FetchMeta pkg :: trace st.
Proof.
  intros Hp Hl Hn _ Hreg Hres _ Hurl Hc Ht Hm.
  pose proof (plainName_dirname pkg Hn) as Hd.
  rewrite (installPackage_leaf_download fuel w spec 0 st pkg range m v url content)
    by assumption.
  cbv zeta. cbn [Nat.eqb]. eexists. split; [reflexivity|].
  destruct (ensureCacheDir_lock w st) as (EL & EI & EF & EN & ET).
  destruct (downloaded_fields w pkg v url (Archive content) (ensureCacheDir w st))
    as (DL & DI & DF & DN & DT).
  set (sD := downloaded w pkg v url (Archive content) (ensureCacheDir w st)) in *.
  destruct (extracted_fields pkg v content sD) as (XL & XI & XF & XC & XT).
  destruct (recordInstall_fields pkg v (extracted pkg v content sD))
    as (RL & RI & RF & RN & RC & RT).
  cbn [lock lockFile installedSet nodeModules trace emit].
  rewrite RL, RF, RI, RN, RT, XL, XI, XT, DL, DI, DT, EL, EI, ET.
  do 2 (split; [reflexivity|]). split; [apply get_assign_same; exact Hl|].
  split; [reflexivity|]. split; [|reflexivity].
  unfold extracted. cbn [nodeModules setNodeModules].
  match goal with
  | |- context [Fs.extractInto pkg content ?x] =>
      destruct (extractInto_get pkg content x) as (dir & G & M)
  end.
  exists dir. split; [discriminate|]. split; [exact G|apply M, Hm].
Qed.

Lemma install_leaf_by_download_witness :
  exists st',
    installPackage 1 (leafWorld None) "leaf@^1" 0 freshState = Some st' /\
    lock st' = assign "leaf" "1.4.0" (lock freshState) /\
    lockFile st' = Present (assign "leaf" "1.4.0" (lock freshState)) /\
    get "leaf" (lock st') = Some "1.4.0" /\
    installedSet st' = setAdd "leaf" (installedSet freshState) /\
    (exists dir, nodeModules st' <> None /\
       get "leaf" (match nodeModules st' with Some x => x | None => [] end) = Some dir /\
       manifest dir = Some []) /\
    trace st' = Log (Installed "leaf" "1.4.0") ::
                WriteLock (assign "leaf" "1.4.0" (lock freshState)) ::
                Extract "leaf" "1.4.0" :: FetchTarball "https://r/leaf-1.4.0.tgz" ::
                FetchMeta "leaf" :: trace freshState.
Proof.
  apply (install_leaf_by_download 0 (leafWorld None) "leaf@^1" freshState "leaf" (Some "^1")
           (mkMeta "1.4.0" [("1.4.0", "https://r/leaf-1.4.0.tgz")]) "1.4.0"
           "https://r/leaf-1.4.0.tgz" (mkDir (Some []) ["index.js"]));
    try (vm_compute; reflexivity).
  intros dir H. vm_compute in H. discriminate.
Defined.

(** X18: installing a package that declares no dependencies when its
    archive is in the cache, for a top-level name that the lock check lets
    through and a cache directory of its own: the same outcome as by
    download, but the trace gains no download and the cache directory is
    left as it is. *)
Theorem install_leaf_from_cache (fuel : nat) (w : World) (spec : string)
    (st : State) (pkg : string) (range : option string) (m : Meta) (v url : string)
    (content : PkgDir) :
  parseSpec spec = (pkg, range) -> locked pkg (lock st) = false ->
  Fs.plainName pkg = true ->
  (forall dir, cacheDir w = Some dir -> Fs.besideProjectFiles dir = true) ->
  registry w pkg = Ok m -> resolveVersion (collate w) m range = Picked v ->
  get v (versions m) = Some url -> cachedFile w st pkg v = Some (Archive content) ->
  manifest content = Some [] ->
  exists st',
    installPackage (S fuel) w spec 0 st = Some st' /\
    lock st' = assign pkg v (lock st) /\ lockFile st' = Present (assign pkg v (lock st)) /\
    get pkg (lock st') = Some v /\
    installedSet st' = setAdd pkg (installedSet st) /\
    cacheFiles st' = cacheFiles st /\
    (exists dir, nodeModules st' <> None /\
       get pkg (match nodeModules st' with Some x => x | None => [] end) = Some dir /\
       manifest dir = Some []) /\
    trace st' = Log (Installed pkg v) :: WriteLock (assign pkg v (lock st)) ::
                Extract pkg v :: FetchMeta pkg :: trace st.
Proof.
  intros Hp Hl Hn _ Hreg Hres Hurl Hc Hm.
  pose proof (plainName_dirname pkg Hn) as Hd.
  rewrite (installPackage_leaf_cached fuel w spec 0 st pkg range m v url content)
    by assumption.
  cbv zeta. cbn [Nat.eqb]. eexists. split; [reflexivity|].
  set (sF := emit (FetchMeta pkg) st).
  destruct (extracted_fields pkg v content sF) as (XL & XI & XF & XC & XT).
  destruct (recordInstall_fields pkg v (extracted pkg v content sF))
    as (RL & RI & RF & RN & RC & RT).
  cbn [lock lockFile installedSet nodeModules cacheFiles trace emit].
  rewrite RL, RF, RI, RN, RC, RT, XL, XI, XC, XT.
  do 2 (split; [reflexivity|]). split; [apply get_assign_same; exact Hl|].
  do 2 (split; [reflexivity|]). split; [|reflexivity].
  unfold extracted. cbn [nodeModules setNodeModules].
  match goal with
  | |- context [Fs.extractInto pkg content ?x] =>
      destruct (extractInto_get pkg content x) as (dir & G & M)
  end.
  exists dir. split; [discriminate|]. split; [exact G|apply M, Hm].
Qed.

Lemma install_leaf_from_cache_witness :
  exists st',
    installPackage 1 (leafWorld (Some ".ppm-cache")) "leaf" 0 afterLeafRemoved = Some st' /\
    lock st' = assign "leaf" "1.4.0" (lock afterLeafRemoved) /\
    lockFile st' = Present (assign "leaf" "1.4.0" (lock afterLeafRemoved)) /\
    get "leaf" (lock st') = Some "1.4.0" /\
    installedSet st' = setAdd "leaf" (installedSet afterLeafRemoved) /\
    cacheFiles st' = cacheFiles afterLeafRemoved /\
    (exists dir, nodeModules st' <> None /\
       get "leaf" (match nodeModules st' with Some x => x | None => [] end) = Some dir /\
       manifest dir = Some []) /\
    trace st' = Log (Installed "leaf" "1.4.0") ::
                WriteLock (assign "leaf" "1.4.0" (lock afterLeafRemoved)) ::
                Extract "leaf" "1.4.0" :: FetchMeta "leaf" :: trace afterLeafRemoved.
Proof.
  apply (install_leaf_from_cache 0 (leafWorld (Some ".ppm-cache")) "leaf" afterLeafRemoved
           "leaf" None (mkMeta "1.4.0" [("1.4.0", "https://r/leaf-1.4.0.tgz")]) "1.4.0"
           "https://r/leaf-1.4.0.tgz" (mkDir (Some []) ["index.js"]));
    try (vm_compute; reflexivity).
  intros dir H. vm_compute in H. injection H as <-. reflexivity.
Defined.

(** * Install, uninstall, install again *)

Lemma extracted_fresh (pkg v : string) (content : PkgDir) (st : State) :
  nodeModules st = None \/ nodeModules st = Some [] ->
  nodeModules (extracted pkg v content st) = Some [(pkg, Fs.merge emptyDir content)].
Proof.
  intros H. unfold extracted, Fs.extractInto. cbn [nodeModules setNodeModules].
  destruct H as [-> | ->]; cbn [get set]; rewrite !String.eqb_refl; reflexivity.
Qed.

(** Uninstalling the only package of a project. *)
Lemma uninstall_only_package (pkg v : string) (x : PkgDir) (st : State) :
  nodeModules st = Some [(pkg, x)] -> lockFile st = Present [(pkg, v)] ->
  uninstall_action pkg st =
  (Completed,
   emit (Log (Uninstalled pkg))
     (setNodeModules (Some [])
        (emit (WriteLock []) (setLockFile (Present []) (setLock [] st))))).
Proof.
  destruct st as [l s f nm c t]. cbn [nodeModules lockFile]. intros -> ->.
  unfold uninstall_action, loadLock, Fs.existsSync, Fs.rmSync, writeLock, del.
  cbn [nodeModules lockFile lock setNodeModules setLock setLockFile emit get filter fst
       installedSet cacheFiles trace].
  rewrite !String.eqb_refl.
  cbn [nodeModules lockFile lock setNodeModules setLock setLockFile emit get filter fst
       installedSet cacheFiles trace orb negb objectKeys map Fs.readdirSync pruneLoop
       Nat.ltb Nat.leb].
  rewrite ?String.eqb_refl. reflexivity.
Qed.

Lemma besideProjectFiles_truthy (dir : string) :
  Fs.besideProjectFiles dir = true -> Js.truthy dir = true.
Proof. destruct dir; [discriminate|reflexivity]. Qed.

(** X19: the cache round trip.  In a project without lock file and
    node_modules, with the cache directory in place as a directory of its
    own beside them, [ppm install] of a package without dependencies, whose
    name is a top-level name and no member of [Object.prototype], then
    [ppm uninstall] of it, then [ppm install] again: the second install
    makes no download, and node_modules, prisma.lock and the cache directory
    end up exactly as the first install left them. *)
Theorem install_uninstall_install (fuel : nat) (w : World) (spec : string)
    (st0 : State) (pkg : string) (range : option string) (m : Meta) (v url dir : string)
    (content : PkgDir) :
  cacheDirectory w = Some dir -> Fs.besideProjectFiles dir = true ->
  spec <> "" -> parseSpec spec = (pkg, range) ->
  Fs.plainName pkg = true -> Js.inherited pkg = false ->
  registry w pkg = Ok m -> resolveVersion (collate w) m range = Picked v ->
  Js.contains "/" v = false ->
  get v (versions m) = Some url -> tarballs w url = Ok (Archive content) ->
  manifest content = Some [] ->
  lockFile st0 = Absent -> nodeModules st0 = None ->
  cacheFiles st0 <> None -> cachedFile w st0 pkg v = None ->
  exists st1 st2 st3,
    install_action (S fuel) w (Some spec) st0 = Some (Completed, st1) /\
    uninstall_action pkg st1 = (Completed, st2) /\
    install_action (S fuel) w (Some spec) st2 = Some (Completed, st3) /\
    Fs.existsSync pkg (nodeModules st1) = true /\
    Fs.existsSync pkg (nodeModules st2) = false /\
    nodeModules st3 = nodeModules st1 /\ lockFile st3 = lockFile st1 /\
    cacheFiles st3 = cacheFiles st1 /\
    trace st3 = Log (Installed pkg v) :: WriteLock [(pkg, v)] :: Extract pkg v ::
                FetchMeta pkg :: trace st2.
Proof.
  intros Hdir Hbeside Hspec Hp Hn Hinh Hreg Hres _ Hurl Ht Hm HF HN _ Hc.
  pose proof (plainName_dirname pkg Hn) as Hd.
  assert (Hcache : cacheDir w <> None).
  { unfold cacheDir. rewrite Hdir. cbn [Js.truthyOpt].
    rewrite (besideProjectFiles_truthy dir Hbeside). discriminate. }
  assert (Free : locked pkg [] = false) by exact Hinh.
  assert (Tspec : Js.truthyOpt (Some spec) = true).
  { simpl. unfold Js.truthy. destruct (String.eqb_spec spec ""); [contradiction|reflexivity]. }
  (* the first install *)
  set (s0 := setInstalledSet [] (setLock [] st0)).
  set (sD := downloaded w pkg v url (Archive content) (ensureCacheDir w s0)).
  set (sX := extracted pkg v content sD).
  set (st1 := emit (Log (Installed pkg v)) (recordInstall pkg v sX)).
  assert (Run1 : install_action (S fuel) w (Some spec) st0 = Some (Completed, st1)).
  { unfold install_action, loadLock. rewrite HF, Tspec. cbn [Js.str]. fold s0.
    rewrite (installPackage_leaf_download fuel w spec 0 s0 pkg range m v url content);
      try assumption; reflexivity. }
  destruct (ensureCacheDir_lock w s0) as (EL & EI & EF & EN & ET).
  destruct (downloaded_fields w pkg v url (Archive content) (ensureCacheDir w s0))
    as (DL & DI & DF & DN & DT). fold sD in DL, DI, DF, DN, DT.
  destruct (extracted_fields pkg v content sD) as (XL & XI & XF & XC & XT).
  fold sX in XL, XI, XF, XC, XT.
  destruct (recordInstall_fields pkg v sX) as (RL & RI & RF & RN & RC & RT).
  assert (N1 : nodeModules st1 = Some [(pkg, Fs.merge emptyDir content)]).
  { unfold st1. cbn [nodeModules emit]. rewrite RN. unfold sX.
    apply extracted_fresh. left. rewrite DN, EN. exact HN. }
  assert (L1 : lockFile st1 = Present [(pkg, v)]).
  { unfold st1. cbn [lockFile emit]. rewrite RF, XL, DL, EL.
    cbn [lock s0 setInstalledSet setLock]. rewrite (assign_first pkg v Hinh). reflexivity. }
  assert (C1 : cachedFile w st1 pkg v = Some (Archive content)).
  { unfold st1, cachedFile. cbn [cacheFiles emit]. rewrite RC, XC. unfold sD, downloaded.
    pose proof (ensureCacheDir_some w s0 Hcache) as ES.
    destruct (cacheDir w); [|congruence]. cbn [cacheFiles emit].
    destruct (cacheFiles (ensureCacheDir w s0)); [|congruence].
    cbn [cacheFiles setCacheFiles]. apply get_set_same. }
  (* the uninstall *)
  pose proof (uninstall_only_package pkg v _ st1 N1 L1) as Run2.
  set (st2 := emit (Log (Uninstalled pkg))
                (setNodeModules (Some [])
                   (emit (WriteLock []) (setLockFile (Present []) (setLock [] st1))))) in *.
  (* the second install *)
  set (s2 := setInstalledSet [] (setLock [] st2)).
  set (st3 := emit (Log (Installed pkg v))
                (recordInstall pkg v (extracted pkg v content (emit (FetchMeta pkg) s2)))).
  assert (Run3 : install_action (S fuel) w (Some spec) st2 = Some (Completed, st3)).
  { unfold install_action, loadLock. cbn [lockFile st2 emit setNodeModules setLockFile].
    rewrite Tspec. cbn [Js.str]. fold s2.
    rewrite (installPackage_leaf_cached fuel w spec 0 s2 pkg range m v url content);
      try assumption; reflexivity. }
  exists st1, st2, st3. do 3 (split; [assumption|]).
  destruct (extracted_fields pkg v content (emit (FetchMeta pkg) s2))
    as (YL & YI & YF & YC & YT).
  destruct (recordInstall_fields pkg v (extracted pkg v content (emit (FetchMeta pkg) s2)))
    as (QL & QI & QF & QN & QC & QT).
  split; [rewrite N1; unfold Fs.existsSync; cbn [get]; rewrite String.eqb_refl; reflexivity|].
  split; [reflexivity|].
  split.
  { unfold st3. cbn [nodeModules emit]. rewrite QN, N1.
    apply extracted_fresh. right. reflexivity. }
  split.
  { unfold st3. cbn [lockFile emit]. rewrite QF, YL, L1.
    cbn [lock s2 emit setInstalledSet setLock]. rewrite (assign_first pkg v Hinh). reflexivity. }
  split.
  { unfold st3. cbn [cacheFiles emit]. rewrite QC, YC. reflexivity. }
  unfold st3. cbn [trace emit]. rewrite QT, YT, YL.
  cbn [lock s2 emit setInstalledSet setLock]. rewrite (assign_first pkg v Hinh). reflexivity.
Qed.

Lemma install_uninstall_install_witness :
  exists st1 st2 st3,
    install_action 1 (leafWorld (Some ".ppm-cache")) (Some "leaf@^1") freshWithCache
      = Some (Completed, st1) /\
    uninstall_action "leaf" st1 = (Completed, st2) /\
    install_action 1 (leafWorld (Some ".ppm-cache")) (Some "leaf@^1") st2
      = Some (Completed, st3) /\
    Fs.existsSync "leaf" (nodeModules st1) = true /\
    Fs.existsSync "leaf" (nodeModules st2) = false /\
    nodeModules st3 = nodeModules st1 /\ lockFile st3 = lockFile st1 /\
    cacheFiles st3 = cacheFiles st1 /\
    trace st3 = Log (Installed "leaf" "1.4.0") :: WriteLock [("leaf", "1.4.0")] ::
                Extract "leaf" "1.4.0" :: FetchMeta "leaf" :: trace st2.
Proof.
  apply (install_uninstall_install 0 (leafWorld (Some ".ppm-cache")) "leaf@^1"
           freshWithCache "leaf" (Some "^1") (mkMeta "1.4.0" [("1.4.0", "https://r/leaf-1.4.0.tgz")])
           "1.4.0" "https://r/leaf-1.4.0.tgz" ".ppm-cache" (mkDir (Some []) ["index.js"]));
    try (vm_compute; reflexivity); vm_compute; discriminate.
Defined.

(** * Uninstall, entry by entry *)

Lemma filter_all (A : Type) (f : A -> bool) (l : list A) :
  (forall x, In x l -> f x = true) -> filter f l = l.
Proof.
  induction l as [|x l IH]; simpl; intros H; [reflexivity|].
  rewrite (H x (or_introl eq_refl)), IH; [reflexivity|]. intros y Hy. apply H. right. exact Hy.
Qed.

Lemma filter_twice (A : Type) (f g : A -> bool) (l : list A) :
  filter f (filter g l) = filter (fun x => g x && f x) l.
Proof.
  induction l as [|x l IH]; simpl; [reflexivity|].
  destruct (g x); simpl; [destruct (f x)|]; rewrite IH; reflexivity.
Qed.

(** The prune loop is a filter: an entry stays when every listed name
    outside the keep set is neither the entry nor a directory above it. *)
Lemma pruneLoop_filter (keep installed : list string) :
  forall d n,
    fst (pruneLoop keep installed d n) =
    filter (fun kv => survives keep installed (fst kv)) d.
Proof.
  induction installed as [|dep rest IH]; intros d n; cbn [pruneLoop].
  - symmetry. apply filter_all. reflexivity.
  - destruct (setHas dep keep) eqn:K.
    + rewrite IH. apply filter_ext. intros kv. unfold survives. cbn [forallb].
      rewrite K. reflexivity.
    + rewrite IH. unfold Fs.rmSync. rewrite filter_twice. apply filter_ext.
      intros kv. unfold survives. cbn [forallb]. rewrite K. reflexivity.
Qed.

Lemma get_filter_key (V : Type) (g : string -> bool) (k : string) (d : Dict V) :
  g k = true -> get k (filter (fun kv => g (fst kv)) d) = get k d.
Proof.
  intros H. induction d as [|[k' x] d IH]; simpl; [reflexivity|].
  destruct (String.eqb_spec k k') as [<-|Hne].
  - rewrite H. simpl. rewrite String.eqb_refl. reflexivity.
  - destruct (g k'); simpl; [|exact IH].
    destruct (String.eqb_spec k k'); [contradiction|exact IH].
Qed.

Lemma get_filter_gone (V : Type) (g : string -> bool) (k : string) (d : Dict V) :
  g k = false -> get k (filter (fun kv => g (fst kv)) d) = None.
Proof.
  intros H. induction d as [|[k' x] d IH]; simpl; [reflexivity|].
  destruct (g k') eqn:G; simpl; [|exact IH].
  destruct (String.eqb_spec k k'); [congruence|exact IH].
Qed.

Lemma get_filter_absent (V : Type) (f : string * V -> bool) (k : string) (d : Dict V) :
  get k d = None -> get k (filter f d) = None.
Proof.
  induction d as [|[k' x] d IH]; simpl; [reflexivity|].
  destruct (String.eqb k k') eqn:E; [discriminate|].
  intros H. destruct (f (k', x)); simpl; [rewrite E|]; auto.
Qed.

Lemma get_In (V : Type) (k : string) (x : V) (d : Dict V) :
  get k d = Some x -> In (k, x) d.
Proof.
  induction d as [|[k' y] d IH]; simpl; [discriminate|].
  destruct (String.eqb_spec k k') as [->|_]; [intros H; injection H as ->; auto|auto].
Qed.

Lemma topLevel_of_flat (t : string) : Js.contains "/" t = false -> Fs.topLevel t = t.
Proof. intros H. unfold Fs.topLevel. rewrite (split_no_sep _ _ H). reflexivity. Qed.

Lemma prefix_topLevel (t : string) :
  Js.contains "/" t = false ->
  forall k, String.prefix (t ++ "/") k = true -> Fs.topLevel k = t.
Proof.
  unfold Fs.topLevel. induction t as [|c t IH]; intros Ht k;
    destruct k as [|e k]; cbn [String.prefix String.append]; try discriminate.
  - destruct (ascii_dec "/" e) as [<-|]; [|discriminate]. intros _. reflexivity.
  - cbn [Js.contains] in Ht. apply orb_false_iff in Ht as [Hc Ht].
    destruct (ascii_dec c e) as [<-|]; [|discriminate]. intros H.
    cbn [Js.split]. rewrite Hc. specialize (IH Ht k H).
    destruct (split_hd "/" k) as (h & tl & E). rewrite E in *. cbn [hd] in *.
    congruence.
Qed.

(** What uninstall leaves of node_modules and of prisma.lock. *)
Lemma uninstall_action_effect (pkg : string) (st : State) (d : Dir) (deps : Dict string) :
  nodeModules st = Some d -> loadLock st = inr deps ->
  nodeModules (snd (uninstall_action pkg st)) =
    Some (let d1 := if Fs.existsSync pkg (Some d) then Fs.rmSync pkg d else d in
          filter (fun kv => survives (objectKeys (del pkg deps)) (Fs.readdirSync d1) (fst kv))
                 d1) /\
  lockFile (snd (uninstall_action pkg st)) =
    match lockFile st with Absent => Absent | _ => Present (del pkg deps) end.
Proof.
  destruct st as [l s f nm c t]. cbn [nodeModules]. intros -> HL.
  unfold uninstall_action. cbn [nodeModules].
  set (d1 := if Fs.existsSync pkg (Some d) then Fs.rmSync pkg d else d).
  assert (E : (if Fs.existsSync pkg (Some d)
               then setNodeModules (Some (Fs.rmSync pkg d)) (mkState l s f (Some d) c t)
               else mkState l s f (Some d) c t) = mkState l s f (Some d1) c t).
  { unfold d1. destruct (Fs.existsSync pkg (Some d)); reflexivity. }
  rewrite E. unfold loadLock in *. cbn [lockFile] in *.
  destruct f as [| | |deps0]; [|discriminate|discriminate|]; injection HL as <-;
    cbn [lockFile setLock lock nodeModules writeLock emit setLockFile];
    cbn [del filter];
    match goal with
    | |- context [pruneLoop ?k ?i ?x ?n] =>
        pose proof (pruneLoop_filter k i x n) as P; destruct (pruneLoop k i x n) as [d2 cnt]
    end; cbn [fst] in P; rewrite P;
    destruct (0 <? cnt)%nat; split; reflexivity.
Qed.

(** X20: uninstall keeps an entry of node_modules only if its top-level
    name is a key of the lock that remains.  A scoped package [@s/p] that is
    still in the lock therefore loses its directory, its top-level name
    [@s] being no key. *)
Theorem uninstall_prunes_by_top_level_name (pkg : string) (st : State) (d : Dir)
    (deps : Dict string) (k : string) :
  nodeModules st = Some d -> Fs.closed d -> loadLock st = inr deps ->
  setHas (Fs.topLevel k) (objectKeys (del pkg deps)) = false ->
  Fs.existsSync k (nodeModules (snd (uninstall_action pkg st))) = false.
Proof.
  intros HN Hc HL Hk.
  destruct (uninstall_action_effect pkg st d deps HN HL) as [-> _]. cbv zeta.
  set (d1 := if Fs.existsSync pkg (Some d) then Fs.rmSync pkg d else d).
  assert (C1 : Fs.closed d1)
    by (unfold d1; destruct (Fs.existsSync pkg (Some d)); [apply closed_rmSync|]; exact Hc).
  unfold Fs.existsSync.
  destruct (get k (filter _ d1)) as [x|] eqn:G; [|reflexivity]. exfalso.
  apply get_In, filter_In in G as [Hin S]. cbn [fst] in S.
  assert (Hkey : In k (objectKeys d1)) by (apply in_map_iff; exists (k, x); auto).
  unfold survives in S. rewrite forallb_forall in S.
  specialize (S _ (C1 k Hkey)). rewrite Hk in S. cbn [orb] in S.
  apply negb_true_iff, orb_false_iff in S as [S1 S2].
  destruct (topLevel_covers k) as [E|E]; [|congruence].
  rewrite <- E, String.eqb_refl in S1. discriminate.
Qed.

Lemma uninstall_prunes_by_top_level_name_witness :
  Fs.existsSync "@s/p" (nodeModules (snd (uninstall_action "a" lockedProject))) = false.
Proof.
  apply (uninstall_prunes_by_top_level_name "a" lockedProject
           [("a", emptyDir); ("@s", emptyDir); ("@s/p", emptyDir)]
           [("a", "1.0.0"); ("@s/p", "2.0.0")] "@s/p"); try reflexivity.
  intros k Hk. simpl in Hk. destruct Hk as [<-|[<-|[<-|[]]]]; vm_compute; auto.
Defined.

(** X21: when the package to uninstall is named by a plain path, one that
    [path.join] only appends to node_modules, uninstall leaves alone,
    contents included, every directory whose top-level name is a key of the
    lock that remains, unless the target is that directory, lies above it
    or lies inside it. *)
Theorem uninstall_keeps_tracked_entries (pkg : string) (st : State) (d : Dir)
    (deps : Dict string) (k : string) :
  nodeModules st = Some d -> loadLock st = inr deps ->
  Fs.plainPath pkg = true ->
  setHas (Fs.topLevel k) (objectKeys (del pkg deps)) = true ->
  k <> pkg -> String.prefix (pkg ++ "/") k = false ->
  String.prefix (k ++ "/") pkg = false ->
  exists d', nodeModules (snd (uninstall_action pkg st)) = Some d' /\ get k d' = get k d.
Proof.
  intros HN HL _ Hk Hne Hpre _.
  destruct (uninstall_action_effect pkg st d deps HN HL) as [-> _]. cbv zeta.
  eexists. split; [reflexivity|].
  set (d1 := if Fs.existsSync pkg (Some d) then Fs.rmSync pkg d else d).
  assert (G1 : get k d1 = get k d).
  { unfold d1. destruct (Fs.existsSync pkg (Some d)); [|reflexivity]. unfold Fs.rmSync.
    apply (get_filter_key _ (fun x => negb (String.eqb x pkg || String.prefix (pkg ++ "/") x))).
    rewrite Hpre. destruct (String.eqb_spec k pkg); [contradiction|reflexivity]. }
  rewrite <- G1.
  apply (get_filter_key _ (survives (objectKeys (del pkg deps)) (Fs.readdirSync d1))).
  unfold survives. apply forallb_forall. intros t Ht.
  apply readdir_In in Ht as [_ Hflat].
  destruct (setHas t (objectKeys (del pkg deps))) eqn:K; [reflexivity|]. cbn [orb].
  apply negb_true_iff, orb_false_iff. split.
  - destruct (String.eqb_spec k t) as [->|]; [|reflexivity].
    rewrite (topLevel_of_flat t Hflat) in Hk. congruence.
  - destruct (String.prefix (t ++ "/") k) eqn:P; [|reflexivity].
    rewrite (prefix_topLevel t Hflat k P) in Hk. congruence.
Qed.

Lemma uninstall_keeps_tracked_entries_witness :
  exists d', nodeModules (snd (uninstall_action "@s/p" lockedProject)) = Some d' /\
    get "a" d' = get "a" [("a", emptyDir); ("@s", emptyDir); ("@s/p", emptyDir)].
Proof.
  apply (uninstall_keeps_tracked_entries "@s/p" lockedProject
           [("a", emptyDir); ("@s", emptyDir); ("@s/p", emptyDir)]
           [("a", "1.0.0"); ("@s/p", "2.0.0")] "a"); try reflexivity.
  discriminate.
Defined.

Lemma del_del (V : Type) (k : string) (o : Dict V) : del k (del k o) = del k o.
Proof.
  unfold del. rewrite filter_twice. apply filter_ext. intros x.
  destruct (negb _); reflexivity.
Qed.

Lemma existsSync_after_rm (pkg : string) (d : Dir) :
  Fs.existsSync pkg (Some (if Fs.existsSync pkg (Some d) then Fs.rmSync pkg d else d)) = false.
Proof.
  destruct (Fs.existsSync pkg (Some d)) eqn:E; [|exact E].
  unfold Fs.existsSync, Fs.rmSync.
  rewrite (get_filter_gone _ (fun x => negb (String.eqb x pkg || String.prefix (pkg ++ "/") x)));
    [reflexivity|].
  rewrite String.eqb_refl. reflexivity.
Qed.

Lemma uninstall_action_unreadable (pkg : string) (st : State) (e : Exn) :
  loadLock st = inl e ->
  lockFile (snd (uninstall_action pkg st)) = lockFile st /\
  nodeModules (snd (uninstall_action pkg st)) =
    match nodeModules st with
    | Some d => Some (if Fs.existsSync pkg (Some d) then Fs.rmSync pkg d else d)
    | None => None
    end.
Proof.
  destruct st as [l s f nm c t]. unfold uninstall_action, loadLock.
  cbn [lockFile nodeModules]. intros HL.
  destruct nm as [d|]; [destruct (Fs.existsSync pkg (Some d))|];
    cbn [lockFile setNodeModules nodeModules];
    destruct f; try discriminate; split; reflexivity.
Qed.

Lemma uninstall_action_no_dir (pkg : string) (st : State) (deps : Dict string) :
  nodeModules st = None -> loadLock st = inr deps ->
  nodeModules (snd (uninstall_action pkg st)) = None /\
  lockFile (snd (uninstall_action pkg st)) =
    match lockFile st with Absent => Absent | _ => Present (del pkg deps) end.
Proof.
  destruct st as [l s f nm c t]. cbn [nodeModules]. intros -> HL.
  unfold uninstall_action, loadLock in *. cbn [nodeModules lockFile Fs.existsSync] in *.
  destruct f as [| | |deps0]; [|discriminate|discriminate|]; injection HL as <-;
    split; reflexivity.
Qed.

Lemma readdir_filter_sub (f : string * PkgDir -> bool) (d : Dir) (t : string) :
  In t (Fs.readdirSync (filter f d)) -> In t (Fs.readdirSync d).
Proof.
  intros H. apply readdir_In in H as [Ht Hflat]. apply readdir_In. split; [|exact Hflat].
  unfold objectKeys in *. apply in_map_iff in Ht as (kv & E & H2).
  apply filter_In in H2 as [H2 _]. apply in_map_iff. exists kv. auto.
Qed.

Lemma uninstall_again (pkg : string) (st : State) (d : Dir) (deps : Dict string) :
  nodeModules st = Some d -> loadLock st = inr deps ->
  nodeModules (snd (uninstall_action pkg (snd (uninstall_action pkg st)))) =
    nodeModules (snd (uninstall_action pkg st)) /\
  lockFile (snd (uninstall_action pkg (snd (uninstall_action pkg st)))) =
    lockFile (snd (uninstall_action pkg st)).
Proof.
  intros N HL.
  destruct (uninstall_action_effect pkg st d deps N HL) as [N1 F1]. cbv zeta in N1.
  set (st1 := snd (uninstall_action pkg st)) in *.
  set (d1 := if Fs.existsSync pkg (Some d) then Fs.rmSync pkg d else d) in *.
  set (keep := objectKeys (del pkg deps)) in *.
  set (d' := filter (fun kv => survives keep (Fs.readdirSync d1) (fst kv)) d1) in *.
  assert (HL1 : loadLock st1 = inr (del pkg deps)).
  { unfold loadLock in *. rewrite F1.
    destruct (lockFile st);
      [injection HL as <-; reflexivity|discriminate|discriminate|reflexivity]. }
  assert (Gone : Fs.existsSync pkg (Some d') = false).
  { pose proof (existsSync_after_rm pkg d) as G. fold d1 in G.
    unfold Fs.existsSync in *. unfold d'.
    destruct (get pkg d1) eqn:G1; [discriminate|].
    rewrite get_filter_absent by exact G1. reflexivity. }
  destruct (uninstall_action_effect pkg st1 d' _ N1 HL1) as [N2 F2].
  rewrite N2, F2, N1, F1, del_del. cbv zeta.
  repeat match goal with
         | |- context [Fs.existsSync pkg ?x] =>
             replace (Fs.existsSync pkg x) with false by (symmetry; exact Gone)
         end.
  fold keep.
  split.
  - f_equal. apply filter_all. intros [k x] Hin. cbn [fst].
    unfold d' in Hin. apply filter_In in Hin as [_ S]. cbn [fst] in S.
    unfold survives in *. rewrite forallb_forall in *. intros t Ht. apply S.
    eapply readdir_filter_sub. exact Ht.
  - destruct (lockFile st); reflexivity.
Qed.

(** X22: uninstalling the same package a second time changes neither
    node_modules nor prisma.lock: everything the first run removed stays
    removed and nothing else goes. *)
Theorem uninstall_twice_is_uninstall_once (pkg : string) (st : State) :
  nodeModules (snd (uninstall_action pkg (snd (uninstall_action pkg st)))) =
    nodeModules (snd (uninstall_action pkg st)) /\
  lockFile (snd (uninstall_action pkg (snd (uninstall_action pkg st)))) =
    lockFile (snd (uninstall_action pkg st)).
Proof.
  destruct (loadLock st) as [e|deps] eqn:HL.
  - destruct (uninstall_action_unreadable pkg st e HL) as [F1 N1].
    assert (HL1 : loadLock (snd (uninstall_action pkg st)) = inl e)
      by (unfold loadLock in *; rewrite F1; exact HL).
    destruct (uninstall_action_unreadable pkg _ e HL1) as [F2 N2].
    rewrite F2, N2, N1. split; [|reflexivity].
    destruct (nodeModules st) as [d|]; [|reflexivity].
    rewrite existsSync_after_rm. reflexivity.
  - destruct (nodeModules st) as [d|] eqn:N; [apply (uninstall_again pkg st d deps N HL)|].
    destruct (uninstall_action_no_dir pkg st deps N HL) as [N1 F1].
    assert (HL1 : loadLock (snd (uninstall_action pkg st)) = inr (del pkg deps)).
    { unfold loadLock in *. rewrite F1.
      destruct (lockFile st);
        [injection HL as <-; reflexivity|discriminate|discriminate|reflexivity]. }
    destruct (uninstall_action_no_dir pkg _ _ N1 HL1) as [N2 F2].
    rewrite N2, F2, N1, F1, del_del. split; [reflexivity|].
    destruct (lockFile st); reflexivity.
Qed.

(** * Update and upgrade against a registry that does not answer *)

Lemma removeOld_fields (pkg : string) (st : State) :
  lock (removeOld pkg st) = del pkg (lock st) /\
  lockFile (removeOld pkg st) = Present (del pkg (lock st)) /\
  nodeModules (removeOld pkg st) =
    match nodeModules st with Some d => Some (Fs.rmSync pkg d) | None => None end.
Proof. unfold removeOld, writeLock. destruct (nodeModules st) eqn:N; simpl; rewrite ?N; auto. Qed.

Lemma existsSync_rmSync_self (pkg : string) (d : Dir) :
  Fs.existsSync pkg (Some (Fs.rmSync pkg d)) = false.
Proof.
  unfold Fs.existsSync, Fs.rmSync.
  rewrite (get_filter_gone _ (fun x => negb (String.eqb x pkg || String.prefix (pkg ++ "/") x)));
    [reflexivity|].
  rewrite String.eqb_refl. reflexivity.
Qed.

Lemma get_del_self (V : Type) (k : string) (o : Dict V) : get k (del k o) = None.
Proof.
  unfold del. apply (get_filter_gone _ (fun x => negb (String.eqb k x))).
  rewrite String.eqb_refl. reflexivity.
Qed.

(** X23: update is not atomic.  When the lock holds the package and the
    registry does not answer for it, [ppm update] still removes the
    package's directory and its lock entry, writes the lock file without it,
    reports success and exits with code 0. *)
Theorem update_loses_package_when_registry_fails (fuel : nat) (w : World) (pkg : string)
    (st : State) (deps : Dict string) :
  lockFile st = Present deps -> locked pkg deps = true ->
  (forall m, registry w (fst (parseSpec pkg)) <> Ok m) ->
  exists st',
    update_action (S fuel) w pkg st = Some (Exited 0, st') /\
    lockFile st' = Present (del pkg deps) /\ get pkg (del pkg deps) = None /\
    Fs.existsSync pkg (nodeModules st') = false /\
    exists rest, trace st' = Log (Updated pkg) :: rest.
Proof.
  intros HF HL Hreg. unfold update_action, loadLock. rewrite HF.
  cbn [lock setInstalledSet setLock]. rewrite HL.
  set (s1 := removeOld pkg (setInstalledSet [] (setLock deps st))).
  destruct (removeOld_fields pkg (setInstalledSet [] (setLock deps st))) as (L1 & F1 & N1).
  fold s1 in L1, F1, N1. cbn [lock nodeModules setInstalledSet setLock] in L1, F1, N1.
  destruct (installPackage_absent_frame fuel w pkg 0 s1 Hreg) as (st' & -> & L & F & N).
  eexists. split; [reflexivity|]. cbn [lockFile nodeModules trace emit].
  rewrite F, F1, N, N1. split; [reflexivity|]. split; [apply get_del_self|].
  split; [|eauto].
  destruct (nodeModules st); [apply existsSync_rmSync_self|reflexivity].
Qed.

Lemma update_loses_package_when_registry_fails_witness :
  exists st',
    update_action 1 (sampleWorld None) "ghost" ghostLocked = Some (Exited 0, st') /\
    lockFile st' = Present (del "ghost" [("ghost", "1.0.0")]) /\
    get "ghost" (del "ghost" [("ghost", "1.0.0")]) = None /\
    Fs.existsSync "ghost" (nodeModules st') = false /\
    exists rest, trace st' = Log (Updated "ghost") :: rest.
Proof.
  apply (update_loses_package_when_registry_fails 0 (sampleWorld None) "ghost" ghostLocked
           [("ghost", "1.0.0")]); try reflexivity.
  intros m H. vm_compute in H. discriminate.
Defined.

Lemma existsSync_rmSync_sub (p q : string) (d : Dir) :
  Fs.existsSync q (Some (Fs.rmSync p d)) = true -> Fs.existsSync q (Some d) = true.
Proof.
  unfold Fs.existsSync, Fs.rmSync. destruct (get q d) eqn:G; [reflexivity|].
  rewrite get_filter_absent by exact G. discriminate.
Qed.

Lemma upgradeLoop_absent_effect (fuel : nat) (w : World) (pkgs : list string) :
  (forall k m, In k pkgs -> registry w (fst (parseSpec k)) <> Ok m) ->
  forall st, exists st',
    upgradeLoop (S fuel) w pkgs st = Some st' /\
    lock st' = filter (fun kv => negb (setHas (fst kv) pkgs)) (lock st) /\
    (pkgs <> [] -> lockFile st' = Present (lock st')) /\
    (forall q, Fs.existsSync q (nodeModules st') = true ->
               Fs.existsSync q (nodeModules st) = true /\ ~ In q pkgs).
Proof.
  induction pkgs as [|pkg rest IH]; intros H st.
  - exists st. cbn [upgradeLoop]. split; [reflexivity|]. split.
    + symmetry. apply filter_all. reflexivity.
    + split; [congruence|]. intros q Hq. auto.
  - cbn [upgradeLoop].
    set (s1 := removeOld pkg (setInstalledSet [] st)).
    destruct (removeOld_fields pkg (setInstalledSet [] st)) as (L1 & F1 & N1).
    fold s1 in L1, F1, N1. cbn [lock nodeModules setInstalledSet] in L1, F1, N1.
    destruct (installPackage_absent_frame fuel w pkg 0 s1) as (s2 & -> & L2 & F2 & N2);
      [intros m; apply H; left; reflexivity|].
    destruct (IH (fun k m Hk => H k m (or_intror Hk)) s2) as (st' & Run & L & F & N).
    exists st'. split; [exact Run|]. split; [|split].
    + rewrite L, L2, L1. unfold del. rewrite filter_twice. apply filter_ext.
      intros [k x]. cbn [fst setHas existsb]. rewrite negb_orb, (String.eqb_sym k pkg).
      reflexivity.
    + intros _. destruct rest as [|r rest']; [|apply F; discriminate].
      cbn [upgradeLoop] in Run. injection Run as <-. rewrite F2, F1, L2, L1. reflexivity.
    + intros q Hq. destruct (N q Hq) as [Hq2 Hrest]. rewrite N2, N1 in Hq2.
      destruct (nodeModules st) as [d|]; [|discriminate]. split.
      * eapply existsSync_rmSync_sub. exact Hq2.
      * intros [<-|Hin]; [|contradiction].
        rewrite existsSync_rmSync_self in Hq2. discriminate.
Qed.

(** X24: upgrade is not atomic either.  When the registry answers for none
    of the packages in the lock file, [ppm upgrade] ends with exit code 0
    and an empty prisma.lock, and no package of the old lock has a directory
    left. *)
Theorem upgrade_empties_lock_when_registry_fails (fuel : nat) (w : World) (st : State)
    (deps : Dict string) :
  lockFile st = Present deps -> deps <> [] ->
  (forall k m, In k (objectKeys deps) -> registry w (fst (parseSpec k)) <> Ok m) ->
  exists st',
    upgrade_action (S fuel) w st = Some (Exited 0, st') /\
    lockFile st' = Present [] /\
    forall k, In k (objectKeys deps) -> Fs.existsSync k (nodeModules st') = false.
Proof.
  intros HF Hne Hreg. unfold upgrade_action, loadLock. rewrite HF.
  destruct (upgradeLoop_absent_effect fuel w (objectKeys deps) Hreg (setLock deps st))
    as (s1 & Run & L & F & N).
  assert (Keys : objectKeys deps <> []) by (destruct deps; [contradiction|discriminate]).
  destruct (objectKeys deps) as [|k0 ks] eqn:K; [contradiction|].
  rewrite Run. eexists. split; [reflexivity|]. cbn [lockFile nodeModules emit].
  assert (Empty : lock s1 = []).
  { rewrite L. cbn [lock setLock]. rewrite <- K.
    destruct (filter _ deps) as [|kv rest] eqn:E; [reflexivity|]. exfalso.
    assert (Hin : In kv (filter (fun kv => negb (setHas (fst kv) (objectKeys deps))) deps))
      by (rewrite E; left; reflexivity).
    apply filter_In in Hin as [Hin Hf]. apply negb_true_iff in Hf.
    assert (T : setHas (fst kv) (objectKeys deps) = true).
    { unfold setHas. apply existsb_exists. exists (fst kv).
      split; [apply in_map; exact Hin|apply String.eqb_refl]. }
    congruence. }
  split; [rewrite F by discriminate; rewrite Empty; reflexivity|].
  intros k Hk. destruct (Fs.existsSync k (nodeModules s1)) eqn:E; [|reflexivity].
  destruct (N k E) as [_ Hnot]. contradiction.
Qed.

Lemma upgrade_empties_lock_when_registry_fails_witness :
  exists st',
    upgrade_action 1 (sampleWorld None) ghostLocked = Some (Exited 0, st') /\
    lockFile st' = Present [] /\
    forall k, In k (objectKeys [("ghost", "1.0.0")]) ->
              Fs.existsSync k (nodeModules st') = false.
Proof.
  apply (upgrade_empties_lock_when_registry_fails 0 (sampleWorld None) ghostLocked
           [("ghost", "1.0.0")]); [reflexivity|discriminate|].
  intros k m [<-|[]] H. vm_compute in H. discriminate.
Defined.

(** * List *)

(** X25: after [ppm uninstall] of a package, [ppm list] has no line for it,
    whatever else the lock file holds. *)
Theorem list_after_uninstall (pkg : string) (st : State) (lines : list ListLine) (v : string) :
  list_action (snd (uninstall_action pkg st)) = inr lines ->
  ~ In (ListEntry pkg v) lines.
Proof.
  unfold list_action. intros H Hin.
  destruct (loadLock st) as [e|deps] eqn:HL.
  - destruct (uninstall_action_unreadable pkg st e HL) as [F1 _]. rewrite F1 in H.
    unfold loadLock in HL. destruct (lockFile st); try discriminate.
    injection H as <-. destruct Hin as [E|[]]. discriminate.
  - assert (F1 : lockFile (snd (uninstall_action pkg st)) =
                 match lockFile st with Absent => Absent | _ => Present (del pkg deps) end).
    { destruct (nodeModules st) as [d|] eqn:N.
      - apply (uninstall_action_effect pkg st d deps N HL).
      - apply (uninstall_action_no_dir pkg st deps N HL). }
    rewrite F1 in H. unfold loadLock in HL.
    destruct (lockFile st) as [| | |deps0]; [| discriminate | discriminate |].
    + injection H as <-. destruct Hin as [E|[]]. discriminate.
    + destruct (objectKeys (del pkg deps)); injection H as <-.
      * destruct Hin as [E|[]]. discriminate.
      * destruct Hin as [E|Hin]; [discriminate|].
        apply in_map_iff in Hin as ([k x] & E & Hin). injection E as -> ->.
        unfold del in Hin. apply filter_In in Hin as [_ Hf]. cbn [fst] in Hf.
        rewrite String.eqb_refl in Hf. discriminate.
Qed.

Lemma list_after_uninstall_witness :
  ~ In (ListEntry "a" "1.0.0")
       [InstalledPackages; ListEntry "@s/p" "2.0.0"].
Proof.
  apply (list_after_uninstall "a" lockedProject). reflexivity.
Defined.



